(** * ungraded.py: extraction of student answers to ungraded problems

    A shallow embedding of [scripts/ungraded.py].  Python values that come
    out of [json.load] are modelled by the type [json]; Python [dict]s keep
    insertion order (the language's rule since Python 3.7) and are
    association lists; a Python [str] is a Rocq [string] holding its UTF-8
    encoding.  Exceptions are values of [pyerr] carried by [result]; the
    part of the script that touches the operating system and the pandas
    objects runs in a small state-and-error monad over [world], whose heap
    holds the objects that the script shares or mutates. *)

From Stdlib Require Import ZArith List String Ascii Floats Bool Lia.
From stdpp Require Import gmap strings.
Import ListNotations.
Local Open Scope string_scope.

(** ** Exceptions *)

Inductive pyerr : Type :=
| KeyError
| TypeError
| AttributeError
| ValueError
| OSError.

Inductive result (A : Type) : Type :=
| Ok (a : A)
| Raise (e : pyerr).
Arguments Ok {A} a.
Arguments Raise {A} e.

Definition rbind {A B} (r : result A) (k : A -> result B) : result B :=
  match r with
  | Ok a => k a
  | Raise e => Raise e
  end.

(** Code with a mutable state [S]: the state reached is kept when an
    exception is raised. *)
Definition M (S A : Type) : Type := S -> result A * S.

Definition ret {S A} (a : A) : M S A := fun s => (Ok a, s).

Definition raise {S A} (e : pyerr) : M S A := fun s => (Raise e, s).

Definition bind {S A B} (m : M S A) (k : A -> M S B) : M S B :=
  fun s =>
    match m s with
    | (Ok a, s') => k a s'
    | (Raise e, s') => (Raise e, s')
    end.

(** A computation that only reads its arguments. *)
Definition lift {S A} (r : result A) : M S A := fun s => (r, s).

Definition modify {S} (f : S -> S) : M S unit := fun s => (Ok tt, f s).

Declare Scope res_scope.
Delimit Scope res_scope with res.
Notation "x <- c ;; k" := (rbind c (fun x => k))
  (at level 100, c at next level, right associativity) : res_scope.

Declare Scope py_scope.
Delimit Scope py_scope with py.
Notation "x <- c ;; k" := (bind c (fun x => k))
  (at level 100, c at next level, right associativity) : py_scope.
Notation "c ;;; k" := (bind c (fun _ => k))
  (at level 100, right associativity) : py_scope.

(** [for x in l: body], stopping at the first exception. *)
Fixpoint for_each {A S} (l : list A) (body : A -> M S unit) : M S unit :=
  match l with
  | [] => ret tt
  | x :: l' => bind (body x) (fun _ => for_each l' body)
  end.

(** [map] with a function that may raise, left to right. *)
Fixpoint map_result {A B} (f : A -> result B) (l : list A) : result (list B) :=
  match l with
  | [] => Ok []
  | x :: l' =>
      match f x with
      | Ok y => match map_result f l' with
                | Ok ys => Ok (y :: ys)
                | Raise e => Raise e
                end
      | Raise e => Raise e
      end
  end.

(** ** JSON values as Python objects *)

#[warnings="-register-all"]
Inductive json : Type :=
| JNull
| JBool (b : bool)
| JInt (n : Z)
| JFloat (f : float)
| JStr (s : string)
| JArr (l : list json)
| JObj (d : list (string * json)).

(** A [dict] with [str] keys, in insertion order. *)
Abbreviation dict := (list (string * json)).

Fixpoint dict_get (d : dict) (k : string) : option json :=
  match d with
  | [] => None
  | (k', v) :: d' => if String.eqb k' k then Some v else dict_get d' k
  end.

Definition dict_keys (d : dict) : list string := map fst d.

(** [o[k]] for a string literal [k]: only a dict can be subscripted by a
    string; a missing key is a [KeyError]. *)
Definition py_getitem (o : json) (k : string) : result json :=
  match o with
  | JObj d => match dict_get d k with
              | Some v => Ok v
              | None => Raise KeyError
              end
  | _ => Raise TypeError
  end.

(** [v == k] for a string literal [k]. *)
Definition py_eq_str (v : json) (k : string) : bool :=
  match v with
  | JStr s => String.eqb s k
  | _ => false
  end.

(** Substring test on strings. *)
Fixpoint str_contains (needle s : string) : bool :=
  String.prefix needle s ||
  match s with
  | EmptyString => false
  | String _ s' => str_contains needle s'
  end.

(** [k in o] for a string literal [k]: key membership for a dict, element
    membership for a list, substring for a string. *)
Definition py_contains (o : json) (k : string) : result bool :=
  match o with
  | JObj d => Ok (existsb (fun k' => String.eqb k' k) (dict_keys d))
  | JArr l => Ok (existsb (fun v => py_eq_str v k) l)
  | JStr s => Ok (str_contains k s)
  | _ => Raise TypeError
  end.

(** Characters of a string held as UTF-8: a continuation byte (10xxxxxx)
    belongs to the character started before it. *)
Definition is_continuation (a : ascii) : bool :=
  let n := N_of_ascii a in (128 <=? n)%N && (n <? 192)%N.

Fixpoint utf8_split (s : string) : string * list string :=
  match s with
  | EmptyString => (EmptyString, [])
  | String a s' =>
      let '(pre, cs) := utf8_split s' in
      if is_continuation a then (String a pre, cs)
      else (EmptyString, String a pre :: cs)
  end.

Definition utf8_chars (s : string) : list string :=
  let '(pre, cs) := utf8_split s in
  match pre with
  | EmptyString => cs
  | _ => pre :: cs
  end.

(** The items a [for] loop (or [enumerate]) draws from [o]: the elements
    of a list, the keys of a dict, the characters of a string. *)
Definition py_iter (o : json) : result (list json) :=
  match o with
  | JArr l => Ok l
  | JObj d => Ok (map JStr (dict_keys d))
  | JStr s => Ok (map JStr (utf8_chars s))
  | _ => Raise TypeError
  end.

(** [d[k]] where [d] is a dict with string keys and [k] any value: lists
    and dicts are unhashable, and no number, boolean or [None] equals a
    string. *)
Definition dict_subscript (d : dict) (k : json) : result json :=
  match k with
  | JStr s => match dict_get d s with
              | Some v => Ok v
              | None => Raise KeyError
              end
  | JArr _ | JObj _ => Raise TypeError
  | _ => Raise KeyError
  end.

(** ** Hashable values as dict keys

    Two hashable values are the same key when they are equal in Python:
    [True == 1 == 1.0].  [py_key] sends a value to a canonical form on
    which that is plain equality.  The [NaN] that [json] parses is one
    object, a key equal to itself. *)

Inductive hkey : Type :=
| KNone
| KNum (n : Z)
| KFloat (f : float)
| KStr (s : string).

(** The integer a float is equal to, if any. *)
Definition float_int_value (f : float) : option Z :=
  match Prim2SF f with
  | S754_zero _ => Some 0%Z
  | S754_finite sgn m e =>
      let v := if sgn then Z.neg m else Z.pos m in
      if (0 <=? e)%Z then Some (v * 2 ^ e)%Z
      else if (Z.pos m mod 2 ^ (- e) =? 0)%Z then Some (v / 2 ^ (- e))%Z
      else None
  | _ => None
  end.

Definition py_key (v : json) : option hkey :=
  match v with
  | JNull => Some KNone
  | JBool b => Some (KNum (if b then 1 else 0))
  | JInt n => Some (KNum n)
  | JFloat f => match float_int_value f with
                | Some n => Some (KNum n)
                | None => Some (KFloat f)
                end
  | JStr s => Some (KStr s)
  | JArr _ | JObj _ => None
  end.

Definition hkey_eqb (a b : hkey) : bool :=
  match a, b with
  | KNone, KNone => true
  | KNum m, KNum n => (m =? n)%Z
  | KFloat f, KFloat g => PrimFloat.Leibniz.eqb f g
  | KStr s, KStr t => String.eqb s t
  | _, _ => false
  end.

Definition same_key (k : hkey) (v : json) : bool :=
  match py_key v with
  | Some k' => hkey_eqb k' k
  | None => false
  end.

(** ** [self.ungraded]

    A dict from section name to the list of [(name, id)] tuples, in
    insertion order.  The id of a recorded problem has been used to
    subscript the course structure, so it is a string. *)

Abbreviation problem := (json * string)%type.
Abbreviation udict := (list (json * list problem)).

(** [u.setdefault(k, [])], for a hashable [k] whose canonical form is
    [hk]: the dict gets the key with an empty list unless it has it. *)
Fixpoint setdefault (hk : hkey) (k : json) (u : udict) : udict :=
  match u with
  | [] => [(k, [])]
  | (k', l) :: u' =>
      if same_key hk k' then (k', l) :: u'
      else (k', l) :: setdefault hk k u'
  end.

(** [.append(x)] on the list that [setdefault] returned for [hk]. *)
Fixpoint append_at (hk : hkey) (x : problem) (u : udict) : udict :=
  match u with
  | [] => []
  | (k', l) :: u' =>
      if same_key hk k' then (k', (l ++ [x])%list) :: u'
      else (k', l) :: append_at hk x u'
  end.

(** ** Walking the course structure

    The loops run on [self.ungraded], the state of [M udict]. *)

Section Extraction.

(** [self.course_structure], once known to be a dict. *)
Variable cs : dict.

(** The body of the loop of [add_from_vert].  In the last statement
    Python evaluates [self.ungraded.setdefault(vert_name, [])] first,
    then the tuple, then calls [append].  A [child_id] that has
    subscripted the course structure is a string, so the last [match]
    always takes its first branch. *)
Definition add_child (vert : json) (child_id : json) : M udict unit :=
  (child <- lift (dict_subscript cs child_id) ;;
   cat <- lift (py_getitem child "category") ;;
   if py_eq_str cat "problem" then
     vmeta <- lift (py_getitem vert "metadata") ;;
     vert_name <- lift (py_getitem vmeta "display_name") ;;
     match py_key vert_name with
     | None => raise TypeError
     | Some hk =>
         modify (setdefault hk vert_name) ;;;
         cmeta <- lift (py_getitem child "metadata") ;;
         name <- lift (py_getitem cmeta "display_name") ;;
         match child_id with
         | JStr pid => modify (append_at hk (name, pid))
         | _ => raise KeyError
         end
     end
   else ret tt)%py.

Definition add_from_vert (vert : json) : M udict unit :=
  (children <- lift (py_getitem vert "children") ;;
   ids <- lift (py_iter children) ;;
   for_each ids (add_child vert))%py.

(** The body of the inner loop of [extract_ungraded]. *)
Definition add_from_vid (vid : json) : M udict unit :=
  (vert <- lift (dict_subscript cs vid) ;;
   add_from_vert vert)%py.

(** The body of the outer loop of [extract_ungraded]. *)
Definition visit_node (item : string * json) : M udict unit :=
  (let desc := snd item in
   cat <- lift (py_getitem desc "category") ;;
   if py_eq_str cat "sequential" then
     meta <- lift (py_getitem desc "metadata") ;;
     graded <- lift (py_contains meta "graded") ;;
     if negb graded then
       vert_ids <- lift (py_getitem desc "children") ;;
       vids <- lift (py_iter vert_ids) ;;
       for_each vids add_from_vid
     else ret tt
   else ret tt)%py.

End Extraction.

(** The loops of [extract_ungraded], run on [self.ungraded = {}];
    [.items()] needs a dict. *)
Definition extract_loops (course_structure : json) : M udict unit :=
  match course_structure with
  | JObj cs => for_each cs (visit_node cs)
  | _ => raise AttributeError
  end.

(** The value of [self.ungraded] when [extract_ungraded] returns. *)
Definition ungraded_of (course_structure : json) : result udict :=
  match extract_loops course_structure [] with
  | (Ok _, u) => Ok u
  | (Raise e, _) => Raise e
  end.

(** ** Data frames

    A [DataFrame] is its column names and its rows, each row with its
    index label.  Cells are Python objects: a string, the float [nan] for
    a missing value, or whatever [apply] returned. *)

Definition NaN : json := JFloat PrimFloat.nan.

Record frame : Type := {
  columns : list string;
  rows : list (nat * list json)
}.

Fixpoint col_index (name : string) (cols : list string) : option nat :=
  match cols with
  | [] => None
  | c :: cols' =>
      if String.eqb c name then Some 0
      else option_map S (col_index name cols')
  end.

(** [df.name]: the values of a column, top to bottom. *)
Definition frame_column (f : frame) (name : string) : result (list json) :=
  match col_index name (columns f) with
  | Some i => Ok (map (fun r => nth i (snd r) NaN) (rows f))
  | None => Raise AttributeError
  end.

(** The elements of [l] at the positions where [mask] is true. *)
Fixpoint select {A} (mask : list bool) (l : list A) : list A :=
  match mask, l with
  | b :: mask', x :: l' =>
      if b then x :: select mask' l' else select mask' l'
  | _, _ => []
  end.

(** [df.loc[mask]] for a boolean mask: a new frame with the rows picked. *)
Definition frame_loc (f : frame) (mask : list bool) : frame :=
  {| columns := columns f; rows := select mask (rows f) |}.

Fixpoint set_nth {A} (i : nat) (v : A) (l : list A) : list A :=
  match i, l with
  | 0, _ :: l' => v :: l'
  | S i', x :: l' => x :: set_nth i' v l'
  | _, [] => []
  end.

Fixpoint zip_rows (g : list json -> json -> list json)
  (rs : list (nat * list json)) (vals : list json) : list (nat * list json) :=
  match rs, vals with
  | r :: rs', v :: vals' => (fst r, g (snd r) v) :: zip_rows g rs' vals'
  | _, _ => []
  end.

(** [df[name] = vals]: a new last column, or the column replaced. *)
Definition frame_setitem (f : frame) (name : string) (vals : list json)
  : frame :=
  match col_index name (columns f) with
  | Some i =>
      {| columns := columns f;
         rows := zip_rows (fun cells v => set_nth i v cells) (rows f) vals |}
  | None =>
      {| columns := (columns f ++ [name])%list;
         rows := zip_rows (fun cells v => (cells ++ [v])%list) (rows f) vals |}
  end.

(** ** Objects, events and the world *)

(** An [UngradedProblems] object; an attribute is [None] until it is
    assigned.  [student_df] is a reference to a frame on the heap. *)
Record instance : Type := {
  course_structure : option json;
  student_df : option nat;
  ungraded : option udict
}.

Inductive pyobj : Type :=
| OFrame (f : frame)
| OInstance (i : instance).

(** What the script asks of its environment. *)
Inductive event : Type :=
| Print (s : string)
| MakeDirs (path : string)
| ToCsv (path : string) (sep : ascii) (f : frame).

Record world : Type := {
  heap : list pyobj;
  log : list event
}.

Definition set_heap (h : list pyobj) (w : world) : world :=
  {| heap := h; log := log w |}.

Definition tab : ascii := "009"%char.

(** [os.path.join(a, b)] of [posixpath]: [b] has to be a string. *)
Definition ends_with_slash (a : string) : bool :=
  match String.get (String.length a - 1) a with
  | Some c => Ascii.eqb c "/"%char
  | None => false
  end.

Definition path_join (a : string) (b : json) : result string :=
  match b with
  | JStr b =>
      Ok (if String.prefix "/" b then b
          else if String.eqb a "" || ends_with_slash a then a ++ b
          else a ++ "/" ++ b)
  | _ => Raise TypeError
  end.

(** Spellings of one directory.  [same_directory a b]: the paths [a] and
    [b] name the same directory whatever the file system holds, by the
    rules of POSIX path resolution: a slash after the name of a
    directory and a leading [./] change nothing, and a path resolved
    from one directory is resolved alike from another spelling of it.
    The relation is sound and not complete (two paths can also meet
    through [..], a symbolic link or the working directory), so that only
    its positive instances are used. *)
Inductive same_directory : string -> string -> Prop :=
| same_refl (a : string) : same_directory a a
| same_sym (a b : string) : same_directory a b -> same_directory b a
| same_trans (a b c : string) :
    same_directory a b -> same_directory b c -> same_directory a c
| same_trailing_slash (a : string) :
    a <> "" -> ends_with_slash a = false -> same_directory (a ++ "/") a
| same_leading_dot (a : string) :
    a <> "" -> String.prefix "/" a = false -> same_directory ("./" ++ a) a
| same_join (a b s da db : string) :
    same_directory a b -> a <> "" -> b <> "" ->
    path_join a (JStr s) = Ok da -> path_join b (JStr s) = Ok db ->
    same_directory da db.

(** [s.encode()]: a string is held as its UTF-8 bytes already. *)
Definition str_encode (s : string) : string := s.

(** The six columns [read_encrypted_tsv] asks for. *)
Definition usecols : list string :=
  ["module_id"; "student_id"; "state"; "created"; "modified"; "done"].

(** The fields that pandas 1.5 reads as missing values of its own accord
    ([STR_NA_VALUES]); [na_values] adds to them. *)
Definition pandas_default_na : list string :=
  [""; "#N/A"; "#N/A N/A"; "#NA"; "-1.#IND"; "-1.#QNAN"; "-NaN"; "-nan";
   "1.#IND"; "1.#QNAN"; "<NA>"; "N/A"; "NA"; "NULL"; "NaN"; "n/a"; "nan";
   "null"].

(** ** The course structure read as a tree

    The vocabulary in which the properties of the extraction are stated. *)

(** The ids listed under ['children'], as a [for] loop draws them. *)
Definition children (o : json) : result (list json) :=
  (ch <- py_getitem o "children" ;; py_iter ch)%res.

Definition child_of (o c : json) : Prop :=
  exists ids, children o = Ok ids /\ In c ids.

Definition has_category (o : json) (c : string) : Prop :=
  exists cat, py_getitem o "category" = Ok cat /\ py_eq_str cat c = true.

(** [o['metadata']['display_name']]. *)
Definition display_name (o : json) : result json :=
  (m <- py_getitem o "metadata" ;; py_getitem m "display_name")%res.

(** A top-level container and whether ['graded' in desc['metadata']]. *)
Definition container (desc : json) (graded : bool) : Prop :=
  has_category desc "sequential" /\
  exists meta, py_getitem desc "metadata" = Ok meta /\
               py_contains meta "graded" = Ok graded.

(** [pid] names a problem that is a child of [vert]. *)
Definition problem_in (cs : dict) (vert : json) (pid : string) : Prop :=
  child_of vert (JStr pid) /\
  exists child, dict_get cs pid = Some child /\ has_category child "problem".

(** [pid] is a problem, grandchild of a top-level container of [cs] for
    which ['graded' in metadata] is [graded]. *)
Definition grandchild (cs : dict) (graded : bool) (pid : string) : Prop :=
  exists sid desc vid vert,
    In (sid, desc) cs /\ container desc graded /\
    child_of desc vid /\ dict_subscript cs vid = Ok vert /\
    problem_in cs vert pid.

(** What the extraction is to record under the key [hk]: the problem
    [x = (name, pid)] met as the child [cid] of [vert], ... *)
Definition from_child (cs : dict) (vert cid : json) (hk : hkey) (x : problem) : Prop :=
  cid = JStr (snd x) /\
  exists child sec,
    dict_get cs (snd x) = Some child /\ has_category child "problem" /\
    display_name child = Ok (fst x) /\
    display_name vert = Ok sec /\ py_key sec = Some hk.

(** ... among the children of the vertical [vert], ... *)
Definition from_vert (cs : dict) (vert : json) (hk : hkey) (x : problem) : Prop :=
  exists cid, child_of vert cid /\ from_child cs vert cid hk x.

Definition from_vid (cs : dict) (vid : json) (hk : hkey) (x : problem) : Prop :=
  exists vert, dict_subscript cs vid = Ok vert /\ from_vert cs vert hk x.

(** ... among the grandchildren of the ungraded container [desc], ... *)
Definition from_node (cs : dict) (desc : json) (hk : hkey) (x : problem) : Prop :=
  container desc false /\ exists vid, child_of desc vid /\ from_vid cs vid hk x.

(** ... for some node of the course structure. *)
Definition reachable (cs : dict) (hk : hkey) (x : problem) : Prop :=
  exists item, In item cs /\ from_node cs (snd item) hk x.

(** [x] is in the list that [u] holds under the key [hk]. *)
Definition recorded (u : udict) (hk : hkey) (x : problem) : Prop :=
  exists k l, In (k, l) u /\ py_key k = Some hk /\ In x l.

(** [pid] is in some list of [u]. *)
Definition extracted (u : udict) (pid : string) : Prop :=
  exists sec l name, In (sec, l) u /\ In (name, pid) l.

(** The canonical keys of [u]. *)
Definition ukeys (u : udict) : list (option hkey) :=
  map (fun e => py_key (fst e)) u.

(** The keys of the dict are hashable and distinct. *)
Definition keys_distinct (u : udict) : Prop :=
  List.NoDup (ukeys u) /\ ~ In None (ukeys u).

(** The nodes that list [c] among their children; in a tree every id has
    at most one. *)
Definition parents (cs : dict) (c : json) : list string :=
  map fst (List.filter (fun item =>
                     match children (snd item) with
                     | Ok ids => existsb (fun i => match i, c with
                                                   | JStr a, JStr b => String.eqb a b
                                                   | _, _ => false
                                                   end) ids
                     | Raise _ => false
                     end) cs).

Definition single_parent (cs : dict) : bool :=
  forallb (fun k => (length (parents cs (JStr k)) <=? 1)%nat) (dict_keys cs).

(** What each step of the extraction needs in order not to raise. *)
Definition child_ok (cs : dict) (vert cid : json) : Prop :=
  exists child cat,
    dict_subscript cs cid = Ok child /\
    py_getitem child "category" = Ok cat /\
    (py_eq_str cat "problem" = true ->
     exists sec hk name,
       display_name vert = Ok sec /\ py_key sec = Some hk /\
       display_name child = Ok name).

Definition vert_ok (cs : dict) (vid : json) : Prop :=
  exists vert ids,
    dict_subscript cs vid = Ok vert /\
    children vert = Ok ids /\ Forall (child_ok cs vert) ids.

Definition node_ok (cs : dict) (desc : json) : Prop :=
  exists cat,
    py_getitem desc "category" = Ok cat /\
    (py_eq_str cat "sequential" = true ->
     exists meta graded,
       py_getitem desc "metadata" = Ok meta /\
       py_contains meta "graded" = Ok graded /\
       (graded = false ->
        exists vids, children desc = Ok vids /\ Forall (vert_ok cs) vids)).

Definition extractable (c : json) : Prop :=
  exists cs, c = JObj cs /\ Forall (fun item => node_ok cs (snd item)) cs.

(** The precondition in the words of the specification: every node has
    the keys ['category'] and ['metadata']; every ungraded ['sequential']
    node and every vertical it references has a ['children'] list; every
    id in those lists is a key of the course structure. *)
Definition has_key (o : json) (k : string) : bool :=
  match o with
  | JObj d => existsb (fun k' => String.eqb k' k) (dict_keys d)
  | _ => false
  end.

Definition children_list (o : json) : option (list json) :=
  match o with
  | JObj d => match dict_get d "children" with
              | Some (JArr l) => Some l
              | _ => None
              end
  | _ => None
  end.

Definition is_key (cs : dict) (id : json) : bool :=
  match id with
  | JStr s => existsb (fun k' => String.eqb k' s) (dict_keys cs)
  | _ => false
  end.

Definition ungraded_sequential (desc : json) : bool :=
  match desc with
  | JObj d =>
      match dict_get d "category", dict_get d "metadata" with
      | Some cat, Some (JObj meta) =>
          py_eq_str cat "sequential" &&
          negb (existsb (fun k' => String.eqb k' "graded") (dict_keys meta))
      | _, _ => false
      end
  | _ => false
  end.

Definition vertical_as_stated (cs : dict) (vid : json) : bool :=
  is_key cs vid &&
  match dict_subscript cs vid with
  | Ok vert => match children_list vert with
               | Some ids => forallb (is_key cs) ids
               | None => false
               end
  | Raise _ => false
  end.

Definition stated_precondition (cs : dict) : bool :=
  forallb (fun item => has_key (snd item) "category" && has_key (snd item) "metadata") cs &&
  forallb (fun item =>
             if ungraded_sequential (snd item) then
               match children_list (snd item) with
               | Some vids => forallb (vertical_as_stated cs) vids
               | None => false
               end
             else true) cs.

(** ** A small course

    Two top-level containers, the second one graded; two verticals of
    the first share their display name, and so do their problems. *)

Definition node (category : string) (metadata : dict) (ids : list string) : json :=
  JObj [("category", JStr category); ("metadata", JObj metadata);
        ("children", JArr (map JStr ids))].

Definition example_course : dict :=
  [("s1", node "sequential" [("display_name", JStr "Week 1")] ["v1"; "v2"]);
   ("s2", node "sequential" [("display_name", JStr "Homework"); ("graded", JBool true)] ["v3"]);
   ("v1", node "vertical" [("display_name", JStr "Intro")] ["p1"; "h1"]);
   ("v2", node "vertical" [("display_name", JStr "Intro")] ["p2"]);
   ("v3", node "vertical" [("display_name", JStr "Quiz")] ["p3"]);
   ("p1", node "problem" [("display_name", JStr "Q1")] []);
   ("p2", node "problem" [("display_name", JStr "Q1")] []);
   ("p3", node "problem" [("display_name", JStr "Q3")] []);
   ("h1", node "html" [] [])].

Definition example_ungraded : udict :=
  [(JStr "Intro", [(JStr "Q1", "p1"); (JStr "Q1", "p2")])].

(** A course whose only problem has no display name, ... *)
Definition unnamed_course : dict :=
  [("s", node "sequential" [] ["v"]);
   ("v", node "vertical" [("display_name", JStr "Intro")] ["p"]);
   ("p", node "problem" [] [])].

(** ... a course made of a chapter without metadata, ... *)
Definition bare_course : dict :=
  [("c", JObj [("category", JStr "chapter")])].

(** ... and a course whose container lists a vertical that is not there. *)
Definition dangling_course : dict :=
  [("s", node "sequential" [] ["v"])].

(** A structure that is not a tree: the vertical is listed by an ungraded
    container and by a graded one. *)
Definition shared_course : dict :=
  [("s1", node "sequential" [] ["v"]);
   ("s2", node "sequential" [("graded", JBool true)] ["v"]);
   ("v", node "vertical" [("display_name", JStr "Intro")] ["p"]);
   ("p", node "problem" [("display_name", JStr "Q")] [])].

(** ** A small run

    Stand-ins for what is outside the repository, enough to run the
    program on the small course: the parsers know two documents by name,
    [gpg] decrypts the course structure to the first and the student
    table to the second, and the operating system refuses nothing (or
    everything). *)

Definition small_table : list string * list (list string) :=
  (["id"; "module_id"; "student_id"; "state"; "created"; "modified"; "done"],
   [["1"; "p1"; "7"; "answered"; "2014-01-01"; "2014-01-02"; "na"];
    ["2"; "p2"; "8"; "seen"; "2014-01-01"; "2014-01-03"; "d"];
    ["3"; "p1"; "9"; "seen"; "2014-01-05"; "2014-01-05"; "NULL"];
    ["4"; "p3"; "7"; "answered"; "2014-01-06"; "2014-01-06"; "na"]]).

Definition small_json_loads (s : string) : result json :=
  if String.eqb s "course" then Ok (JObj example_course)
  else if String.eqb s "answered" then
    Ok (JObj [("seed", JInt 1);
              ("student_answers", JObj [("i4x-p_2_1", JStr "choice_0")])])
  else if String.eqb s "seen" then Ok (JObj [("seed", JInt 1)])
  else Raise ValueError.

Definition small_unicode_escape (s : string) : result string := Ok s.

Definition small_csv_records (sep : ascii) (s : string)
  : result (list string * list (list string)) :=
  if Ascii.eqb sep "009"%char && String.eqb s "table" then Ok small_table
  else Raise ValueError.

Definition small_default_na : list string := [""; "NULL"; "NaN"].

Definition small_str_other (v : json) : string := "None".

Definition small_gpg (fname : string) : result string :=
  if str_contains "course_structure" fname then Ok "course"
  else if str_contains "studentmodule" fname then Ok "table"
  else Ok "".

(** [gpg] when the input files are not there: nothing on standard output. *)
Definition no_files_gpg (fname : string) : result string := Ok "".

Definition os_accepts : list event -> event -> option pyerr := fun _ _ => None.

Definition os_refuses : list event -> event -> option pyerr :=
  fun _ _ => Some OSError.

Definition fresh_world : world := {| heap := []; log := [] |}.

(** A world left by earlier work. *)
Definition used_world : world :=
  {| heap := [OFrame {| columns := ["x"]; rows := [] |}];
     log := [MakeDirs "ungraded_problems/Intro"; Print "done"] |}.

(** A course whose only container is marked [graded: false] and lists a
    vertical that is not there. *)
Definition marked_course : dict :=
  [("s", node "sequential" [("graded", JBool false)] ["v"]);
   ("c", JObj [("category", JStr "chapter")])].

(** A parser that reads that course in every document, and a tokenizer
    that finds a table of two columns. *)
Definition marked_json_loads (s : string) : result json :=
  Ok (JObj marked_course).

Definition short_csv_records (sep : ascii) (s : string)
  : result (list string * list (list string)) :=
  Ok (["module_id"; "state"], [["p1"; "answered"]]).

(** A student table with a row without state and a row whose state is
    not JSON, and an object put together by hand around a table. *)
Definition gappy_frame : frame :=
  {| columns := ["module_id"; "state"];
     rows := [(0, [JStr "p1"; JStr "answered"]);
              (1, [JStr "p2"; NaN]);
              (2, [JStr "p7"; JStr "garbage"])] |}.

Definition hand_world (u : udict) (df : frame) : world :=
  {| heap := [OInstance {| course_structure := Some (JObj example_course);
                           student_df := Some 1;
                           ungraded := Some u |};
              OFrame df];
     log := [] |}.

(** ** The program

    What the script takes from outside the repository is a parameter:
    the JSON parser, the [unicode_escape] codec, the tokenizer of
    [pandas.read_csv] with pandas' own list of missing-value markers,
    [str()] of a value that is not a string, the output of the [gpg]
    subprocess for a file name, and the verdict of the operating system on
    a request given the requests served so far. *)

Section Program.

#[local] Set Default Proof Using "Type".

Variable json_loads : string -> result json.
Variable unicode_escape : string -> result string.
Variable csv_records : ascii -> string -> result (list string * list (list string)).
Variable default_na : list string.
Variable str_other : json -> string.
Variable gpg : string -> result string.
Variable os_error : list event -> event -> option pyerr.

(** *** Primitive steps *)

Definition print (s : string) : M world unit :=
  modify (fun w => {| heap := heap w; log := (log w ++ [Print s])%list |}).

(** A request to the operating system: refused with an exception, or
    served and logged. *)
Definition request (e : event) : M world unit :=
  fun w =>
    match os_error (log w) e with
    | Some err => (Raise err, w)
    | None => (Ok tt, {| heap := heap w; log := (log w ++ [e])%list |})
    end.

Definition alloc (o : pyobj) : M world nat :=
  fun w => (Ok (length (heap w)), set_heap (heap w ++ [o])%list w).

Definition load_frame (l : nat) : M world frame :=
  fun w =>
    match nth_error (heap w) l with
    | Some (OFrame f) => (Ok f, w)
    | _ => (Raise AttributeError, w)
    end.

Definition store_frame (l : nat) (f : frame) : M world unit :=
  modify (fun w => set_heap (set_nth l (OFrame f) (heap w)) w).

Definition load_instance (self : nat) : M world instance :=
  fun w =>
    match nth_error (heap w) self with
    | Some (OInstance i) => (Ok i, w)
    | _ => (Raise AttributeError, w)
    end.

(** [self.attr]: an attribute not yet assigned is an [AttributeError]. *)
Definition getattr {A} (self : nat) (attr : instance -> option A) : M world A :=
  (i <- load_instance self ;;
   match attr i with
   | Some v => ret v
   | None => raise AttributeError
   end)%py.

(** [self.attr = v], as an update [upd] of the object. *)
Definition setattr (self : nat) (upd : instance -> instance) : M world unit :=
  (i <- load_instance self ;;
   modify (fun w => set_heap (set_nth self (OInstance (upd i)) (heap w)) w))%py.

Definition set_course_structure (v : json) (i : instance) : instance :=
  {| course_structure := Some v; student_df := student_df i; ungraded := ungraded i |}.

Definition set_student_df (l : nat) (i : instance) : instance :=
  {| course_structure := course_structure i; student_df := Some l; ungraded := ungraded i |}.

Definition set_ungraded (u : udict) (i : instance) : instance :=
  {| course_structure := course_structure i; student_df := student_df i; ungraded := Some u |}.

(** Code that works on [self.ungraded] in place. *)
Definition on_ungraded (self : nat) (m : M udict unit) : M world unit :=
  (u <- getattr self ungraded ;;
   fun w =>
     let '(r, u') := m u in
     bind (setattr self (set_ungraded u')) (fun _ => lift r) w)%py.

(** *** Reading the two inputs *)

(** [Popen(command + [fname], stdout=PIPE)] and what is read from its
    standard output. *)
Definition popen_gpg (fname : string) : M world string := lift (gpg fname).

Definition read_encrypted_json (fname : string) : M world json :=
  (print "reading JSON" ;;;
   out <- popen_gpg fname ;;
   lift (json_loads out))%py.

Definition parse_cell (na_values : list string) (field : string) : json :=
  if existsb (String.eqb field) (na_values ++ default_na)%list then NaN
  else JStr field.

(** [pd.read_csv(stream, sep, na_values=.., usecols=.., dtype=str)]: the
    columns named in [usecols] are kept, in the order of the file; every
    one of them has to be in the header; a field is kept as a string
    unless it is a missing-value marker; the index is 0, 1, 2, ...  The
    header is the one the reader works with, in which pandas has renamed
    a repeated name ([state], [state.1], ...). *)
Definition read_csv (text : string) (sep : ascii) (na_values usecols : list string)
  : result frame :=
  (tbl <- csv_records sep text ;;
   let header := fst tbl in
   let records := snd tbl in
   if forallb (fun c => existsb (String.eqb c) header) usecols then
     let keep := map (fun h => existsb (String.eqb h) usecols) header in
     Ok {| columns := select keep header;
           rows := combine (seq 0 (length records))
                     (map (fun r => select keep (map (parse_cell na_values) r))
                        records) |}
   else Raise ValueError)%res.

Definition read_encrypted_tsv (fname : string) : M world nat :=
  (print "reading TSV" ;;;
   out <- popen_gpg fname ;;
   df <- lift (read_csv out tab ["na"] usecols) ;;
   alloc (OFrame df))%py.

(** *** The class *)

Definition extract_ungraded (self : nat) : M world unit :=
  (setattr self (set_ungraded []) ;;;
   cs <- getattr self course_structure ;;
   on_ungraded self (extract_loops cs))%py.

Definition __init__ (self : nat) (database_prefix course_name : string) : M world unit :=
  (let structure_fname :=
     database_prefix ++ course_name ++ "-course_structure-prod-analytics.json.gpg" in
   cs <- read_encrypted_json structure_fname ;;
   setattr self (set_course_structure cs) ;;;
   let student_fname :=
     database_prefix ++ course_name ++ "-courseware_studentmodule-prod-analytics.sql.gpg" in
   df <- read_encrypted_tsv student_fname ;;
   setattr self (set_student_df df) ;;;
   extract_ungraded self)%py.

(** [UngradedProblems(database_prefix, course_name)]. *)
Definition UngradedProblems (database_prefix course_name : string) : M world nat :=
  (self <- alloc (OInstance {| course_structure := None; student_df := None; ungraded := None |}) ;;
   __init__ self database_prefix course_name ;;;
   ret self)%py.

(** [extract_student_answers]: [s] is a cell of the [state] column; only
    a string has [encode], and only a dict has [get]. *)
Definition extract_student_answers (s : json) : result json :=
  match s with
  | JStr s =>
      (s <- unicode_escape (str_encode s) ;;
       data <- json_loads s ;;
       match data with
       | JObj d => Ok (match dict_get d "student_answers" with
                       | Some v => v
                       | None => JObj []
                       end)
       | _ => Raise AttributeError
       end)%res
  | _ => Raise AttributeError
  end.

(** [str(v)], as [format] applies it. *)
Definition py_str (v : json) : string :=
  match v with
  | JStr s => s
  | _ => str_other v
  end.

Definition outfname (section name : json) : string :=
  "ungraded_problems/" ++ py_str section ++ "/" ++ py_str name ++ ".tsv".

(** The body of the inner loop of [write_records]. *)
Definition write_problem (self : nat) (section : json) (p : problem) : M world unit :=
  (let name := fst p in
   let pid := snd p in
   (* curr_student_rows = self.student_df.module_id == pid *)
   df <- getattr self student_df ;;
   d <- load_frame df ;;
   module_id <- lift (frame_column d "module_id") ;;
   let curr_student_rows := map (fun v => py_eq_str v pid) module_id in
   (* raw_records = self.student_df.loc[curr_student_rows]: a new frame *)
   raw_records <- alloc (OFrame (frame_loc d curr_student_rows)) ;;
   (* raw_records['student_answers'] =
        raw_records.state.apply(self.extract_student_answers) *)
   r <- load_frame raw_records ;;
   state <- lift (frame_column r "state") ;;
   answers <- lift (map_result extract_student_answers state) ;;
   store_frame raw_records (frame_setitem r "student_answers" answers) ;;;
   (* raw_records.to_csv(outfname, sep='\t') *)
   r <- load_frame raw_records ;;
   request (ToCsv (outfname section name) tab r))%py.

(** The body of the outer loop of [write_records]:
    [makedirs(path.join(base_dir, section), exist_ok=True)], then the
    inner loop. *)
Definition write_section (self : nat) (base_dir : string) (item : json * list problem)
  : M world unit :=
  (let section := fst item in
   let problems := snd item in
   dir <- lift (path_join base_dir section) ;;
   request (MakeDirs dir) ;;;
   for_each problems (write_problem self section))%py.

Definition write_records (self : nat) (base_dir : string) : M world unit :=
  (u <- getattr self ungraded ;;
   for_each u (write_section self base_dir))%py.

(** The [__main__] block. *)
Definition main : M world unit :=
  (let database_prefix := "../../database/berkeleyx-2015-02-01/" in
   let course_name := "BerkeleyX-GG101x-1T2014" in
   ungraded <- UngradedProblems database_prefix course_name ;;
   write_records ungraded "ungraded_problems")%py.

(** The table last written under each path, given the requests served. *)
Definition file_store (l : list event) : gmap string frame :=
  fold_left (fun m e => match e with
                        | ToCsv p _ f => <[p := f]> m
                        | _ => m
                        end) l ∅.

(** *** What [write_records] computes and asks for

    The steps of the loop body as functions of the student table. *)

(** [self.student_df.loc[self.student_df.module_id == pid]]. *)
Definition selection (df : frame) (pid : string) : result frame :=
  (module_id <- frame_column df "module_id" ;;
   Ok (frame_loc df (map (fun v => py_eq_str v pid) module_id)))%res.

(** [raw_records] after its ['student_answers'] column is assigned. *)
Definition answered (raw : frame) : result frame :=
  (state <- frame_column raw "state" ;;
   answers <- map_result extract_student_answers state ;;
   Ok (frame_setitem raw "student_answers" answers))%res.

Definition problem_table (df : frame) (pid : string) : result frame :=
  (raw <- selection df pid ;; answered raw)%res.

Definition problem_request (df : frame) (section : json) (p : problem) : result event :=
  (t <- problem_table df (snd p) ;;
   Ok (ToCsv (outfname section (fst p)) tab t))%res.

(** The requests of [write_records] when none is refused, up to the
    first exception of the program itself, with that exception. *)
Fixpoint plan_problems (df : frame) (section : json) (ps : list problem)
  : list event * option pyerr :=
  match ps with
  | [] => ([], None)
  | p :: ps' =>
      match problem_request df section p with
      | Raise e => ([], Some e)
      | Ok ev => let '(evs, r) := plan_problems df section ps' in (ev :: evs, r)
      end
  end.

Fixpoint plan_sections (df : frame) (base_dir : string) (u : udict)
  : list event * option pyerr :=
  match u with
  | [] => ([], None)
  | item :: u' =>
      match path_join base_dir (fst item) with
      | Raise e => ([], Some e)
      | Ok dir =>
          match plan_problems df (fst item) (snd item) with
          | (evs, Some e) => (MakeDirs dir :: evs, Some e)
          | (evs, None) =>
              let '(evs', r) := plan_sections df base_dir u' in
              (MakeDirs dir :: evs ++ evs', r)%list
          end
      end
  end.

(** The object [self] of the world [w] has been constructed, with
    [self.ungraded] equal to [u] and [self.student_df] holding [df]. *)
Definition constructed (w : world) (self : nat) (u : udict) (df : frame) : Prop :=
  exists inst l,
    nth_error (heap w) self = Some (OInstance inst) /\
    ungraded inst = Some u /\ student_df inst = Some l /\
    nth_error (heap w) l = Some (OFrame df).

(** What the constructor reads and computes. *)
Definition structure_fname (database_prefix course_name : string) : string :=
  database_prefix ++ course_name ++ "-course_structure-prod-analytics.json.gpg".

Definition student_fname (database_prefix course_name : string) : string :=
  database_prefix ++ course_name ++ "-courseware_studentmodule-prod-analytics.sql.gpg".

Definition loaded (database_prefix course_name : string)
  : result (json * frame * udict) :=
  (out <- gpg (structure_fname database_prefix course_name) ;;
   cs <- json_loads out ;;
   out' <- gpg (student_fname database_prefix course_name) ;;
   df <- read_csv out' tab ["na"] usecols ;;
   u <- ungraded_of cs ;;
   Ok (cs, df, u))%res.

(** The tables written, with their paths, among a list of requests. *)
Fixpoint writes (evs : list event) : list (string * frame) :=
  match evs with
  | [] => []
  | ToCsv p _ f :: evs' => (p, f) :: writes evs'
  | _ :: evs' => writes evs'
  end.

(** The directories asked for among a list of requests. *)
Fixpoint made_dirs (evs : list event) : list string :=
  match evs with
  | [] => []
  | MakeDirs p :: evs' => p :: made_dirs evs'
  | _ :: evs' => made_dirs evs'
  end.

(** The problems of [u], each with its section, in the order of the loops. *)
Definition problems_of (u : udict) : list (json * problem) :=
  flat_map (fun item => map (fun p => (fst item, p)) (snd item)) u.

(** A row of the student table is about the module [pid]. *)
Definition about (df : frame) (pid : string) (r : nat * list json) : bool :=
  match col_index "module_id" (columns df) with
  | Some i => py_eq_str (nth i (snd r) NaN) pid
  | None => false
  end.

Definition is_prefix {A} (l full : list A) : Prop :=
  exists rest, full = (l ++ rest)%list.

(** The requests served in a run are the first ones of the plan, and
    all of it when the run returns. *)
Definition follows_plan (w w' : world) (r : result unit)
  (plan : list event * option pyerr) : Prop :=
  (exists extra, heap w' = (heap w ++ extra)%list) /\
  exists evs, log w' = (log w ++ evs)%list /\
              is_prefix evs (fst plan) /\
              (r = Ok tt -> evs = fst plan /\ snd plan = None).

(** [vert] is a vertical that [extract_ungraded] passes to
    [add_from_vert]. *)
Definition visited (cs : dict) (vert : json) : Prop :=
  exists item vid,
    In item cs /\ container (snd item) false /\
    child_of (snd item) vid /\ dict_subscript cs vid = Ok vert.

(** The table of the last request among [evs] that writes to [p]. *)
Fixpoint last_write (p : string) (evs : list event) : option frame :=
  match evs with
  | [] => None
  | ToCsv q _ f :: evs' =>
      match last_write p evs' with
      | Some t => Some t
      | None => if String.eqb q p then Some f else None
      end
  | _ :: evs' => last_write p evs'
  end.

(** *** The walk of the extraction as a list

    What the loops of [extract_ungraded] meet, in their order: the
    vertical's display name and the problem, once per time a problem is
    listed.  Where a step of the loops would raise, the list has nothing;
    the properties that use it are about runs that return. *)

Definition is_category (o : json) (c : string) : bool :=
  match py_getitem o "category" with
  | Ok cat => py_eq_str cat c
  | Raise _ => false
  end.

Definition listed (o : json) : list json :=
  match children o with
  | Ok ids => ids
  | Raise _ => []
  end.

Definition child_entries (cs : dict) (vert cid : json) : list (json * problem) :=
  match cid with
  | JStr pid =>
      match dict_get cs pid with
      | Some child =>
          if is_category child "problem" then
            match display_name vert, display_name child with
            | Ok sec, Ok name => [(sec, (name, pid))]
            | _, _ => []
            end
          else []
      | None => []
      end
  | _ => []
  end.

Definition vert_entries (cs : dict) (vid : json) : list (json * problem) :=
  match dict_subscript cs vid with
  | Ok vert => flat_map (child_entries cs vert) (listed vert)
  | Raise _ => []
  end.

Definition is_ungraded_container (desc : json) : bool :=
  is_category desc "sequential" &&
  match py_getitem desc "metadata" with
  | Ok meta => match py_contains meta "graded" with
               | Ok graded => negb graded
               | Raise _ => false
               end
  | Raise _ => false
  end.

Definition node_entries (cs : dict) (item : string * json) : list (json * problem) :=
  if is_ungraded_container (snd item)
  then flat_map (vert_entries cs) (listed (snd item))
  else [].

Definition walk (cs : dict) : list (json * problem) :=
  flat_map (node_entries cs) cs.

(** [u.setdefault(sec, []).append(x)] for an entry [(sec, x)] of the walk. *)
Definition record (u : udict) (e : json * problem) : udict :=
  match py_key (fst e) with
  | Some hk => append_at hk (snd e) (setdefault hk (fst e) u)
  | None => u
  end.

(** [u.get(k)] for a key of canonical form [hk]. *)
Fixpoint ulookup (hk : hkey) (u : udict) : option (list problem) :=
  match u with
  | [] => None
  | (k', l) :: u' => if same_key hk k' then Some l else ulookup hk u'
  end.

(** The problems that the walk [es] meets under the section [hk]. *)
Definition under_section (hk : hkey) (es : list (json * problem)) : list problem :=
  map snd (List.filter (fun e => same_key hk (fst e)) es).

(** A sequential node that the extraction skips: its metadata is a dict
    with the key ['graded'], whatever the value. *)
Definition marked_graded (desc : json) : Prop :=
  exists d v, py_getitem desc "metadata" = Ok (JObj d) /\ dict_get d "graded" = Some v.

(** The state cell [v] of a selected row is one that
    [extract_student_answers] accepts. *)
Definition state_parses (v : json) : Prop :=
  exists s txt d,
    v = JStr s /\ unicode_escape (str_encode s) = Ok txt /\
    json_loads txt = Ok (JObj d).

(** Every row of [df] about the problem [pid] has such a state, in the
    column at position [j]. *)
Definition problem_parses (df : frame) (j : nat) (pid : string) : Prop :=
  forall r, In r (rows df) -> about df pid r = true -> state_parses (nth j (snd r) NaN).

(** The section is a string and all its problems parse. *)
Definition section_writes (df : frame) (j : nat) (item : json * list problem) : Prop :=
  (exists s, fst item = JStr s) /\
  forall p, In p (snd item) -> problem_parses df j (snd p).

(** ** Properties *)

(** A proof that is about the extraction or about lists only does not
    need what the program takes from outside. *)
Ltac standalone :=
  try clear os_error; try clear gpg; try clear str_other; try clear default_na;
  try clear csv_records; try clear unicode_escape; try clear json_loads.

(** *** Running monadic code *)

Lemma bind_lift {S A B} (r : result A) (k : A -> M S B) (s : S) :
  bind (lift r) k s = match r with
                      | Ok a => k a s
                      | Raise e => (Raise e, s)
                      end.
Proof. unfold bind, lift. destruct r; reflexivity. Qed.

Lemma bind_modify {S B} (f : S -> S) (k : unit -> M S B) (s : S) :
  bind (modify f) k s = k tt (f s).
Proof. reflexivity. Qed.

Lemma bind_inv {S A B} (m : M S A) (k : A -> M S B) s r s' :
  bind m k s = (r, s') ->
  (exists a s1, m s = (Ok a, s1) /\ k a s1 = (r, s')) \/
  (exists e, m s = (Raise e, s') /\ r = Raise e).
Proof.
  unfold bind. destruct (m s) as [[a|e] s1]; intros H.
  - left. eauto.
  - right. inversion H; subst. eauto.
Qed.

Lemma bind_ok_inv {S A B} (m : M S A) (k : A -> M S B) s b s' :
  bind m k s = (Ok b, s') ->
  exists a s1, m s = (Ok a, s1) /\ k a s1 = (Ok b, s').
Proof.
  intros H. apply bind_inv in H as [H | (e & _ & H)]; [exact H | discriminate].
Qed.

Lemma for_each_cons {A S} (x : A) l (body : A -> M S unit) s :
  for_each (x :: l) body s = bind (body x) (fun _ => for_each l body) s.
Proof. reflexivity. Qed.

(** A property of the state kept by every iteration, whatever its
    outcome, is kept by the loop. *)
Lemma for_each_inv {A S} (P : S -> Prop) (l : list A) (body : A -> M S unit) :
  (forall x s r s', In x l -> P s -> body x s = (r, s') -> P s') ->
  forall s r s', P s -> for_each l body s = (r, s') -> P s'.
Proof.
  induction l as [|x l IH]; intros Hb s r s' Hs H.
  - inversion H; subst. exact Hs.
  - rewrite for_each_cons in H.
    apply bind_inv in H as [(a & s1 & H1 & H2) | (e & H1 & _)].
    + apply (IH (fun y t q t' Hy => Hb y t q t' (or_intror Hy)) s1 r s');
        [| exact H2].
      exact (Hb x s (Ok a) s1 (or_introl eq_refl) Hs H1).
    + exact (Hb x s (Raise e) s' (or_introl eq_refl) Hs H1).
Qed.

(** When whether an iteration raises does not depend on the state, the
    loop returns exactly when every iteration does. *)
Lemma for_each_ok_iff {A S} (Q : A -> Prop) (l : list A) (body : A -> M S unit) :
  (forall x s, In x l -> (exists s', body x s = (Ok tt, s')) <-> Q x) ->
  forall s, (exists s', for_each l body s = (Ok tt, s')) <-> Forall Q l.
Proof.
  induction l as [|x l IH]; intros Hb s.
  - split; [constructor | intros _; exists s; reflexivity].
  - assert (Hl : forall y t, In y l -> (exists t', body y t = (Ok tt, t')) <-> Q y)
      by (intros y t Hy; apply Hb; right; exact Hy).
    rewrite for_each_cons. split.
    + intros [s' H]. apply bind_ok_inv in H as ([] & s1 & H1 & H2).
      constructor.
      * apply (Hb x s (or_introl eq_refl)). eauto.
      * apply (IH Hl s1). eauto.
    + intros H. inversion H as [|? ? Hx Hrest]; subst.
      apply (Hb x s (or_introl eq_refl)) in Hx as [s1 H1].
      apply (IH Hl s1) in Hrest as [s' H2].
      exists s'. unfold bind. rewrite H1. exact H2.
Qed.

(** When every iteration that returns adds to the state what [C] says,
    the loop that returns has added what [C] says of its items. *)
Lemma for_each_adds {A S Z} (rec : S -> Z -> Prop) (C : A -> Z -> Prop)
  (l : list A) (body : A -> M S unit) :
  (forall x s s', In x l -> body x s = (Ok tt, s') ->
                  forall z, rec s' z <-> rec s z \/ C x z) ->
  forall s s', for_each l body s = (Ok tt, s') ->
               forall z, rec s' z <-> rec s z \/ exists x, In x l /\ C x z.
Proof.
  induction l as [|x l IH]; intros Hb s s' H z.
  - inversion H; subst. split; [tauto | intros [Hz | (x & [] & _)]; exact Hz].
  - rewrite for_each_cons in H. apply bind_ok_inv in H as ([] & s1 & H1 & H2).
    rewrite (IH (fun y t t' Hy => Hb y t t' (or_intror Hy)) s1 s' H2 z).
    rewrite (Hb x s s1 (or_introl eq_refl) H1 z).
    split.
    + intros [[Hz | Hx] | (y & Hy & Hc)]; [tauto | right | right].
      * exists x. split; [left; reflexivity | exact Hx].
      * exists y. split; [right; exact Hy | exact Hc].
    + intros [Hz | (y & [-> | Hy] & Hc)]; [tauto | tauto |].
      right. exists y. tauto.
Qed.


(** *** Keys and the dict of sections *)

Lemma hkey_eqb_eq (a b : hkey) : hkey_eqb a b = true <-> a = b.
Proof.
  destruct a, b; simpl; split; intros H;
    try discriminate; try reflexivity.
  - apply Z.eqb_eq in H. congruence.
  - inversion H. apply Z.eqb_refl.
  - apply FloatAxioms.Leibniz.eqb_spec in H. congruence.
  - inversion H. apply FloatAxioms.Leibniz.eqb_spec. reflexivity.
  - apply String.eqb_eq in H. congruence.
  - inversion H. apply String.eqb_refl.
Qed.

Lemma same_key_eq (hk : hkey) (k : json) :
  same_key hk k = true <-> py_key k = Some hk.
Proof.
  unfold same_key. destruct (py_key k) as [k'|].
  - rewrite hkey_eqb_eq. split; congruence.
  - split; discriminate.
Qed.

Lemma same_key_false (hk : hkey) (k : json) :
  same_key hk k = false <-> py_key k <> Some hk.
Proof.
  rewrite <- same_key_eq. destruct (same_key hk k); split; congruence.
Qed.

(** [setdefault] adds no problem. *)
Lemma recorded_setdefault hk k u hk' x :
  recorded (setdefault hk k u) hk' x <-> recorded u hk' x.
Proof.
  standalone.
  unfold recorded. induction u as [|[k0 l0] u IH]; simpl.
  - split.
    + intros (k1 & l1 & [H | []] & _ & Hx). inversion H; subst. destruct Hx.
    + intros (k1 & l1 & [] & _).
  - destruct (same_key hk k0); [reflexivity |].
    split.
    + intros (k1 & l1 & [H | H] & Hk & Hx).
      * exists k1, l1. simpl; intuition auto.
      * destruct (proj1 IH) as (k2 & l2 & H2 & Hk2 & Hx2); [eauto |].
        exists k2, l2. simpl; intuition auto.
    + intros (k1 & l1 & [H | H] & Hk & Hx).
      * exists k1, l1. simpl; intuition auto.
      * destruct (proj2 IH) as (k2 & l2 & H2 & Hk2 & Hx2); [eauto |].
        exists k2, l2. simpl; intuition auto.
Qed.

Lemma setdefault_has hk k u :
  py_key k = Some hk ->
  exists k' l, In (k', l) (setdefault hk k u) /\ py_key k' = Some hk.
Proof.
  standalone.
  intros Hk. induction u as [|[k0 l0] u IH]; simpl.
  - exists k, []. simpl; intuition auto.
  - destruct (same_key hk k0) eqn:E.
    + exists k0, l0. split; [left; reflexivity | apply same_key_eq; exact E].
    + destruct IH as (k' & l & Hin & Hk'). exists k', l. simpl; intuition auto.
Qed.

(** [append] adds its argument to the list of the key, and nothing else. *)
Lemma recorded_append_at hk x u hk' y :
  (exists k l, In (k, l) u /\ py_key k = Some hk) ->
  recorded (append_at hk x u) hk' y <-> recorded u hk' y \/ (hk' = hk /\ y = x).
Proof.
  standalone.
  unfold recorded. induction u as [|[k0 l0] u IH]; simpl; intros Hhas.
  - destruct Hhas as (? & ? & [] & _).
  - destruct (same_key hk k0) eqn:E.
    + apply same_key_eq in E. split.
      * intros (k1 & l1 & [H | H] & Hk & Hy).
        -- inversion H; subst. apply in_app_or in Hy as [Hy | [<- | []]].
           ++ left. exists k1, l0. simpl; intuition auto.
           ++ right. split; congruence.
        -- left. exists k1, l1. simpl; intuition auto.
      * intros [(k1 & l1 & [H | H] & Hk & Hy) | [-> ->]].
        -- inversion H; subst. exists k1, (l1 ++ [x])%list.
           split; [left; reflexivity | split; [exact Hk | apply in_or_app; auto]].
        -- exists k1, l1. simpl; intuition auto.
        -- exists k0, (l0 ++ [x])%list.
           split; [left; reflexivity | split; [exact E | apply in_or_app; simpl; auto]].
    + apply same_key_false in E.
      assert (Hu : exists k l, In (k, l) u /\ py_key k = Some hk).
      { destruct Hhas as (k1 & l1 & [H | H] & Hk); [| eauto].
        inversion H; subst. contradiction. }
      specialize (IH Hu). split.
      * intros (k1 & l1 & [H | H] & Hk & Hy).
        -- left. exists k1, l1. simpl; intuition auto.
        -- destruct (proj1 IH) as [(k2 & l2 & ? & ? & ?) | ?]; [eauto | | auto].
           left. exists k2, l2. simpl; intuition auto.
      * intros [(k1 & l1 & [H | H] & Hk & Hy) | Heq].
        -- exists k1, l1. simpl; intuition auto.
        -- destruct (proj2 IH) as (k2 & l2 & ? & ? & ?); [left; eauto |].
           exists k2, l2. simpl; intuition auto.
        -- destruct (proj2 IH) as (k2 & l2 & ? & ? & ?); [right; exact Heq |].
           exists k2, l2. simpl; intuition auto.
Qed.

Lemma ukeys_append_at hk x u : ukeys (append_at hk x u) = ukeys u.
Proof.
  unfold ukeys. induction u as [|[k0 l0] u IH]; simpl; [reflexivity |].
  destruct (same_key hk k0); simpl; [reflexivity | rewrite IH; reflexivity].
Qed.

Lemma ukeys_setdefault hk k u :
  py_key k = Some hk ->
  ukeys (setdefault hk k u) = ukeys u \/
  (~ In (Some hk) (ukeys u) /\ ukeys (setdefault hk k u) = (ukeys u ++ [Some hk])%list).
Proof.
  intros Hk. unfold ukeys. induction u as [|[k0 l0] u IH]; simpl.
  - right. rewrite Hk. auto.
  - destruct (same_key hk k0) eqn:E; [left; reflexivity |].
    apply same_key_false in E.
    destruct IH as [IH | [Hn IH]]; simpl; rewrite IH; [left; reflexivity |].
    right. split; [| reflexivity]. intros [H | H]; [congruence | contradiction].
Qed.

Lemma keys_distinct_setdefault hk k u :
  py_key k = Some hk -> keys_distinct u -> keys_distinct (setdefault hk k u).
Proof.
  intros Hk [Hnd Hn]. unfold keys_distinct.
  destruct (ukeys_setdefault hk k u Hk) as [-> | [Hfresh ->]]; [auto |].
  split.
  - apply List.NoDup_app; [exact Hnd | |].
    + constructor; [intros [] | constructor].
    + intros o Ho [<- | []]. exact (Hfresh Ho).
  - intros H. apply in_app_or in H as [H | [H | []]]; [auto | discriminate].
Qed.


(** *** The steps of the extraction *)

Lemma dict_subscript_ok (cs : dict) (k v : json) :
  dict_subscript cs k = Ok v <->
  exists s, k = JStr s /\ dict_get cs s = Some v.
Proof.
  split.
  - destruct k; simpl; try discriminate.
    destruct (dict_get cs s) eqn:E; [| discriminate].
    intros H. inversion H; subst. eauto.
  - intros (s & -> & H). simpl. rewrite H. reflexivity.
Qed.

Lemma dict_get_In (d : dict) (k : string) (v : json) :
  dict_get d k = Some v -> In (k, v) d.
Proof.
  induction d as [|[k0 v0] d IH]; simpl; [discriminate |].
  destruct (String.eqb k0 k) eqn:E.
  - apply String.eqb_eq in E. intros H. inversion H; subst. left. reflexivity.
  - intros H. right. exact (IH H).
Qed.

(** [add_child], step by step. *)
Lemma add_child_eq (cs : dict) (vert cid : json) (u : udict) :
  add_child cs vert cid u =
  match dict_subscript cs cid with
  | Raise e => (Raise e, u)
  | Ok child =>
      match py_getitem child "category" with
      | Raise e => (Raise e, u)
      | Ok cat =>
          if py_eq_str cat "problem" then
            match display_name vert with
            | Raise e => (Raise e, u)
            | Ok sec =>
                match py_key sec with
                | None => (Raise TypeError, u)
                | Some hk =>
                    match display_name child with
                    | Raise e => (Raise e, setdefault hk sec u)
                    | Ok name =>
                        match cid with
                        | JStr pid =>
                            (Ok tt, append_at hk (name, pid) (setdefault hk sec u))
                        | _ => (Raise KeyError, setdefault hk sec u)
                        end
                    end
                end
            end
          else (Ok tt, u)
      end
  end.
Proof.
  unfold add_child, display_name. rewrite bind_lift.
  destruct (dict_subscript cs cid) as [child|e]; [| reflexivity].
  rewrite bind_lift.
  destruct (py_getitem child "category") as [cat|e]; [| reflexivity].
  destruct (py_eq_str cat "problem"); [| reflexivity].
  rewrite bind_lift.
  destruct (py_getitem vert "metadata") as [vmeta|e]; [| reflexivity].
  simpl rbind. rewrite bind_lift.
  destruct (py_getitem vmeta "display_name") as [sec|e]; [| reflexivity].
  destruct (py_key sec) as [hk|]; [| reflexivity].
  rewrite bind_modify, bind_lift.
  destruct (py_getitem child "metadata") as [cmeta|e]; [| reflexivity].
  simpl rbind. rewrite bind_lift.
  destruct (py_getitem cmeta "display_name") as [name|e]; [| reflexivity].
  destruct cid; reflexivity.
Qed.

Lemma add_from_vert_eq (cs : dict) (vert : json) (u : udict) :
  add_from_vert cs vert u =
  match children vert with
  | Raise e => (Raise e, u)
  | Ok ids => for_each ids (add_child cs vert) u
  end.
Proof.
  unfold add_from_vert, children. rewrite bind_lift.
  destruct (py_getitem vert "children") as [ch|e]; [| reflexivity].
  simpl rbind. rewrite bind_lift. destruct (py_iter ch); reflexivity.
Qed.

Lemma add_from_vid_eq (cs : dict) (vid : json) (u : udict) :
  add_from_vid cs vid u =
  match dict_subscript cs vid with
  | Raise e => (Raise e, u)
  | Ok vert => add_from_vert cs vert u
  end.
Proof.
  unfold add_from_vid. rewrite bind_lift. reflexivity.
Qed.

Lemma visit_node_eq (cs : dict) (item : string * json) (u : udict) :
  visit_node cs item u =
  match py_getitem (snd item) "category" with
  | Raise e => (Raise e, u)
  | Ok cat =>
      if py_eq_str cat "sequential" then
        match py_getitem (snd item) "metadata" with
        | Raise e => (Raise e, u)
        | Ok meta =>
            match py_contains meta "graded" with
            | Raise e => (Raise e, u)
            | Ok graded =>
                if graded then (Ok tt, u)
                else match children (snd item) with
                     | Raise e => (Raise e, u)
                     | Ok vids => for_each vids (add_from_vid cs) u
                     end
            end
        end
      else (Ok tt, u)
  end.
Proof.
  unfold visit_node, children. cbv zeta. rewrite bind_lift.
  destruct (py_getitem (snd item) "category") as [cat|e]; [| reflexivity].
  destruct (py_eq_str cat "sequential"); [| reflexivity].
  rewrite bind_lift.
  destruct (py_getitem (snd item) "metadata") as [meta|e]; [| reflexivity].
  rewrite bind_lift.
  destruct (py_contains meta "graded") as [[|]|e]; try reflexivity.
  change (negb false) with true. cbv iota. rewrite bind_lift.
  destruct (py_getitem (snd item) "children") as [ch|e]; [| reflexivity].
  simpl rbind. rewrite bind_lift. destruct (py_iter ch); reflexivity.
Qed.

(** **** When the extraction returns *)

Lemma add_child_ok_iff (cs : dict) (vert cid : json) (u : udict) :
  (exists u', add_child cs vert cid u = (Ok tt, u')) <-> child_ok cs vert cid.
Proof.
  rewrite add_child_eq. unfold child_ok.
  destruct (dict_subscript cs cid) as [child|e] eqn:Hc.
  2:{ split; [intros [? H]; discriminate | intros (? & ? & H & _); discriminate]. }
  destruct (py_getitem child "category") as [cat|e] eqn:Hcat.
  2:{ split; [intros [? H]; discriminate |].
      intros (? & ? & H1 & H2 & _). inversion H1; subst. congruence. }
  destruct (py_eq_str cat "problem") eqn:Hp.
  2:{ split; [| eauto]. intros _. exists child, cat.
      repeat split; auto. intros; congruence. }
  split.
  - intros [u' H]. exists child, cat. repeat split; auto. intros _.
    destruct (display_name vert) as [sec|]; [| discriminate].
    destruct (py_key sec) as [hk|] eqn:Hk; [| discriminate].
    destruct (display_name child) as [name|]; [| discriminate].
    exists sec, hk, name. auto.
  - intros (child' & cat' & H1 & H2 & H3).
    inversion H1; subst child'. rewrite Hcat in H2. inversion H2; subst cat'.
    destruct (H3 Hp) as (sec & hk & name & -> & -> & ->).
    apply dict_subscript_ok in Hc as (pid & -> & _). eauto.
Qed.

Lemma add_from_vid_ok_iff (cs : dict) (vid : json) (u : udict) :
  (exists u', add_from_vid cs vid u = (Ok tt, u')) <-> vert_ok cs vid.
Proof.
  rewrite add_from_vid_eq. unfold vert_ok.
  destruct (dict_subscript cs vid) as [vert|e] eqn:Hv.
  2:{ split; [intros [? H]; discriminate | intros (? & ? & H & _); discriminate]. }
  rewrite add_from_vert_eq.
  destruct (children vert) as [ids|e] eqn:Hids.
  2:{ split; [intros [? H]; discriminate |].
      intros (? & ? & H1 & H2 & _). inversion H1; subst. congruence. }
  rewrite (for_each_ok_iff (child_ok cs vert) ids (add_child cs vert)
             (fun x s _ => add_child_ok_iff cs vert x s) u).
  split.
  - intros H. exists vert, ids. auto.
  - intros (vert' & ids' & H1 & H2 & H3).
    inversion H1; subst vert'. rewrite Hids in H2. inversion H2; subst. exact H3.
Qed.

Lemma visit_node_ok_iff (cs : dict) (item : string * json) (u : udict) :
  (exists u', visit_node cs item u = (Ok tt, u')) <-> node_ok cs (snd item).
Proof.
  rewrite visit_node_eq. unfold node_ok.
  destruct (py_getitem (snd item) "category") as [cat|e] eqn:Hcat.
  2:{ split; [intros [? H]; discriminate | intros (? & H & _); discriminate]. }
  destruct (py_eq_str cat "sequential") eqn:Hs.
  2:{ split; [| eauto]. intros _. exists cat. split; auto. intros; congruence. }
  destruct (py_getitem (snd item) "metadata") as [meta|e] eqn:Hm.
  2:{ split; [intros [? H]; discriminate |].
      intros (cat' & H1 & H2). inversion H1; subst cat'.
      destruct (H2 Hs) as (? & ? & H & _). discriminate. }
  destruct (py_contains meta "graded") as [graded|e] eqn:Hg.
  2:{ split; [intros [? H]; discriminate |].
      intros (cat' & H1 & H2). inversion H1; subst cat'.
      destruct (H2 Hs) as (? & ? & H & H' & _). inversion H; subst. congruence. }
  destruct graded.
  { split; [| eauto]. intros _. exists cat. split; auto. intros _.
    exists meta, true. repeat split; auto. discriminate. }
  destruct (children (snd item)) as [vids|e] eqn:Hv.
  2:{ split; [intros [? H]; discriminate |].
      intros (cat' & H1 & H2). inversion H1; subst cat'.
      destruct (H2 Hs) as (meta' & g & H & H' & H'').
      inversion H; subst meta'. rewrite Hg in H'. inversion H'; subst g.
      destruct (H'' eq_refl) as (? & ? & _). discriminate. }
  rewrite (for_each_ok_iff (vert_ok cs) vids (add_from_vid cs)
             (fun x s _ => add_from_vid_ok_iff cs x s) u).
  split.
  - intros H. exists cat. split; auto. intros _. exists meta, false.
    repeat split; auto. intros _. exists vids. auto.
  - intros (cat' & H1 & H2). inversion H1; subst cat'.
    destruct (H2 Hs) as (meta' & g & H & H' & H'').
    inversion H; subst meta'. rewrite Hg in H'. inversion H'; subst g.
    destruct (H'' eq_refl) as (vids' & Hv' & HF). inversion Hv'; subst. exact HF.
Qed.

(** The extraction returns exactly on the course structures that are
    [extractable]. *)
Lemma ungraded_of_ok_iff (c : json) :
  (exists u, ungraded_of c = Ok u) <-> extractable c.
Proof.
  unfold ungraded_of, extractable, extract_loops.
  destruct c as [| | | | |l|cs];
    try (split; [intros [? H]; discriminate | intros (? & H & _); discriminate]).
  pose proof (for_each_ok_iff (fun item => node_ok cs (snd item)) cs (visit_node cs)
                (fun x s _ => visit_node_ok_iff cs x s) []) as H.
  split.
  - intros [u Hu]. exists cs. split; [reflexivity |]. apply H.
    destruct (for_each cs (visit_node cs) []) as [[[]|e] u']; [eauto | discriminate].
  - intros (cs' & Heq & HF). inversion Heq; subst cs'.
    apply H in HF as [u' Hu']. rewrite Hu'. eauto.
Qed.


(** **** What the extraction records *)

Lemma add_child_adds (cs : dict) (vert cid : json) (u u' : udict) :
  add_child cs vert cid u = (Ok tt, u') ->
  forall z : hkey * problem,
    recorded u' (fst z) (snd z) <->
    recorded u (fst z) (snd z) \/ from_child cs vert cid (fst z) (snd z).
Proof.
  standalone.
  rewrite add_child_eq. unfold from_child. intros H [hk' [name' pid']]. simpl.
  destruct (dict_subscript cs cid) as [child|e] eqn:Hc; [| discriminate].
  destruct (py_getitem child "category") as [cat|e] eqn:Hcat; [| discriminate].
  apply dict_subscript_ok in Hc as (pid & -> & Hget).
  destruct (py_eq_str cat "problem") eqn:Hp.
  - destruct (display_name vert) as [sec|] eqn:Hsec; [| discriminate].
    destruct (py_key sec) as [hk|] eqn:Hk; [| discriminate].
    destruct (display_name child) as [name|] eqn:Hname; [| discriminate].
    inversion H; subst u'; clear H.
    rewrite recorded_append_at by (apply setdefault_has; exact Hk).
    rewrite recorded_setdefault.
    split; (intros [Hr | Hn]; [left; exact Hr | right]).
    + destruct Hn as [-> Heq]. inversion Heq; subst.
      split; [reflexivity |]. exists child, sec.
      repeat split; auto. exists cat. auto.
    + destruct Hn as (Heq & child' & sec' & Hget' & _ & Hname' & Hsec' & Hk').
      inversion Heq; subst pid'. rewrite Hget in Hget'. inversion Hget'; subst child'.
      rewrite Hname in Hname'. inversion Hname'; subst name'.
      inversion Hsec'; subst sec'. rewrite Hk in Hk'. inversion Hk'; subst hk'.
      auto.
  - inversion H; subst u'; clear H. split; [tauto |].
    intros [Hr | (Heq & child' & sec' & Hget' & (cat' & Hcat' & Hp') & _)]; [exact Hr |].
    inversion Heq; subst pid'. rewrite Hget in Hget'. inversion Hget'; subst child'.
    rewrite Hcat in Hcat'. inversion Hcat'; subst cat'. congruence.
Qed.

Lemma add_from_vid_adds (cs : dict) (vid : json) (u u' : udict) :
  add_from_vid cs vid u = (Ok tt, u') ->
  forall z : hkey * problem,
    recorded u' (fst z) (snd z) <->
    recorded u (fst z) (snd z) \/ from_vid cs vid (fst z) (snd z).
Proof.
  rewrite add_from_vid_eq. unfold from_vid, from_vert, child_of. intros H z.
  destruct (dict_subscript cs vid) as [vert|e] eqn:Hv; [| discriminate].
  rewrite add_from_vert_eq in H.
  destruct (children vert) as [ids|e] eqn:Hids; [| discriminate].
  rewrite (for_each_adds (fun u z => recorded u (fst z) (snd z))
             (fun cid z => from_child cs vert cid (fst z) (snd z))
             ids (add_child cs vert)
             (fun x s s' _ Hx => add_child_adds cs vert x s s' Hx) u u' H z).
  split; (intros [Hr | Hn]; [left; exact Hr | right]).
  - destruct Hn as (cid & Hin & Hc). exists vert. split; [reflexivity |].
    exists cid. split; [exists ids; auto | exact Hc].
  - destruct Hn as (vert' & Heq & cid & (ids' & Hids' & Hin) & Hc).
    inversion Heq; subst vert'. rewrite Hids in Hids'. inversion Hids'; subst ids'.
    exists cid. auto.
Qed.

Lemma visit_node_adds (cs : dict) (item : string * json) (u u' : udict) :
  visit_node cs item u = (Ok tt, u') ->
  forall z : hkey * problem,
    recorded u' (fst z) (snd z) <->
    recorded u (fst z) (snd z) \/ from_node cs (snd item) (fst z) (snd z).
Proof.
  standalone.
  rewrite visit_node_eq. unfold from_node, container, has_category, child_of.
  intros H z.
  destruct (py_getitem (snd item) "category") as [cat|e] eqn:Hcat; [| discriminate].
  destruct (py_eq_str cat "sequential") eqn:Hs.
  2:{ inversion H; subst u'. split; [tauto |].
      intros [Hr | [[(cat' & Hcat' & Hs') _] _]]; [exact Hr |].
      inversion Hcat'; subst cat'. congruence. }
  destruct (py_getitem (snd item) "metadata") as [meta|e] eqn:Hm; [| discriminate].
  destruct (py_contains meta "graded") as [graded|e] eqn:Hg; [| discriminate].
  destruct graded.
  { inversion H; subst u'. split; [tauto |].
    intros [Hr | [[_ (meta' & Hm' & Hg')] _]]; [exact Hr |].
    inversion Hm'; subst meta'. congruence. }
  destruct (children (snd item)) as [vids|e] eqn:Hv; [| discriminate].
  rewrite (for_each_adds (fun u z => recorded u (fst z) (snd z))
             (fun vid z => from_vid cs vid (fst z) (snd z))
             vids (add_from_vid cs)
             (fun x s s' _ Hx => add_from_vid_adds cs x s s' Hx) u u' H z).
  split; (intros [Hr | Hn]; [left; exact Hr | right]).
  - destruct Hn as (vid & Hin & Hf). split.
    + split; [exists cat; auto | exists meta; auto].
    + exists vid. split; [exists vids; auto | exact Hf].
  - destruct Hn as [_ (vid & (vids' & Hv' & Hin) & Hf)].
    inversion Hv'; subst vids'. exists vid. auto.
Qed.

(** A problem is in the list of a key exactly when the walk reaches it
    through a vertical with that key. *)
Lemma ungraded_of_recorded (cs : dict) (u : udict) :
  ungraded_of (JObj cs) = Ok u ->
  forall hk x, recorded u hk x <-> reachable cs hk x.
Proof.
  unfold ungraded_of, extract_loops, reachable. intros H hk x.
  destruct (for_each cs (visit_node cs) []) as [[[]|e] u'] eqn:E; [| discriminate].
  inversion H; subst u'; clear H.
  rewrite (for_each_adds (fun u z => recorded u (fst z) (snd z))
             (fun item z => from_node cs (snd item) (fst z) (snd z))
             cs (visit_node cs)
             (fun x s s' _ Hx => visit_node_adds cs x s s' Hx) [] u E (hk, x)).
  simpl. split; [| auto].
  intros [(k & l & [] & _) | Hr]. exact Hr.
Qed.

(** **** The keys of [self.ungraded] *)

Lemma add_child_keys (cs : dict) (vert cid : json) (u : udict) r u' :
  keys_distinct u -> add_child cs vert cid u = (r, u') -> keys_distinct u'.
Proof.
  rewrite add_child_eq. intros Hu H.
  destruct (dict_subscript cs cid) as [child|e]; [| inversion H; subst; exact Hu].
  destruct (py_getitem child "category") as [cat|e]; [| inversion H; subst; exact Hu].
  destruct (py_eq_str cat "problem"); [| inversion H; subst; exact Hu].
  destruct (display_name vert) as [sec|]; [| inversion H; subst; exact Hu].
  destruct (py_key sec) as [hk|] eqn:Hk; [| inversion H; subst; exact Hu].
  pose proof (keys_distinct_setdefault hk sec u Hk Hu) as Hs.
  destruct (display_name child) as [name|]; [| inversion H; subst; exact Hs].
  destruct cid; inversion H; subst; try exact Hs.
  unfold keys_distinct. rewrite ukeys_append_at. exact Hs.
Qed.

Lemma add_from_vid_keys (cs : dict) (vid : json) (u : udict) r u' :
  keys_distinct u -> add_from_vid cs vid u = (r, u') -> keys_distinct u'.
Proof.
  rewrite add_from_vid_eq. intros Hu H.
  destruct (dict_subscript cs vid) as [vert|e]; [| inversion H; subst; exact Hu].
  rewrite add_from_vert_eq in H.
  destruct (children vert) as [ids|e]; [| inversion H; subst; exact Hu].
  apply (for_each_inv keys_distinct ids (add_child cs vert)
           (fun x s q s' _ Hs Hx => add_child_keys cs vert x s q s' Hs Hx) u r u' Hu H).
Qed.

Lemma visit_node_keys (cs : dict) (item : string * json) (u : udict) r u' :
  keys_distinct u -> visit_node cs item u = (r, u') -> keys_distinct u'.
Proof.
  rewrite visit_node_eq. intros Hu H.
  destruct (py_getitem (snd item) "category") as [cat|e]; [| inversion H; subst; exact Hu].
  destruct (py_eq_str cat "sequential"); [| inversion H; subst; exact Hu].
  destruct (py_getitem (snd item) "metadata") as [meta|e]; [| inversion H; subst; exact Hu].
  destruct (py_contains meta "graded") as [[|]|e]; try (inversion H; subst; exact Hu).
  destruct (children (snd item)) as [vids|e]; [| inversion H; subst; exact Hu].
  apply (for_each_inv keys_distinct vids (add_from_vid cs)
           (fun x s q s' _ Hs Hx => add_from_vid_keys cs x s q s' Hs Hx) u r u' Hu H).
Qed.

Lemma extract_loops_keys (c : json) (u : udict) r u' :
  keys_distinct u -> extract_loops c u = (r, u') -> keys_distinct u'.
Proof.
  unfold extract_loops. intros Hu H.
  destruct c; try (inversion H; subst; exact Hu).
  apply (for_each_inv keys_distinct d (visit_node d)
           (fun x s q s' _ Hs Hx => visit_node_keys d x s q s' Hs Hx) u r u' Hu H).
Qed.

Lemma ungraded_of_keys (c : json) (u : udict) :
  ungraded_of c = Ok u -> keys_distinct u.
Proof.
  unfold ungraded_of. intros H.
  destruct (extract_loops c []) as [[[]|e] u'] eqn:E; [| discriminate].
  inversion H; subst u'.
  apply (extract_loops_keys c [] (Ok tt) u); [| exact E].
  split; [constructor | intros []].
Qed.


(** *** Ungraded problems *)

Lemma dict_get_key (d : dict) (k : string) (v : json) :
  dict_get d k = Some v -> In k (dict_keys d).
Proof.
  intros H. apply dict_get_In in H. unfold dict_keys.
  apply (in_map fst) in H. exact H.
Qed.

Lemma filter_at_most_one {A} (f : A -> bool) (l : list A) (x y : A) :
  (length (List.filter f l) <= 1)%nat ->
  In x l -> f x = true -> In y l -> f y = true -> x = y.
Proof.
  intros Hlen Hx Hfx Hy Hfy.
  assert (Hx' : In x (List.filter f l)) by (apply filter_In; auto).
  assert (Hy' : In y (List.filter f l)) by (apply filter_In; auto).
  destruct (List.filter f l) as [|a [|b l']]; simpl in *.
  - destruct Hx'.
  - destruct Hx' as [<- | []], Hy' as [<- | []]. reflexivity.
  - lia.
Qed.

(** In a tree, a node that lists the id [k] is its only parent. *)
Lemma single_parent_unique (cs : dict) (k : string) (i1 i2 : string * json) :
  single_parent cs = true -> In k (dict_keys cs) ->
  In i1 cs -> child_of (snd i1) (JStr k) ->
  In i2 cs -> child_of (snd i2) (JStr k) ->
  i1 = i2.
Proof.
  unfold single_parent, parents. intros Ht Hk H1 [ids1 [Hc1 Hin1]] H2 [ids2 [Hc2 Hin2]].
  rewrite forallb_forall in Ht. specialize (Ht k Hk).
  apply Nat.leb_le in Ht. rewrite length_map in Ht.
  eapply filter_at_most_one; [exact Ht | exact H1 | | exact H2 |].
  - cbv beta. rewrite Hc1. apply existsb_exists. exists (JStr k).
    split; [exact Hin1 | apply String.eqb_refl].
  - cbv beta. rewrite Hc2. apply existsb_exists. exists (JStr k).
    split; [exact Hin2 | apply String.eqb_refl].
Qed.

Lemma reachable_grandchild (cs : dict) (hk : hkey) (x : problem) :
  reachable cs hk x -> grandchild cs false (snd x).
Proof.
  intros ([sid desc] & Hin & Hc & vid & Hvid & vert & Hvert & cid & Hcid & Heq & child & sec & Hget & Hcat & _).
  subst cid. simpl in Hc, Hvid. exists sid, desc, vid, vert.
  split; [exact Hin |]. split; [exact Hc |]. split; [exact Hvid |].
  split; [exact Hvert |]. split; [exact Hcid |].
  exists child. auto.
Qed.

(** On a course structure on which the extraction returns, every
    ungraded grandchild has what is needed to record it. *)
Lemma grandchild_reachable (cs : dict) (pid : string) :
  extractable (JObj cs) -> grandchild cs false pid ->
  exists hk name, reachable cs hk (name, pid).
Proof.
  intros (cs' & Heq & HF) (sid & desc & vid & vert & Hin & [Hcat (meta & Hm & Hg)] & Hvid & Hvert & Hpid & child & Hget & Hpc).
  inversion Heq; subst cs'; clear Heq.
  rewrite List.Forall_forall in HF. specialize (HF (sid, desc) Hin). simpl in HF.
  destruct HF as (cat & Hc & Hseq). destruct Hcat as (cat' & Hc' & Hs).
  rewrite Hc in Hc'. inversion Hc'; subst cat'.
  destruct (Hseq Hs) as (meta' & g & Hm' & Hg' & Hch).
  rewrite Hm in Hm'. inversion Hm'; subst meta'.
  rewrite Hg in Hg'. inversion Hg'; subst g.
  destruct (Hch eq_refl) as (vids & Hvids & HFv).
  destruct Hvid as (vids' & Hvids' & Hinv).
  rewrite Hvids in Hvids'. inversion Hvids'; subst vids'.
  rewrite List.Forall_forall in HFv.
  destruct (HFv vid Hinv) as (vert' & ids & Hvert' & Hids & HFc).
  rewrite Hvert in Hvert'. inversion Hvert'; subst vert'.
  destruct Hpid as (ids' & Hids' & Hinp).
  rewrite Hids in Hids'. inversion Hids'; subst ids'.
  rewrite List.Forall_forall in HFc.
  destruct (HFc (JStr pid) Hinp) as (child' & ccat & Hsub & Hccat & Hprob).
  simpl in Hsub. rewrite Hget in Hsub. inversion Hsub; subst child'.
  destruct Hpc as (ccat' & Hccat' & Hp).
  rewrite Hccat in Hccat'. inversion Hccat'; subst ccat'.
  destruct (Hprob Hp) as (sec & hk & name & Hsec & Hk & Hname).
  exists hk, name, (sid, desc). split; [exact Hin |].
  split; [split; [exists cat; auto | exists meta; auto] |].
  exists vid. split; [exists vids; auto |].
  exists vert. split; [exact Hvert |].
  exists (JStr pid). split; [exists ids; auto |].
  split; [reflexivity |]. exists child, sec. simpl.
  repeat split; auto. exists ccat. auto.
Qed.

(** C1: when [extract_ungraded] returns, a problem id is in
    [self.ungraded] if and only if it is a problem among the children of
    the children of a node whose category is ['sequential'] and whose
    metadata has no ['graded']; and in a tree-shaped course structure no
    problem under a container whose metadata has ['graded'] is recorded. *)
Theorem extracted_iff_ungraded_grandchild (cs : dict) (u : udict) :
  ungraded_of (JObj cs) = Ok u ->
  (forall pid, extracted u pid <-> grandchild cs false pid) /\
  (single_parent cs = true ->
   forall pid, grandchild cs true pid -> ~ extracted u pid).
Proof.
  intros Hu.
  assert (Hiff : forall pid, extracted u pid <-> grandchild cs false pid).
  { intros pid. split.
    - intros (sec & l & name & Hin & Hx).
      destruct (ungraded_of_keys _ _ Hu) as [_ Hn].
      destruct (py_key sec) as [hk|] eqn:Hk.
      + apply (reachable_grandchild cs hk (name, pid)).
        apply (ungraded_of_recorded cs u Hu). exists sec, l. auto.
      + exfalso. apply Hn. unfold ukeys. rewrite <- Hk.
        apply (in_map (fun e => py_key (fst e)) u (sec, l) Hin).
    - intros Hg.
      destruct (grandchild_reachable cs pid) as (hk & name & Hr); [| exact Hg |].
      + apply ungraded_of_ok_iff. eauto.
      + apply (ungraded_of_recorded cs u Hu) in Hr as (k & l & Hin & _ & Hx).
        exists k, l, name. auto. }
  split; [exact Hiff |].
  intros Ht pid (sid & desc & vid & vert & Hin & [_ (meta & Hm & Hg)] & Hvid & Hvert & Hpid & child & Hget & _) Hex.
  apply Hiff in Hex as (sid' & desc' & vid' & vert' & Hin' & [_ (meta' & Hm' & Hg')] & Hvid' & Hvert' & Hpid' & _).
  apply dict_subscript_ok in Hvert as (v & -> & Hv).
  apply dict_subscript_ok in Hvert' as (v' & -> & Hv').
  assert (Hvv : (v, vert) = (v', vert')).
  { apply (single_parent_unique cs pid); auto.
    - eapply dict_get_key; eauto.
    - apply dict_get_In; auto.
    - apply dict_get_In; auto. }
  inversion Hvv; subst v' vert'.
  assert (Hdd : (sid, desc) = (sid', desc')).
  { apply (single_parent_unique cs v); auto. eapply dict_get_key; eauto. }
  inversion Hdd; subst sid' desc'.
  rewrite Hm in Hm'. inversion Hm'; subst meta'. congruence.
Qed.


(** *** The heap *)

Lemma nth_error_snoc {A} (h : list A) (o : A) :
  nth_error (h ++ [o])%list (length h) = Some o.
Proof.
  rewrite nth_error_app2 by lia. rewrite Nat.sub_diag. reflexivity.
Qed.

Lemma nth_error_mid {A} (h : list A) (o : A) (t : list A) :
  nth_error (h ++ o :: t)%list (length h) = Some o.
Proof.
  rewrite nth_error_app2 by lia. rewrite Nat.sub_diag. reflexivity.
Qed.

Lemma set_nth_mid {A} (h : list A) (x o : A) (t : list A) :
  set_nth (length h) x (h ++ o :: t)%list = (h ++ x :: t)%list.
Proof.
  induction h as [|a h IH]; simpl; [reflexivity | rewrite IH; reflexivity].
Qed.

Lemma nth_error_old {A} (h extra : list A) (l : nat) (o : A) :
  nth_error h l = Some o -> nth_error (h ++ extra)%list l = Some o.
Proof.
  intros H. rewrite nth_error_app1; [exact H |].
  apply nth_error_Some. congruence.
Qed.

Lemma constructed_ext (w w' : world) self u df extra :
  constructed w self u df -> heap w' = (heap w ++ extra)%list ->
  constructed w' self u df.
Proof.
  intros (inst & l & H1 & H2 & H3 & H4) Hw. exists inst, l. rewrite Hw.
  split; [apply nth_error_old; exact H1 |].
  split; [exact H2 |]. split; [exact H3 |]. apply nth_error_old; exact H4.
Qed.

(** *** Primitive steps *)

Lemma bind_getattr {A B} (self : nat) (attr : instance -> option A)
  (k : A -> M world B) (w : world) inst v :
  nth_error (heap w) self = Some (OInstance inst) -> attr inst = Some v ->
  bind (getattr self attr) k w = k v w.
Proof.
  intros H1 H2. unfold getattr, load_instance, bind. rewrite H1, H2. reflexivity.
Qed.

Lemma bind_load_frame {B} (l : nat) (k : frame -> M world B) (w : world) f :
  nth_error (heap w) l = Some (OFrame f) ->
  bind (load_frame l) k w = k f w.
Proof.
  intros H. unfold load_frame, bind. rewrite H. reflexivity.
Qed.

Lemma bind_alloc {B} (o : pyobj) (k : nat -> M world B) (w : world) :
  bind (alloc o) k w = k (length (heap w)) (set_heap (heap w ++ [o])%list w).
Proof. reflexivity. Qed.

Lemma bind_setattr {B} (self : nat) (upd : instance -> instance)
  (k : unit -> M world B) (w : world) inst :
  nth_error (heap w) self = Some (OInstance inst) ->
  bind (setattr self upd) k w =
  k tt (set_heap (set_nth self (OInstance (upd inst)) (heap w)) w).
Proof.
  intros H. unfold setattr, load_instance, bind, modify. rewrite H. reflexivity.
Qed.

(** *** The loops of [write_records] *)

Lemma write_problem_run (self : nat) (section : json) (p : problem)
  (w : world) (u : udict) (df : frame) r w' :
  constructed w self u df ->
  write_problem self section p w = (r, w') ->
  (exists extra, heap w' = (heap w ++ extra)%list) /\
  match problem_request df section p with
  | Raise e => r = Raise e /\ log w' = log w
  | Ok ev =>
      match os_error (log w) ev with
      | Some err => r = Raise err /\ log w' = log w
      | None => r = Ok tt /\ log w' = (log w ++ [ev])%list
      end
  end.
Proof.
  intros (inst & l & H1 & H2 & H3 & H4).
  unfold write_problem, problem_request, problem_table, selection, answered.
  cbv zeta. rewrite (bind_getattr self student_df _ w inst l H1 H3).
  rewrite (bind_load_frame l _ w df H4). rewrite bind_lift.
  destruct (frame_column df "module_id") as [module_id|e]; simpl rbind.
  2:{ intros H. inversion H; subst. split; [exists []; rewrite app_nil_r|]; auto. }
  rewrite bind_alloc.
  set (raw := frame_loc df (map (fun v => py_eq_str v (snd p)) module_id)).
  set (w1 := set_heap (heap w ++ [OFrame raw])%list w).
  assert (Hraw : nth_error (heap w1) (length (heap w)) = Some (OFrame raw))
    by apply nth_error_snoc.
  rewrite (bind_load_frame _ _ w1 raw Hraw). rewrite bind_lift.
  destruct (frame_column raw "state") as [state|e]; simpl rbind.
  2:{ intros H. inversion H; subst. split; [exists [OFrame raw]|]; auto. }
  rewrite bind_lift.
  destruct (map_result extract_student_answers state) as [answers|e]; simpl rbind.
  2:{ intros H. inversion H; subst. split; [exists [OFrame raw]|]; auto. }
  unfold store_frame. rewrite bind_modify.
  set (t := frame_setitem raw "student_answers" answers).
  set (w2 := set_heap (set_nth (length (heap w)) (OFrame t) (heap w1)) w1).
  assert (Hheap : heap w2 = (heap w ++ [OFrame t])%list).
  { unfold w2, w1, set_heap. cbn [heap]. apply set_nth_mid. }
  assert (Ht : nth_error (heap w2) (length (heap w)) = Some (OFrame t)).
  { rewrite Hheap. apply nth_error_snoc. }
  rewrite (bind_load_frame _ _ w2 t Ht).
  unfold request. change (log w2) with (log w).
  destruct (os_error (log w) (ToCsv (outfname section (fst p)) tab t)) as [err|].
  - intros H. inversion H; subst. split; [exists [OFrame t]|]; auto.
  - intros H. inversion H; subst. cbn [heap log].
    split; [exists [OFrame t]|]; auto.
Qed.

Lemma is_prefix_nil {A} (full : list A) : is_prefix [] full.
Proof. exists full. reflexivity. Qed.

Lemma is_prefix_cons {A} (x : A) l full :
  is_prefix l full -> is_prefix (x :: l) (x :: full).
Proof. intros [rest ->]. exists rest. reflexivity. Qed.

Lemma is_prefix_app {A} (a l full : list A) :
  is_prefix l full -> is_prefix (a ++ l)%list (a ++ full)%list.
Proof. intros [rest ->]. exists rest. rewrite app_assoc. reflexivity. Qed.

Lemma is_prefix_app_r {A} (l full more : list A) :
  is_prefix l full -> is_prefix l (full ++ more)%list.
Proof. intros [rest ->]. exists (rest ++ more)%list. rewrite app_assoc. reflexivity. Qed.

Lemma write_problems_run (self : nat) (section : json) (u : udict) (df : frame)
  (ps : list problem) :
  forall w r w',
    constructed w self u df ->
    for_each ps (write_problem self section) w = (r, w') ->
    follows_plan w w' r (plan_problems df section ps).
Proof.
  induction ps as [|p ps IH]; intros w r w' Hc H.
  - inversion H; subst. split; [exists []; rewrite app_nil_r; reflexivity |].
    exists []. rewrite app_nil_r. simpl. split; [reflexivity |].
    split; [apply is_prefix_nil | auto].
  - rewrite for_each_cons in H. simpl plan_problems.
    apply bind_inv in H as [(a & w1 & H1 & H2) | (e & H1 & ->)].
    + destruct (write_problem_run self section p w u df _ _ Hc H1) as [[x1 Hx1] Hp].
      destruct (problem_request df section p) as [ev|e]; [| destruct Hp; discriminate].
      destruct (os_error (log w) ev); [destruct Hp; discriminate |].
      destruct Hp as [_ Hlog].
      destruct (IH w1 r w' (constructed_ext w w1 self u df x1 Hc Hx1) H2)
        as [[x2 Hx2] (evs & Hl & Hpre & Hok)].
      destruct (plan_problems df section ps) as [pl pr]. simpl in *.
      split; [exists (x1 ++ x2)%list; rewrite Hx2, Hx1, app_assoc; reflexivity |].
      exists (ev :: evs). rewrite Hl, Hlog, <- app_assoc. simpl.
      split; [reflexivity |]. split; [apply is_prefix_cons; exact Hpre |].
      intros Hr. destruct (Hok Hr) as [-> ->]. auto.
    + destruct (write_problem_run self section p w u df _ _ Hc H1) as [Hx Hp].
      split; [exact Hx |]. exists []. rewrite app_nil_r.
      split; [| split; [apply is_prefix_nil | discriminate]].
      destruct (problem_request df section p) as [ev|e']; [| destruct Hp; auto].
      destruct (os_error (log w) ev); destruct Hp; [auto | discriminate].
Qed.


Lemma write_sections_run (self : nat) (base_dir : string) (u : udict) (df : frame)
  (us : udict) :
  forall w r w',
    constructed w self u df ->
    for_each us (write_section self base_dir) w = (r, w') ->
    follows_plan w w' r (plan_sections df base_dir us).
Proof.
  induction us as [|item us IH]; intros w r w' Hc H.
  - inversion H; subst. split; [exists []; rewrite app_nil_r; reflexivity |].
    exists []. rewrite app_nil_r. simpl. split; [reflexivity |].
    split; [apply is_prefix_nil | auto].
  - rewrite for_each_cons in H. simpl plan_sections.
    unfold write_section in H at 1. cbv zeta in H.
    unfold bind at 1 in H. rewrite bind_lift in H.
    destruct (path_join base_dir (fst item)) as [dir|e].
    2:{ inversion H; subst. split; [exists []; rewrite app_nil_r; reflexivity |].
        exists []. rewrite app_nil_r. simpl.
        split; [reflexivity |]. split; [apply is_prefix_nil | discriminate]. }
    unfold bind at 1 in H. unfold request in H.
    destruct (os_error (log w) (MakeDirs dir)) as [err|].
    { inversion H; subst. split; [exists []; rewrite app_nil_r; reflexivity |].
      exists []. rewrite app_nil_r.
      split; [reflexivity |]. split; [apply is_prefix_nil | discriminate]. }
    set (w0 := {| heap := heap w; log := (log w ++ [MakeDirs dir])%list |}) in H.
    assert (Hc0 : constructed w0 self u df)
      by (apply (constructed_ext w w0 self u df []); [exact Hc | simpl; rewrite app_nil_r; reflexivity]).
    destruct (for_each (snd item) (write_problem self (fst item)) w0)
      as [[[]|e] w1] eqn:E.
    + destruct (write_problems_run self (fst item) u df (snd item) w0 _ w1 Hc0 E)
        as [[x1 Hx1] (evs & Hl & _ & Hok)].
      destruct (Hok eq_refl) as [Hevs Hnone].
      destruct (plan_problems df (fst item) (snd item)) as [pl pr].
      simpl in Hevs, Hnone. subst evs pr.
      assert (Hc1 : constructed w1 self u df)
        by (apply (constructed_ext w0 w1 self u df x1 Hc0 Hx1)).
      destruct (IH w1 r w' Hc1 H) as [[x2 Hx2] (evs & Hl2 & Hpre & Hok2)].
      destruct (plan_sections df base_dir us) as [pl' pr']. simpl in *.
      split; [exists (x1 ++ x2)%list; rewrite Hx2, Hx1, app_assoc; reflexivity |].
      exists (MakeDirs dir :: pl ++ evs)%list.
      rewrite Hl2, Hl. rewrite <- !app_assoc. simpl.
      split; [reflexivity |].
      split; [apply is_prefix_cons, is_prefix_app; exact Hpre |].
      intros Hr. destruct (Hok2 Hr) as [-> ->]. auto.
    + inversion H; subst r w'; clear H.
      destruct (write_problems_run self (fst item) u df (snd item) w0 _ w1 Hc0 E)
        as [[x1 Hx1] (evs & Hl & Hpre & _)].
      split; [exists x1; exact Hx1 |].
      exists (MakeDirs dir :: evs). rewrite Hl. simpl. rewrite <- app_assoc. simpl.
      split; [reflexivity |]. split; [| discriminate].
      destruct (plan_problems df (fst item) (snd item)) as [pl [e'|]]; simpl in *.
      * apply is_prefix_cons. exact Hpre.
      * destruct (plan_sections df base_dir us) as [pl' pr']. simpl.
        apply is_prefix_cons, is_prefix_app_r. exact Hpre.
Qed.

Lemma write_records_run (self : nat) (base_dir : string) (u : udict) (df : frame)
  (w : world) r w' :
  constructed w self u df ->
  write_records self base_dir w = (r, w') ->
  follows_plan w w' r (plan_sections df base_dir u).
Proof.
  intros Hc H. pose proof Hc as (inst & l & H1 & H2 & _).
  unfold write_records in H. rewrite (bind_getattr self ungraded _ w inst u H1 H2) in H.
  exact (write_sections_run self base_dir u df u w r w' Hc H).
Qed.


(** *** The constructor *)

Lemma bind_print {B} (s : string) (k : unit -> M world B) (w : world) :
  bind (print s) k w = k tt {| heap := heap w; log := (log w ++ [Print s])%list |}.
Proof. reflexivity. Qed.

Lemma bind_bind {S A B C} (m : M S A) (k : A -> M S B) (k' : B -> M S C) (s : S) :
  bind (bind m k) k' s = bind m (fun a => bind (k a) k') s.
Proof.
  unfold bind. destruct (m s) as [[a|e] s1]; reflexivity.
Qed.

(** [extract_ungraded] on an object whose [course_structure] is set. *)
Lemma extract_ungraded_run (h : list pyobj) (inst : instance) (t : list pyobj)
  (lg : list event) (cs : json) :
  course_structure inst = Some cs ->
  extract_ungraded (length h) {| heap := (h ++ OInstance inst :: t)%list; log := lg |} =
  (match fst (extract_loops cs []) with
   | Ok _ => Ok tt
   | Raise e => Raise e
   end,
   {| heap := (h ++ OInstance (set_ungraded (snd (extract_loops cs [])) inst) :: t)%list;
      log := lg |}).
Proof.
  intros Hcs. unfold extract_ungraded.
  rewrite (bind_setattr (length h) _ _ _ inst) by apply nth_error_mid.
  unfold set_heap. cbn [heap log]. rewrite set_nth_mid.
  rewrite (bind_getattr (length h) course_structure _ _ (set_ungraded [] inst) cs)
    by (first [apply nth_error_mid | exact Hcs]).
  unfold on_ungraded.
  rewrite (bind_getattr (length h) ungraded _ _ (set_ungraded [] inst) [])
    by (first [apply nth_error_mid | reflexivity]).
  destruct (extract_loops cs []) as [r u'].
  rewrite (bind_setattr (length h) _ _ _ (set_ungraded [] inst)) by apply nth_error_mid.
  unfold set_heap. cbn [heap log fst snd]. rewrite set_nth_mid.
  unfold lift, set_ungraded. cbn [course_structure student_df].
  destruct r as [[]|e]; reflexivity.
Qed.


Lemma UngradedProblems_run (database_prefix course_name : string) (w : world) r w' :
  UngradedProblems database_prefix course_name w = (r, w') ->
  (exists prints, log w' = (log w ++ prints)%list /\
                  writes prints = [] /\ made_dirs prints = []) /\
  (exists extra, heap w' = (heap w ++ extra)%list) /\
  match loaded database_prefix course_name with
  | Raise e => r = Raise e
  | Ok (cs, df, u) =>
      r = Ok (length (heap w)) /\
      heap w' = (heap w ++ [OInstance {| course_structure := Some cs;
                                         student_df := Some (S (length (heap w)));
                                         ungraded := Some u |};
                            OFrame df])%list
  end.
Proof.
  unfold UngradedProblems, __init__, loaded, read_encrypted_json,
    read_encrypted_tsv, popen_gpg.
  fold (structure_fname database_prefix course_name).
  fold (student_fname database_prefix course_name).
  cbv zeta. rewrite bind_alloc. unfold set_heap. cbn [heap log].
  rewrite ?bind_bind. rewrite bind_print. cbn [heap log].
  rewrite ?bind_bind, bind_lift.
  destruct (gpg (structure_fname database_prefix course_name)) as [out|e]; simpl rbind.
  2:{ intros H. inversion H; subst. cbn [heap log].
      split; [exists [Print "reading JSON"]; auto |]. split; [eauto | reflexivity]. }
  rewrite ?bind_bind, bind_lift.
  destruct (json_loads out) as [cs|e]; simpl rbind.
  2:{ intros H. inversion H; subst. cbn [heap log].
      split; [exists [Print "reading JSON"]; auto |]. split; [eauto | reflexivity]. }
  rewrite ?bind_bind.
  erewrite bind_setattr by (cbn [heap]; apply nth_error_snoc).
  unfold set_heap. cbn [heap log]. rewrite set_nth_mid.
  rewrite ?bind_bind. rewrite bind_print. cbn [heap log].
  rewrite ?bind_bind, bind_lift.
  destruct (gpg (student_fname database_prefix course_name)) as [out'|e]; simpl rbind.
  2:{ intros H. inversion H; subst. cbn [heap log]. rewrite <- app_assoc.
      split; [eexists; split; [reflexivity | auto] |]. split; [eauto | reflexivity]. }
  rewrite ?bind_bind, bind_lift.
  destruct (read_csv out' tab ["na"] usecols) as [df|e]; simpl rbind.
  2:{ intros H. inversion H; subst. cbn [heap log]. rewrite <- app_assoc.
      split; [eexists; split; [reflexivity | auto] |]. split; [eauto | reflexivity]. }
  rewrite bind_alloc. unfold set_heap. cbn [heap log].
  rewrite <- !app_assoc. cbn [app].
  rewrite length_app. cbn [length]. rewrite Nat.add_1_r.
  rewrite ?bind_bind.
  erewrite bind_setattr by (cbn [heap]; apply nth_error_mid).
  unfold set_heap. cbn [heap log]. rewrite set_nth_mid.
  unfold bind at 1.
  erewrite (extract_ungraded_run (heap w) _ _ _ cs) by reflexivity.
  unfold ungraded_of, set_ungraded, set_student_df, set_course_structure.
  cbn [course_structure student_df ungraded].
  destruct (extract_loops cs []) as [[[]|e] u]; cbn [fst snd]; intros H;
    inversion H; subst; cbn [heap log].
  - split; [eexists; split; [reflexivity | auto] |]. split; [eauto |].
    simpl. auto.
  - split; [eexists; split; [reflexivity | auto] |]. split; [eauto |].
    simpl. auto.
Qed.


(** *** The tables written *)

Lemma map_result_Forall2 {A B} (f : A -> result B) (l : list A) (ys : list B) :
  map_result f l = Ok ys -> Forall2 (fun x y => f x = Ok y) l ys.
Proof.
  revert ys. induction l as [|x l IH]; simpl; intros ys H.
  - inversion H. constructor.
  - destruct (f x) as [y|] eqn:E; [| discriminate].
    destruct (map_result f l) as [ys'|]; [| discriminate].
    inversion H; subst. constructor; auto.
Qed.

Lemma select_map {A} (f : A -> bool) (l : list A) :
  select (map f l) l = List.filter f l.
Proof.
  induction l as [|x l IH]; simpl; [reflexivity |].
  rewrite IH. reflexivity.
Qed.

Lemma zip_rows_Forall2 (g : list json -> json -> list json)
  (Q : nat * list json -> json -> Prop) rs vals :
  Forall2 Q rs vals ->
  Forall2 (fun r' r => fst r' = fst r /\ exists v, snd r' = g (snd r) v /\ Q r v)
    (zip_rows g rs vals) rs.
Proof.
  induction 1 as [|r v rs vals HQ _ IH]; simpl; constructor; [| exact IH].
  simpl. split; [reflexivity |]. exists v. auto.
Qed.

Lemma frame_column_ok (f : frame) (name : string) (col : list json) :
  frame_column f name = Ok col ->
  exists i, col_index name (columns f) = Some i /\
            col = map (fun r => nth i (snd r) NaN) (rows f).
Proof.
  unfold frame_column. destruct (col_index name (columns f)) as [i|]; [| discriminate].
  intros H. inversion H. eauto.
Qed.

(** The table written for a problem: the rows of the student table about
    it, in their order, each with the answers taken from its state. *)
Lemma problem_table_ok (df : frame) (pid : string) (t : frame) :
  problem_table df pid = Ok t ->
  col_index "student_answers" (columns df) = None ->
  exists j,
    col_index "state" (columns df) = Some j /\
    columns t = (columns df ++ ["student_answers"])%list /\
    Forall2 (fun r' r =>
               fst r' = fst r /\
               exists a, snd r' = (snd r ++ [a])%list /\
                         extract_student_answers (nth j (snd r) NaN) = Ok a)
      (rows t) (List.filter (about df pid) (rows df)).
Proof.
  unfold problem_table, selection, answered. intros H Hnew.
  destruct (frame_column df "module_id") as [module_id|] eqn:Hm; [| discriminate].
  apply frame_column_ok in Hm as (i & Hi & ->). simpl rbind in H.
  rewrite map_map in H.
  assert (Hmask : map (fun r => py_eq_str (nth i (snd r) NaN) pid) (rows df)
                  = map (about df pid) (rows df)).
  { apply map_ext. intros r. unfold about. rewrite Hi. reflexivity. }
  rewrite Hmask in H. clear Hmask.
  destruct (frame_column (frame_loc df (map (about df pid) (rows df))) "state")
    as [state|] eqn:Hs; [| discriminate].
  apply frame_column_ok in Hs as (j & Hj & ->).
  unfold frame_loc in *. cbn [columns rows] in *. rewrite select_map in *.
  simpl rbind in H.
  destruct (map_result extract_student_answers
              (map (fun r => nth j (snd r) NaN) (List.filter (about df pid) (rows df))))
    as [answers|] eqn:Ha; [| discriminate].
  simpl rbind in H. inversion H; subst t; clear H.
  exists j. split; [exact Hj |].
  unfold frame_setitem. cbn [columns rows]. rewrite Hnew. cbn [columns rows].
  split; [reflexivity |].
  apply map_result_Forall2 in Ha.
  apply (zip_rows_Forall2 (fun cells v => (cells ++ [v])%list)
           (fun r a => extract_student_answers (nth j (snd r) NaN) = Ok a)).
  revert Ha. generalize (List.filter (about df pid) (rows df)). intros l.
  revert answers. induction l as [|r l IH]; simpl; intros answers Ha.
  - inversion Ha. constructor.
  - inversion Ha; subst. constructor; auto.
Qed.

(** *** The plan of a run that returns *)

Lemma plan_problems_complete (df : frame) (section : json) (ps : list problem) evs :
  plan_problems df section ps = (evs, None) ->
  Forall2 (fun ev p => problem_request df section p = Ok ev) evs ps.
Proof.
  revert evs. induction ps as [|p ps IH]; simpl; intros evs H.
  - inversion H. constructor.
  - destruct (problem_request df section p) as [ev|] eqn:E; [| discriminate].
    destruct (plan_problems df section ps) as [evs' r'].
    inversion H; subst. constructor; auto.
Qed.

Lemma plan_sections_complete (df : frame) (base_dir : string) (u : udict) evs :
  plan_sections df base_dir u = (evs, None) ->
  exists evss,
    evs = concat evss /\
    Forall2 (fun sevs item =>
               exists dir pevs,
                 sevs = MakeDirs dir :: pevs /\
                 path_join base_dir (fst item) = Ok dir /\
                 Forall2 (fun ev p => problem_request df (fst item) p = Ok ev)
                   pevs (snd item))
      evss u.
Proof.
  revert evs. induction u as [|item u IH]; simpl; intros evs H.
  - inversion H. exists []. split; [reflexivity | constructor].
  - destruct (path_join base_dir (fst item)) as [dir|] eqn:Hd; [| discriminate].
    destruct (plan_problems df (fst item) (snd item)) as [pevs [e|]] eqn:Hp;
      [discriminate |].
    destruct (plan_sections df base_dir u) as [evs' r'].
    inversion H; subst. destruct (IH evs' eq_refl) as (evss & -> & HF).
    exists ((MakeDirs dir :: pevs) :: evss). split; [reflexivity |].
    constructor; [| exact HF].
    exists dir, pevs. split; [reflexivity |]. split; [exact Hd |].
    apply plan_problems_complete. exact Hp.
Qed.

Lemma writes_app (a b : list event) : writes (a ++ b) = (writes a ++ writes b)%list.
Proof.
  induction a as [|[] a IH]; simpl; rewrite ?IH; reflexivity.
Qed.

Lemma made_dirs_app (a b : list event) :
  made_dirs (a ++ b) = (made_dirs a ++ made_dirs b)%list.
Proof.
  induction a as [|[] a IH]; simpl; rewrite ?IH; reflexivity.
Qed.

Lemma problem_requests_writes (df : frame) (section : json) pevs ps :
  Forall2 (fun ev p => problem_request df section p = Ok ev) pevs ps ->
  made_dirs pevs = [] /\
  Forall2 (fun wr sp =>
             fst wr = outfname (fst sp) (fst (snd sp)) /\
             problem_table df (snd (snd sp)) = Ok (snd wr))
    (writes pevs) (map (fun p => (section, p)) ps).
Proof.
  induction 1 as [|ev p pevs ps Hp _ [IH1 IH2]]; simpl.
  - split; [reflexivity | constructor].
  - unfold problem_request in Hp.
    destruct (problem_table df (snd p)) as [t|] eqn:Ht; [| discriminate].
    simpl in Hp. inversion Hp; subst ev. simpl.
    split; [exact IH1 |]. constructor; [| exact IH2]. simpl. auto.
Qed.

(** The requests of a run that returns: a directory per section, a
    table per problem. *)
Lemma plan_sections_requests (df : frame) (base_dir : string) (u : udict) evs :
  plan_sections df base_dir u = (evs, None) ->
  Forall2 (fun dir item => path_join base_dir (fst item) = Ok dir)
    (made_dirs evs) u /\
  Forall2 (fun wr sp =>
             fst wr = outfname (fst sp) (fst (snd sp)) /\
             problem_table df (snd (snd sp)) = Ok (snd wr))
    (writes evs) (problems_of u).
Proof.
  intros H. apply plan_sections_complete in H as (evss & -> & HF).
  induction HF as [|sevs item evss u (dir & pevs & -> & Hd & Hp) _ [IH1 IH2]].
  - split; constructor.
  - destruct (problem_requests_writes df (fst item) pevs (snd item) Hp) as [Hm Hw].
    unfold problems_of. simpl. rewrite made_dirs_app, writes_app, Hm. simpl.
    split; [constructor; auto |].
    apply Forall2_app; [exact Hw | exact IH2].
Qed.


(** *** The student table *)

Lemma existsb_eqb_In (x : string) (l : list string) :
  existsb (String.eqb x) l = true <-> In x l.
Proof.
  rewrite existsb_exists. split.
  - intros (y & Hy & E). apply String.eqb_eq in E. subst. exact Hy.
  - intros H. exists x. split; [exact H | apply String.eqb_refl].
Qed.

Lemma col_index_None (name : string) (cols : list string) :
  col_index name cols = None <-> ~ In name cols.
Proof.
  standalone.
  induction cols as [|c cols IH]; simpl; [tauto |].
  destruct (String.eqb c name) eqn:E.
  - apply String.eqb_eq in E. split; [discriminate | intros H; exfalso; auto].
  - apply String.eqb_neq in E.
    destruct (col_index name cols) as [n|]; simpl; split.
    + discriminate.
    + intros H. assert (Hn : ~ In name cols) by tauto.
      apply IH in Hn. discriminate.
    + intros _ [H | H]; [auto |]. destruct IH as [IH _]. exact (IH eq_refl H).
    + reflexivity.
Qed.

Lemma read_csv_ok (text : string) (sep : ascii) (na cols : list string) (df : frame) :
  read_csv text sep na cols = Ok df ->
  exists header records,
    csv_records sep text = Ok (header, records) /\
    columns df = List.filter (fun h => existsb (String.eqb h) cols) header /\
    (forall c, In c (columns df) <-> In c cols) /\
    rows df = combine (seq 0 (length records))
                (map (fun r => select (map (fun h => existsb (String.eqb h) cols) header)
                                 (map (parse_cell na) r)) records).
Proof.
  standalone.
  unfold read_csv. destruct (csv_records sep text) as [[header records]|]; [| discriminate].
  simpl rbind. cbn [fst snd].
  destruct (forallb (fun c => existsb (String.eqb c) header) cols) eqn:Hall; [| discriminate].
  intros H. inversion H; subst df; clear H. cbn [columns rows].
  exists header, records. rewrite select_map.
  split; [reflexivity |]. split; [reflexivity |]. split; [| reflexivity].
  intros c. rewrite filter_In, existsb_eqb_In. split; [tauto |].
  intros Hc. split; [| exact Hc].
  rewrite forallb_forall in Hall. apply existsb_eqb_In. auto.
Qed.

Lemma loaded_table (database_prefix course_name : string) cs df u :
  loaded database_prefix course_name = Ok (cs, df, u) ->
  ungraded_of cs = Ok u /\
  (forall c, In c (columns df) <-> In c usecols) /\
  col_index "student_answers" (columns df) = None.
Proof.
  unfold loaded. intros H.
  destruct (gpg (structure_fname database_prefix course_name)); [| discriminate].
  simpl rbind in H. destruct (json_loads a) as [cs'|]; [| discriminate].
  simpl rbind in H.
  destruct (gpg (student_fname database_prefix course_name)); [| discriminate].
  simpl rbind in H.
  destruct (read_csv a0 tab ["na"] usecols) as [df'|] eqn:Hdf; [| discriminate].
  simpl rbind in H. destruct (ungraded_of cs') as [u'|] eqn:Hu; [| discriminate].
  simpl in H. inversion H; subst cs' df' u'; clear H.
  apply read_csv_ok in Hdf as (header & records & _ & _ & Hcols & _).
  split; [exact Hu |]. split; [exact Hcols |].
  apply col_index_None. rewrite Hcols. simpl.
  intros [H|[H|[H|[H|[H|[H|[]]]]]]]; discriminate.
Qed.

(** C5: [read_encrypted_tsv] parses the output of the subprocess as a
    table delimited by tabs and keeps the columns whose name is one of
    module_id, student_id, state, created, modified and done, in the
    order of the file, the other columns being dropped: exactly these
    six, each once, when the names of the header are distinct.  A field
    kept is the string of the file, unparsed, unless it is a marker of a
    missing value, and then it is the float [nan]: the literal [na] is
    such a marker, and so is every marker that pandas has of its own,
    the empty field, NULL, NaN and NA among them. *)
Theorem read_encrypted_tsv_six_string_columns (fname : string) (w : world) l w' :
  read_encrypted_tsv fname w = (Ok l, w') ->
  exists out header records df,
    gpg fname = Ok out /\
    csv_records tab out = Ok (header, records) /\
    nth_error (heap w') l = Some (OFrame df) /\
    columns df = List.filter (fun h => existsb (String.eqb h) usecols) header /\
    (forall c, In c (columns df) <->
               In c ["module_id"; "student_id"; "state"; "created"; "modified"; "done"]) /\
    (List.NoDup header -> List.NoDup (columns df) /\ length (columns df) = 6) /\
    rows df = combine (seq 0 (length records))
                (map (fun r => select (map (fun h => existsb (String.eqb h) usecols) header)
                                 (map (parse_cell ["na"]) r)) records) /\
    (forall field, In field ("na" :: default_na) -> parse_cell ["na"] field = NaN) /\
    (forall field, ~ In field ("na" :: default_na) ->
                   parse_cell ["na"] field = JStr field) /\
    (incl pandas_default_na default_na ->
     Forall (fun field => parse_cell ["na"] field = NaN) [""; "NULL"; "NaN"; "NA"]).
Proof.
  standalone.
  unfold read_encrypted_tsv, popen_gpg. rewrite bind_print, bind_lift.
  destruct (gpg fname) as [out|]; [| discriminate].
  rewrite bind_lift.
  destruct (read_csv out tab ["na"] usecols) as [df|] eqn:Hdf; [| discriminate].
  unfold alloc. intros H. inversion H; subst l w'; clear H.
  apply read_csv_ok in Hdf as (header & records & Hcsv & Hcols & Hset & Hrows).
  assert (Hna : forall field, In field ("na" :: default_na) ->
                              parse_cell ["na"] field = NaN).
  { intros field Hin. unfold parse_cell.
    rewrite (proj2 (existsb_eqb_In field (["na"] ++ default_na)%list) Hin).
    reflexivity. }
  exists out, header, records, df. cbn [heap set_heap log].
  split; [reflexivity |]. split; [exact Hcsv |].
  split; [apply nth_error_snoc |]. split; [exact Hcols |].
  split; [exact Hset |]. split; [| split; [exact Hrows |]].
  - intros Hnd.
    assert (Hndc : List.NoDup (columns df))
      by (rewrite Hcols; apply List.NoDup_filter; exact Hnd).
    split; [exact Hndc |].
    assert (Hsix : List.NoDup usecols).
    { unfold usecols. repeat constructor; simpl; intuition discriminate. }
    change (length (columns df) = length usecols). apply Nat.le_antisymm.
    + apply (List.NoDup_incl_length Hndc). intros c Hc. apply Hset. exact Hc.
    + apply (List.NoDup_incl_length Hsix). intros c Hc. apply Hset. exact Hc.
  - split; [exact Hna |]. split.
    + intros field Hnot. unfold parse_cell.
      destruct (existsb (String.eqb field) (["na"] ++ default_na)) eqn:E;
        [| reflexivity].
      apply existsb_eqb_In in E. contradiction.
    + intros Hincl.
      repeat constructor; apply Hna; right; apply Hincl; simpl; tauto.
Qed.

(** *** A missing input *)

(** C4: when [gpg] cannot be run or writes nothing for one of the two
    input files, and the parsers reject an empty input as [json.load] and
    [pandas.read_csv] do, the constructor raises, the run ends with that
    exception, and no directory has been asked for and no table written. *)
Theorem missing_input_fails_whole_run (w : world) :
  (exists e, json_loads "" = Raise e) ->
  (exists e, csv_records tab "" = Raise e) ->
  (let s := gpg (structure_fname "../../database/berkeleyx-2015-02-01/" "BerkeleyX-GG101x-1T2014") in
   let t := gpg (student_fname "../../database/berkeleyx-2015-02-01/" "BerkeleyX-GG101x-1T2014") in
   s = Ok "" \/ (exists e, s = Raise e) \/ t = Ok "" \/ (exists e, t = Raise e)) ->
  exists e w',
    UngradedProblems "../../database/berkeleyx-2015-02-01/" "BerkeleyX-GG101x-1T2014" w
      = (Raise e, w') /\
    main w = (Raise e, w') /\
    writes (log w') = writes (log w) /\
    made_dirs (log w') = made_dirs (log w).
Proof.
  intros [ej Hj] [ec Hc] Hmiss. cbv zeta in Hmiss.
  unfold main. cbv zeta.
  set (prefix := "../../database/berkeleyx-2015-02-01/") in *.
  set (name := "BerkeleyX-GG101x-1T2014") in *.
  destruct (UngradedProblems prefix name w) as [r w'] eqn:E.
  destruct (UngradedProblems_run prefix name w r w' E)
    as [(prints & Hlog & Hw & Hd) [_ Hr]].
  assert (Hraise : exists e, loaded prefix name = Raise e).
  { unfold loaded, read_csv.
    destruct (gpg (structure_fname prefix name)) as [out|e] eqn:Hs; [| simpl; eauto].
    destruct (gpg (student_fname prefix name)) as [out'|e] eqn:Ht.
    - destruct Hmiss as [H | [[e H] | [H | [e H]]]]; try discriminate.
      + inversion H; subst out. simpl rbind. rewrite Hj. simpl. eauto.
      + inversion H; subst out'. simpl rbind.
        destruct (json_loads out); simpl; [| eauto].
        rewrite Hc. simpl. eauto.
    - simpl rbind. destruct (json_loads out); simpl; eauto. }
  destruct Hraise as [e He]. rewrite He in Hr. subst r.
  exists e, w'. split; [reflexivity |].
  split; [unfold bind; rewrite E; reflexivity |].
  rewrite Hlog, writes_app, made_dirs_app, Hw, Hd, !app_nil_r. auto.
Qed.


(** *** Runs of [write_records] that return *)

Lemma constructed_by (database_prefix course_name : string) (w0 : world) self w :
  UngradedProblems database_prefix course_name w0 = (Ok self, w) ->
  exists cs df u,
    loaded database_prefix course_name = Ok (cs, df, u) /\
    constructed w self u df /\
    nth_error (heap w) self
      = Some (OInstance {| course_structure := Some cs;
                           student_df := Some (S self);
                           ungraded := Some u |}) /\
    nth_error (heap w) (S self) = Some (OFrame df).
Proof.
  intros H. apply UngradedProblems_run in H as (_ & _ & H).
  destruct (loaded database_prefix course_name) as [[[cs df] u]|]; [| discriminate].
  destruct H as [Hs Hh]. inversion Hs; subst self; clear Hs.
  assert (H1 : nth_error (heap w) (length (heap w0))
               = Some (OInstance {| course_structure := Some cs;
                                    student_df := Some (S (length (heap w0)));
                                    ungraded := Some u |}))
    by (rewrite Hh; apply nth_error_mid).
  assert (H2 : nth_error (heap w) (S (length (heap w0))) = Some (OFrame df)).
  { rewrite Hh. rewrite nth_error_app2 by lia.
    replace (S (length (heap w0)) - length (heap w0)) with 1 by lia. reflexivity. }
  exists cs, df, u. split; [reflexivity |]. split; [| auto].
  eexists. exists (S (length (heap w0))). split; [exact H1 |]. auto.
Qed.

Lemma completed_run (self : nat) (base_dir : string) (w w' : world) u df :
  constructed w self u df ->
  write_records self base_dir w = (Ok tt, w') ->
  exists evs, log w' = (log w ++ evs)%list /\
              plan_sections df base_dir u = (evs, None).
Proof.
  intros Hc H.
  destruct (write_records_run self base_dir u df w _ w' Hc H)
    as [_ (evs & Hl & _ & Hok)].
  destruct (Hok eq_refl) as [He Hn]. exists evs. split; [exact Hl |].
  destruct (plan_sections df base_dir u). simpl in *. congruence.
Qed.

Lemma py_eq_str_true (v : json) (k : string) :
  py_eq_str v k = true <-> v = JStr k.
Proof.
  destruct v; simpl; split; try discriminate.
  - intros H. apply String.eqb_eq in H. congruence.
  - intros H. inversion H. apply String.eqb_refl.
Qed.

Lemma col_index_In (name : string) (cols : list string) :
  In name cols -> exists i, col_index name cols = Some i.
Proof.
  intros H. destruct (col_index name cols) as [i|] eqn:E; [eauto |].
  apply col_index_None in E. contradiction.
Qed.


Lemma extract_student_answers_ok (v a : json) :
  extract_student_answers v = Ok a ->
  exists s txt d,
    v = JStr s /\ unicode_escape (str_encode s) = Ok txt /\
    json_loads txt = Ok (JObj d) /\
    a = match dict_get d "student_answers" with
        | Some x => x
        | None => JObj []
        end.
Proof.
  unfold extract_student_answers. destruct v; try discriminate.
  destruct (unicode_escape (str_encode s)) as [txt|] eqn:E1; [| discriminate].
  simpl rbind. destruct (json_loads txt) as [data|] eqn:E2; [| discriminate].
  simpl rbind. destruct data; try discriminate.
  intros H. inversion H. exists s, txt, d. auto.
Qed.

(** C3: in a run of [write_records] that returns, every table written has
    the column [student_answers] after those of [student_df], and in
    every row its value is got from the [state] string of the selected
    row by decoding it with [unicode_escape], parsing the result as JSON
    and taking the entry ['student_answers'] of the object parsed, or the
    empty dict when the object has no such key. *)
Theorem student_answers_from_state
  (database_prefix course_name base_dir : string) (w0 : world) self w w' :
  UngradedProblems database_prefix course_name w0 = (Ok self, w) ->
  write_records self base_dir w = (Ok tt, w') ->
  exists cs df u evs j,
    loaded database_prefix course_name = Ok (cs, df, u) /\
    log w' = (log w ++ evs)%list /\
    col_index "state" (columns df) = Some j /\
    Forall2 (fun wr sp =>
               columns (snd wr) = (columns df ++ ["student_answers"])%list /\
               Forall2 (fun r' r =>
                          exists a s txt d,
                            snd r' = (snd r ++ [a])%list /\
                            nth j (snd r) NaN = JStr s /\
                            unicode_escape (str_encode s) = Ok txt /\
                            json_loads txt = Ok (JObj d) /\
                            a = match dict_get d "student_answers" with
                                | Some x => x
                                | None => JObj []
                                end)
                 (rows (snd wr)) (List.filter (about df (snd (snd sp))) (rows df)))
      (writes evs) (problems_of u).
Proof.
  intros Hc Hw.
  destruct (constructed_by _ _ _ _ _ Hc) as (cs & df & u & Hl & Hcon & _).
  destruct (loaded_table _ _ _ _ _ Hl) as (_ & Hcols & Hnew).
  destruct (col_index_In "state" (columns df)) as [j Hj];
    [apply Hcols; simpl; auto |].
  destruct (completed_run self base_dir w w' u df Hcon Hw) as (evs & Hlog & Hplan).
  exists cs, df, u, evs, j. split; [exact Hl |].
  split; [exact Hlog |]. split; [exact Hj |].
  destruct (plan_sections_requests df base_dir u evs Hplan) as [_ HF].
  eapply List.Forall2_impl; [| exact HF].
  intros wr sp [_ Ht].
  destruct (problem_table_ok df _ _ Ht Hnew) as (j' & Hj' & Hc' & Hrows).
  rewrite Hj in Hj'. inversion Hj'; subst j'. split; [exact Hc' |].
  eapply List.Forall2_impl; [| exact Hrows].
  intros r' r [_ (a & Ha & He)].
  apply extract_student_answers_ok in He as (s & txt & d & H1 & H2 & H3 & H4).
  exists a, s, txt, d. auto.
Qed.

(** C9: [write_records], whatever its outcome, leaves every object that
    was on the heap as it was: the object itself, with the same
    [self.ungraded] and the same reference [self.student_df], and the
    student table, with its six columns and no [student_answers] among
    them; the column is set on the frames made by [.loc], which are new
    objects. *)
Theorem write_records_leaves_object_unchanged
  (database_prefix course_name base_dir : string) (w0 : world) self w r w' :
  UngradedProblems database_prefix course_name w0 = (Ok self, w) ->
  write_records self base_dir w = (r, w') ->
  exists cs df u l,
    nth_error (heap w) self
      = Some (OInstance {| course_structure := Some cs;
                           student_df := Some l;
                           ungraded := Some u |}) /\
    nth_error (heap w) l = Some (OFrame df) /\
    nth_error (heap w') self = nth_error (heap w) self /\
    nth_error (heap w') l = Some (OFrame df) /\
    (forall c, In c (columns df) <->
               In c ["module_id"; "student_id"; "state"; "created"; "modified"; "done"]) /\
    ~ In "student_answers" (columns df) /\
    (forall k o, nth_error (heap w) k = Some o -> nth_error (heap w') k = Some o) /\
    (r = Ok tt ->
     exists evs, log w' = (log w ++ evs)%list /\
                 Forall (fun wr => columns (snd wr) = (columns df ++ ["student_answers"])%list)
                   (writes evs)).
Proof.
  intros Hc Hw.
  destruct (constructed_by _ _ _ _ _ Hc) as (cs & df & u & Hl & Hcon & H1 & H2).
  destruct (loaded_table _ _ _ _ _ Hl) as (_ & Hcols & Hnew).
  destruct (write_records_run self base_dir u df w r w' Hcon Hw) as [[extra Hx] _].
  assert (Hold : forall k o, nth_error (heap w) k = Some o -> nth_error (heap w') k = Some o)
    by (intros k o Hk; rewrite Hx; apply nth_error_old; exact Hk).
  exists cs, df, u, (S self).
  split; [exact H1 |]. split; [exact H2 |].
  split; [rewrite H1; apply Hold; exact H1 |].
  split; [apply Hold; exact H2 |]. split; [exact Hcols |].
  split; [apply col_index_None; exact Hnew |]. split; [exact Hold |].
  intros ->.
  destruct (completed_run self base_dir w w' u df Hcon Hw) as (evs & Hlog & Hplan).
  exists evs. split; [exact Hlog |].
  destruct (plan_sections_requests df base_dir u evs Hplan) as [_ HF].
  revert HF. generalize (writes evs) (problems_of u).
  induction 1 as [|wr sp ws sps [_ Ht] _ IH]; constructor; [| exact IH].
  destruct (problem_table_ok df _ _ Ht Hnew) as (j & _ & Hc' & _). exact Hc'.
Qed.


(** *** Paths *)


Lemma str_app_assoc (a b c : string) : (a ++ b) ++ c = a ++ b ++ c.
Proof.
  induction a as [|x a IH]; [reflexivity |].
  change (String x ((a ++ b) ++ c) = String x (a ++ b ++ c)).
  f_equal. exact IH.
Qed.





(** *** What the extraction needs *)

Lemma dict_get_None (d : dict) (k : string) :
  ~ In k (dict_keys d) -> dict_get d k = None.
Proof.
  intros H. destruct (dict_get d k) eqn:E; [| reflexivity].
  exfalso. apply H. eapply dict_get_key. exact E.
Qed.

Lemma extractable_visited (cs : dict) (item : string * json) (vid : json) :
  extractable (JObj cs) -> In item cs -> container (snd item) false ->
  child_of (snd item) vid -> vert_ok cs vid.
Proof.
  intros (cs' & Heq & HF) Hin [(cat' & Hc' & Hs) (meta & Hm & Hg)] (vids' & Hv' & Hinv).
  inversion Heq; subst cs'; clear Heq.
  rewrite List.Forall_forall in HF. destruct (HF item Hin) as (cat & Hc & Hseq).
  rewrite Hc in Hc'. inversion Hc'; subst cat'.
  destruct (Hseq Hs) as (meta' & g & Hm' & Hg' & Hch).
  rewrite Hm in Hm'. inversion Hm'; subst meta'.
  rewrite Hg in Hg'. inversion Hg'; subst g.
  destruct (Hch eq_refl) as (vids & Hvids & HFv).
  rewrite Hvids in Hv'. inversion Hv'; subst vids'.
  rewrite List.Forall_forall in HFv. exact (HFv vid Hinv).
Qed.

(** C7, as the code has it: [extract_ungraded] returns exactly when the
    course structure is a dict in which every node has ['category'],
    every ['sequential'] node has ['metadata'] to look ['graded'] up in,
    every such node without ['graded'] has ['children'] that can be
    iterated and are keys of the course structure, every vertical so
    named has ['children'] that can be iterated and are keys of nodes
    with a ['category'], and, for every problem among them, both the
    vertical and the problem have a ['display_name'] in their
    ['metadata'], that of the vertical hashable.  A child id of an
    ungraded container, or of one of its verticals, that is not a key
    makes the lookup raise [KeyError] and the extraction raise. *)
Theorem extraction_returns_iff_extractable (cs : dict) :
  ((exists u, ungraded_of (JObj cs) = Ok u) <->
   Forall (fun item => node_ok cs (snd item)) cs) /\
  (forall item id,
     In item cs -> container (snd item) false ->
     (child_of (snd item) (JStr id) \/
      exists vid vert, child_of (snd item) vid /\ dict_subscript cs vid = Ok vert /\
                       child_of vert (JStr id)) ->
     ~ In id (dict_keys cs) ->
     dict_subscript cs (JStr id) = Raise KeyError /\
     exists e, ungraded_of (JObj cs) = Raise e).
Proof.
  split.
  - rewrite ungraded_of_ok_iff. unfold extractable. split.
    + intros (cs' & Heq & HF). inversion Heq; subst. exact HF.
    + intros HF. exists cs. auto.
  - intros item id Hin Hcont Hchild Hkey.
    assert (Hlook : dict_subscript cs (JStr id) = Raise KeyError)
      by (simpl; rewrite (dict_get_None cs id Hkey); reflexivity).
    split; [exact Hlook |].
    destruct (ungraded_of (JObj cs)) as [u|e] eqn:E; [| eauto].
    exfalso.
    assert (Hx : extractable (JObj cs)) by (apply ungraded_of_ok_iff; eauto).
    destruct Hchild as [Hc | (vid & vert & Hc & Hv & Hp)].
    + destruct (extractable_visited cs item (JStr id) Hx Hin Hcont Hc)
        as (vert & ids & Hsub & _).
      congruence.
    + destruct (extractable_visited cs item vid Hx Hin Hcont Hc)
        as (vert' & ids & Hsub & Hids & HFc).
      rewrite Hv in Hsub. inversion Hsub; subst vert'.
      destruct Hp as (ids' & Hids' & Hinp).
      rewrite Hids in Hids'. inversion Hids'; subst ids'.
      rewrite List.Forall_forall in HFc.
      destruct (HFc (JStr id) Hinp) as (child & cat & Hsub' & _).
      congruence.
Qed.


(** *** Colliding display names *)

Lemma visited_problem_reachable (cs : dict) (vert : json) (pid : string) :
  extractable (JObj cs) -> visited cs vert -> problem_in cs vert pid ->
  exists sec hk name,
    display_name vert = Ok sec /\ py_key sec = Some hk /\
    reachable cs hk (name, pid).
Proof.
  intros Hx (item & vid & Hin & Hcont & Hvid & Hvert) [Hpid (child & Hget & Hpc)].
  destruct (extractable_visited cs item vid Hx Hin Hcont Hvid)
    as (vert' & ids & Hsub & Hids & HFc).
  rewrite Hvert in Hsub. inversion Hsub; subst vert'.
  destruct Hpid as (ids' & Hids' & Hinp).
  rewrite Hids in Hids'. inversion Hids'; subst ids'.
  rewrite List.Forall_forall in HFc.
  destruct (HFc (JStr pid) Hinp) as (child' & ccat & Hsub' & Hccat & Hprob).
  simpl in Hsub'. rewrite Hget in Hsub'. inversion Hsub'; subst child'.
  destruct Hpc as (ccat' & Hccat' & Hp).
  rewrite Hccat in Hccat'. inversion Hccat'; subst ccat'.
  destruct (Hprob Hp) as (sec & hk & name & Hsec & Hk & Hname).
  exists sec, hk, name. split; [exact Hsec |]. split; [exact Hk |].
  exists item. split; [exact Hin |]. split; [exact Hcont |].
  exists vid. split; [exact Hvid |]. exists vert. split; [exact Hvert |].
  exists (JStr pid). split; [exists ids; auto |].
  split; [reflexivity |]. exists child, sec. simpl.
  split; [exact Hget |]. split; [exists ccat; auto |]. auto.
Qed.

Lemma NoDup_map_inj {A B} (f : A -> B) (l : list A) (x y : A) :
  List.NoDup (map f l) -> In x l -> In y l -> f x = f y -> x = y.
Proof.
  induction l as [|a l IH]; simpl; intros Hnd Hx Hy Hf; [destruct Hx |].
  inversion Hnd as [|? ? Hn Hnd']; subst.
  destruct Hx as [-> | Hx], Hy as [-> | Hy].
  - reflexivity.
  - exfalso. apply Hn. rewrite Hf. apply in_map. exact Hy.
  - exfalso. apply Hn. rewrite <- Hf. apply in_map. exact Hx.
  - auto.
Qed.

Lemma keys_distinct_entry (u : udict) (hk : hkey) (e1 e2 : json * list problem) :
  keys_distinct u -> In e1 u -> In e2 u ->
  py_key (fst e1) = Some hk -> py_key (fst e2) = Some hk -> e1 = e2.
Proof.
  intros [Hnd _] H1 H2 Hk1 Hk2.
  apply (NoDup_map_inj (fun e => py_key (fst e)) u); auto. congruence.
Qed.

Lemma fold_store (evs : list event) (m : gmap string frame) (p : string) :
  fold_left (fun m e => match e with
                        | ToCsv q _ f => <[q := f]> m
                        | _ => m
                        end) evs m !! p
  = match last_write p evs with
    | Some t => Some t
    | None => m !! p
    end.
Proof.
  revert m. induction evs as [|e evs IH]; intros m; simpl; [reflexivity |].
  rewrite IH. destruct e as [s | d | q sep f]; simpl; try reflexivity.
  destruct (last_write p evs); [reflexivity |].
  destruct (String.eqb q p) eqn:E.
  - apply String.eqb_eq in E. subst. apply lookup_insert_eq.
  - apply String.eqb_neq in E. apply lookup_insert_ne. exact E.
Qed.

Lemma last_write_app (p : string) (a b : list event) :
  last_write p (a ++ b) = match last_write p b with
                          | Some t => Some t
                          | None => last_write p a
                          end.
Proof.
  induction a as [|e a IH]; simpl.
  - destruct (last_write p b); reflexivity.
  - destruct e; simpl; rewrite ?IH; try reflexivity.
    destruct (last_write p b); reflexivity.
Qed.

Lemma nth_error_two {A} (l : list A) (i j : nat) (x y : A) :
  i < j -> nth_error l i = Some x -> nth_error l j = Some y ->
  exists l1 l2 l3, l = (l1 ++ x :: l2 ++ y :: l3)%list.
Proof.
  intros Hij Hi Hj.
  destruct (nth_error_split l i Hi) as (l1 & r & -> & Hlen).
  rewrite nth_error_app2 in Hj by lia.
  replace (j - length l1) with (S (j - length l1 - 1)) in Hj by lia.
  simpl in Hj.
  destruct (nth_error_split r _ Hj) as (l2 & l3 & -> & _).
  exists l1, l2, l3. reflexivity.
Qed.

Lemma problem_request_ok (df : frame) (section : json) (p : problem) (ev : event) :
  problem_request df section p = Ok ev ->
  exists t, problem_table df (snd p) = Ok t /\
            ev = ToCsv (outfname section (fst p)) tab t.
Proof.
  unfold problem_request. destruct (problem_table df (snd p)) as [t|]; [| discriminate].
  simpl. intros H. inversion H. eauto.
Qed.

(** The requests of a returning run around two problems of a section. *)
Lemma plan_two_problems (df : frame) (base_dir : string) (u : udict) evs
  (sec : json) (ps : list problem) (i j : nat) (x y : problem) :
  plan_sections df base_dir u = (evs, None) ->
  In (sec, ps) u -> i < j ->
  nth_error ps i = Some x -> nth_error ps j = Some y ->
  exists a b c t1 t2,
    evs = (a ++ ToCsv (outfname sec (fst x)) tab t1
             :: b ++ ToCsv (outfname sec (fst y)) tab t2 :: c)%list /\
    problem_table df (snd x) = Ok t1 /\ problem_table df (snd y) = Ok t2.
Proof.
  intros Hplan Hin Hij Hi Hj.
  apply plan_sections_complete in Hplan as (evss & -> & HF).
  apply in_split in Hin as (u1 & u2 & ->).
  apply List.Forall2_app_inv_r in HF as (e1 & e2' & _ & HF2 & ->).
  inversion HF2 as [|sevs item e2 u2' (dir & pevs & -> & _ & Hp) _]; subst.
  simpl in Hp.
  destruct (nth_error_two ps i j x y Hij Hi Hj) as (p1 & p2 & p3 & ->).
  apply List.Forall2_app_inv_r in Hp as (q1 & r1 & _ & Hp & ->).
  inversion Hp as [|ex ? r2 ? Hx Hp']; subst.
  apply List.Forall2_app_inv_r in Hp' as (q2 & r3 & _ & Hp' & ->).
  inversion Hp' as [|ey ? q3 ? Hy _]; subst.
  apply problem_request_ok in Hx as (t1 & Ht1 & ->).
  apply problem_request_ok in Hy as (t2 & Ht2 & ->).
  exists (concat e1 ++ MakeDirs dir :: q1)%list, q2, (q3 ++ concat e2)%list, t1, t2.
  split; [| auto].
  rewrite concat_app. simpl. rewrite <- !app_assoc. simpl.
  rewrite <- !app_assoc. simpl. reflexivity.
Qed.

(** C10: on the object the constructor built, the sections of
    [self.ungraded] have distinct keys, and the problems of two visited
    verticals with the same display name are in the one list under that
    name; and in a run of [write_records] that returns, two problems of a
    section with the same display name are written to the same path, the
    later after the earlier, and the table left under that path is the
    one written last to it, not the earlier one. *)
Theorem display_name_collisions_merge
  (database_prefix course_name : string) (w0 : world) self w :
  UngradedProblems database_prefix course_name w0 = (Ok self, w) ->
  exists cs df u,
    loaded database_prefix course_name = Ok (JObj cs, df, u) /\
    constructed w self u df /\
    keys_distinct u /\
    (forall vert1 vert2 sec hk pid1 pid2,
       visited cs vert1 -> visited cs vert2 ->
       display_name vert1 = Ok sec -> display_name vert2 = Ok sec ->
       py_key sec = Some hk ->
       problem_in cs vert1 pid1 -> problem_in cs vert2 pid2 ->
       exists k l name1 name2,
         In (k, l) u /\ py_key k = Some hk /\
         In (name1, pid1) l /\ In (name2, pid2) l /\
         forall k' l', In (k', l') u -> py_key k' = Some hk -> (k', l') = (k, l)) /\
    (forall base_dir w' sec ps i j name pid1 pid2,
       write_records self base_dir w = (Ok tt, w') ->
       In (sec, ps) u -> i < j ->
       nth_error ps i = Some (name, pid1) ->
       nth_error ps j = Some (name, pid2) ->
       exists a b c t1 t2,
         log w' = (log w ++ a ++ ToCsv (outfname sec name) tab t1
                     :: b ++ ToCsv (outfname sec name) tab t2 :: c)%list /\
         problem_table df pid1 = Ok t1 /\ problem_table df pid2 = Ok t2 /\
         file_store (log w') !! outfname sec name
         = Some (match last_write (outfname sec name) c with
                 | Some t => t
                 | None => t2
                 end)).
Proof.
  intros Hc.
  destruct (constructed_by _ _ _ _ _ Hc) as (c & df & u & Hl & Hcon & _).
  destruct (loaded_table _ _ _ _ _ Hl) as (Hu & _ & _).
  assert (Hx : extractable c) by (apply ungraded_of_ok_iff; eauto).
  destruct Hx as (cs & -> & HF).
  assert (Hx : extractable (JObj cs)) by (exists cs; auto).
  pose proof (ungraded_of_keys _ _ Hu) as Hkeys.
  exists cs, df, u. split; [exact Hl |]. split; [exact Hcon |].
  split; [exact Hkeys |]. split.
  - intros vert1 vert2 sec hk pid1 pid2 Hv1 Hv2 Hs1 Hs2 Hk Hp1 Hp2.
    destruct (visited_problem_reachable cs vert1 pid1 Hx Hv1 Hp1)
      as (sec1 & hk1 & name1 & Hs1' & Hk1 & Hr1).
    destruct (visited_problem_reachable cs vert2 pid2 Hx Hv2 Hp2)
      as (sec2 & hk2 & name2 & Hs2' & Hk2 & Hr2).
    rewrite Hs1 in Hs1'. inversion Hs1'; subst sec1.
    rewrite Hs2 in Hs2'. inversion Hs2'; subst sec2.
    rewrite Hk in Hk1, Hk2. inversion Hk1; subst hk1. inversion Hk2; subst hk2.
    apply (ungraded_of_recorded cs u Hu) in Hr1 as (k1 & l1 & Hin1 & Hkk1 & Hx1).
    apply (ungraded_of_recorded cs u Hu) in Hr2 as (k2 & l2 & Hin2 & Hkk2 & Hx2).
    assert (E : (k2, l2) = (k1, l1))
      by (apply (keys_distinct_entry u hk); auto).
    inversion E; subst k2 l2.
    exists k1, l1, name1, name2. split; [exact Hin1 |]. split; [exact Hkk1 |].
    split; [exact Hx1 |]. split; [exact Hx2 |].
    intros k' l' Hin' Hk'. apply (keys_distinct_entry u hk); auto.
  - intros base_dir w' sec ps i j name pid1 pid2 Hw Hin Hij Hi Hj.
    destruct (completed_run self base_dir w w' u df Hcon Hw) as (evs & Hlog & Hplan).
    destruct (plan_two_problems df base_dir u evs sec ps i j _ _ Hplan Hin Hij Hi Hj)
      as (a & b & c & t1 & t2 & -> & Ht1 & Ht2).
    simpl fst in *. simpl snd in *.
    exists a, b, c, t1, t2. split; [exact Hlog |]. split; [exact Ht1 |].
    split; [exact Ht2 |].
    rewrite Hlog. unfold file_store. rewrite fold_store.
    rewrite !last_write_app. simpl last_write. rewrite !last_write_app.
    simpl last_write. rewrite String.eqb_refl.
    destruct (last_write (outfname sec name) c); reflexivity.
Qed.


(** *** Two runs *)

Lemma is_prefix_comparable {A} (a b full : list A) :
  is_prefix a full -> is_prefix b full -> is_prefix a b \/ is_prefix b a.
Proof.
  revert b full. induction a as [|x a IH]; intros b full Ha Hb.
  - left. apply is_prefix_nil.
  - destruct b as [|y b]; [right; apply is_prefix_nil |].
    destruct Ha as [ra ->]. destruct Hb as [rb Hb]. simpl in Hb.
    inversion Hb as [[Hxy Hrest]]. subst y.
    destruct (IH b (a ++ ra)%list) as [H | H].
    + exists ra. reflexivity.
    + exists rb. exact Hrest.
    + left. apply is_prefix_cons. exact H.
    + right. apply is_prefix_cons. exact H.
Qed.


(** *** The walk and what it records *)

(** A loop whose iterations fold a list of entries into the state folds
    the lists of its items, one after the other. *)
Lemma for_each_fold {A S E} (step : S -> E -> S) (F : A -> list E)
  (l : list A) (body : A -> M S unit) :
  (forall x s s', In x l -> body x s = (Ok tt, s') -> s' = fold_left step (F x) s) ->
  forall s s', for_each l body s = (Ok tt, s') ->
               s' = fold_left step (flat_map F l) s.
Proof.
  induction l as [|x l IH]; intros Hb s s' H.
  - inversion H; reflexivity.
  - rewrite for_each_cons in H. apply bind_ok_inv in H as ([] & s1 & H1 & H2).
    simpl. rewrite fold_left_app.
    rewrite <- (Hb x s s1 (or_introl eq_refl) H1).
    apply (IH (fun y t t' Hy => Hb y t t' (or_intror Hy)) s1 s' H2).
Qed.

Lemma add_child_walk (cs : dict) (vert cid : json) (u u' : udict) :
  add_child cs vert cid u = (Ok tt, u') ->
  u' = fold_left record (child_entries cs vert cid) u.
Proof.
  rewrite add_child_eq. unfold child_entries, is_category.
  destruct (dict_subscript cs cid) as [child|e] eqn:Hc; [| discriminate].
  apply dict_subscript_ok in Hc as (pid & -> & Hc). rewrite Hc.
  destruct (py_getitem child "category") as [cat|e]; [| discriminate].
  destruct (py_eq_str cat "problem"); [| intros H; inversion H; reflexivity].
  destruct (display_name vert) as [sec|]; [| discriminate].
  destruct (py_key sec) as [hk|] eqn:Hk; [| discriminate].
  destruct (display_name child) as [name|]; [| discriminate].
  intros H; inversion H. unfold record. simpl. rewrite Hk. reflexivity.
Qed.

Lemma add_from_vid_walk (cs : dict) (vid : json) (u u' : udict) :
  add_from_vid cs vid u = (Ok tt, u') ->
  u' = fold_left record (vert_entries cs vid) u.
Proof.
  rewrite add_from_vid_eq. unfold vert_entries, listed.
  destruct (dict_subscript cs vid) as [vert|e]; [| discriminate].
  rewrite add_from_vert_eq.
  destruct (children vert) as [ids|e]; [| discriminate].
  apply for_each_fold. intros cid s s' _. apply add_child_walk.
Qed.

Lemma visit_node_walk (cs : dict) (item : string * json) (u u' : udict) :
  visit_node cs item u = (Ok tt, u') ->
  u' = fold_left record (node_entries cs item) u.
Proof.
  rewrite visit_node_eq.
  unfold node_entries, is_ungraded_container, is_category, listed.
  destruct (py_getitem (snd item) "category") as [cat|e]; [| discriminate].
  destruct (py_eq_str cat "sequential");
    [| intros H; inversion H; reflexivity].
  destruct (py_getitem (snd item) "metadata") as [meta|e]; [| discriminate].
  destruct (py_contains meta "graded") as [[|]|e];
    [intros H; inversion H; reflexivity | | discriminate].
  simpl.
  destruct (children (snd item)) as [vids|e]; [| discriminate].
  apply for_each_fold. intros vid s s' _. apply add_from_vid_walk.
Qed.

Lemma ungraded_of_walk (cs : dict) (u : udict) :
  ungraded_of (JObj cs) = Ok u -> u = fold_left record (walk cs) [].
Proof.
  unfold ungraded_of, extract_loops.
  destruct (for_each cs (visit_node cs) []) as [[[]|e] u'] eqn:E; [| discriminate].
  intros H. inversion H; subst.
  apply (for_each_fold record (node_entries cs) cs (visit_node cs)); [| exact E].
  intros item s s' _. apply visit_node_walk.
Qed.

Lemma ulookup_setdefault (hk : hkey) (k : json) (u : udict) (hk' : hkey) :
  py_key k = Some hk ->
  ulookup hk' (setdefault hk k u) =
  match ulookup hk' u with
  | Some l => Some l
  | None => if hkey_eqb hk hk' then Some [] else None
  end.
Proof.
  intros Hk. induction u as [|[k0 l0] u IH]; simpl.
  - unfold same_key. rewrite Hk. reflexivity.
  - destruct (same_key hk k0) eqn:E; simpl.
    + destruct (same_key hk' k0) eqn:E'; [reflexivity |].
      destruct (ulookup hk' u); [reflexivity |].
      destruct (hkey_eqb hk hk') eqn:Heq; [| reflexivity].
      apply hkey_eqb_eq in Heq. subst. congruence.
    + destruct (same_key hk' k0); [reflexivity | exact IH].
Qed.

Lemma ulookup_append_at (hk : hkey) (x : problem) (u : udict) (hk' : hkey) :
  ulookup hk' (append_at hk x u) =
  if hkey_eqb hk hk'
  then option_map (fun l => (l ++ [x])%list) (ulookup hk' u)
  else ulookup hk' u.
Proof.
  induction u as [|[k0 l0] u IH]; simpl.
  - destruct (hkey_eqb hk hk'); reflexivity.
  - destruct (hkey_eqb hk hk') eqn:Heq.
    + apply hkey_eqb_eq in Heq. subst hk'.
      destruct (same_key hk k0) eqn:E; simpl; rewrite E; [reflexivity | exact IH].
    + destruct (same_key hk k0) eqn:E; simpl.
      * destruct (same_key hk' k0) eqn:E'; [| reflexivity].
        apply same_key_eq in E, E'.
        assert (hk = hk') by congruence. subst.
        assert (hkey_eqb hk' hk' = true) by (apply hkey_eqb_eq; reflexivity).
        congruence.
      * destruct (same_key hk' k0); [reflexivity | exact IH].
Qed.

Lemma ulookup_record (u : udict) (e : json * problem) (hk : hkey) :
  ulookup hk (record u e) =
  if same_key hk (fst e)
  then Some (match ulookup hk u with Some l => l | None => [] end ++ [snd e])%list
  else ulookup hk u.
Proof.
  unfold record, same_key.
  destruct (py_key (fst e)) as [k|] eqn:Hk; [| reflexivity].
  rewrite ulookup_append_at, (ulookup_setdefault k (fst e) u hk Hk).
  destruct (hkey_eqb k hk); destruct (ulookup hk u); reflexivity.
Qed.

Lemma ulookup_fold (es : list (json * problem)) (hk : hkey) :
  forall u,
    ulookup hk (fold_left record es u) =
    match under_section hk es with
    | [] => ulookup hk u
    | l => Some (match ulookup hk u with Some l0 => l0 | None => [] end ++ l)%list
    end.
Proof.
  unfold under_section.
  induction es as [|e es IH]; intros u; simpl; [reflexivity |].
  rewrite IH, ulookup_record.
  destruct (same_key hk (fst e)); simpl; [| reflexivity].
  destruct (map snd (List.filter (fun e0 => same_key hk (fst e0)) es));
    [reflexivity |].
  rewrite <- app_assoc. reflexivity.
Qed.

Lemma ulookup_In (u : udict) (hk : hkey) (k : json) (l : list problem) :
  keys_distinct u -> In (k, l) u -> py_key k = Some hk -> ulookup hk u = Some l.
Proof.
  standalone.
  intros Hd. induction u as [|[k0 l0] u IH]; simpl; [intros [] |].
  intros [H | H] Hk.
  - inversion H; subst. rewrite (proj2 (same_key_eq hk k) Hk). reflexivity.
  - destruct (same_key hk k0) eqn:E.
    + apply same_key_eq in E.
      assert (Heq : (k0, l0) = (k, l)).
      { apply (keys_distinct_entry ((k0, l0) :: u) hk); simpl; auto. }
      congruence.
    + apply IH; [| exact H | exact Hk].
      destruct Hd as [Hnd Hn]. unfold keys_distinct. simpl in Hnd, Hn.
      inversion Hnd; subst. split; [assumption | tauto].
Qed.

Lemma ulookup_Some (u : udict) (hk : hkey) (l : list problem) :
  ulookup hk u = Some l -> exists k, In (k, l) u /\ py_key k = Some hk.
Proof.
  induction u as [|[k0 l0] u IH]; simpl; [discriminate |].
  destruct (same_key hk k0) eqn:E.
  - intros H. inversion H; subst. apply same_key_eq in E. eauto.
  - intros H. destruct (IH H) as (k & Hin & Hk). eauto.
Qed.

Lemma ungraded_of_lookup (cs : dict) (u : udict) (hk : hkey) :
  ungraded_of (JObj cs) = Ok u ->
  ulookup hk u = match under_section hk (walk cs) with
                 | [] => None
                 | l => Some l
                 end.
Proof.
  intros H. rewrite (ungraded_of_walk _ _ H), ulookup_fold. reflexivity.
Qed.

Lemma ungraded_entry_walk (cs : dict) (u : udict) (sec : json) (l : list problem) :
  ungraded_of (JObj cs) = Ok u -> In (sec, l) u ->
  l <> [] /\ exists hk, py_key sec = Some hk /\ l = under_section hk (walk cs).
Proof.
  intros H Hin. pose proof (ungraded_of_keys _ _ H) as Hd.
  destruct (py_key sec) as [hk|] eqn:Hk.
  - pose proof (ulookup_In u hk sec l Hd Hin Hk) as Hu.
    rewrite (ungraded_of_lookup cs u hk H) in Hu.
    destruct (under_section hk (walk cs)) eqn:E; [discriminate |].
    inversion Hu; subst. split; [discriminate | eauto].
  - exfalso. apply (proj2 Hd). unfold ukeys. rewrite <- Hk.
    apply (in_map (fun e => py_key (fst e)) u (sec, l) Hin).
Qed.

(** X1: when the extraction returns, [self.ungraded] groups the walk by
    section and keeps its order: the list under a section is exactly the
    problems that the loops meet under that section, in the order in which
    they meet them and as many times as they meet them, so no list is
    empty; and every section under which a problem is met has its entry. *)
Theorem ungraded_groups_walk_in_order (cs : dict) (u : udict) :
  ungraded_of (JObj cs) = Ok u ->
  (forall sec l, In (sec, l) u ->
     l <> [] /\
     exists hk, py_key sec = Some hk /\ l = under_section hk (walk cs)) /\
  (forall hk, under_section hk (walk cs) <> [] ->
     exists sec, py_key sec = Some hk /\
                 In (sec, under_section hk (walk cs)) u).
Proof.
  intros H. split.
  - intros sec l Hin. exact (ungraded_entry_walk cs u sec l H Hin).
  - intros hk Hne. pose proof (ungraded_of_lookup cs u hk H) as Hl.
    destruct (under_section hk (walk cs)) eqn:E; [congruence |].
    apply ulookup_Some in Hl as (k & Hin & Hk). eauto.
Qed.


(** *** [write_records] when no request is refused *)

Lemma write_problems_accepted (self : nat) (section : json) (u : udict) (df : frame)
  (ps : list problem) :
  (forall l e, os_error l e = None) ->
  forall w r w',
    constructed w self u df ->
    for_each ps (write_problem self section) w = (r, w') ->
    (exists extra, heap w' = (heap w ++ extra)%list) /\
    log w' = (log w ++ fst (plan_problems df section ps))%list /\
    r = match snd (plan_problems df section ps) with
        | None => Ok tt
        | Some e => Raise e
        end.
Proof.
  intros Hos. induction ps as [|p ps IH]; intros w r w' Hc H.
  - inversion H; subst. simpl. rewrite app_nil_r.
    split; [exists []; rewrite app_nil_r; reflexivity | auto].
  - rewrite for_each_cons in H. simpl plan_problems.
    apply bind_inv in H as [(a & w1 & H1 & H2) | (e & H1 & ->)].
    + destruct (write_problem_run self section p w u df _ _ Hc H1) as [[x1 Hx1] Hp].
      destruct (problem_request df section p) as [ev|e]; [| destruct Hp; discriminate].
      rewrite Hos in Hp. destruct Hp as [_ Hlog].
      destruct (IH w1 r w' (constructed_ext w w1 self u df x1 Hc Hx1) H2)
        as [[x2 Hx2] [Hl Hr]].
      destruct (plan_problems df section ps) as [pl pr]. simpl in *.
      split; [exists (x1 ++ x2)%list; rewrite Hx2, Hx1, app_assoc; reflexivity |].
      rewrite Hl, Hlog, <- app_assoc. simpl. auto.
    + destruct (write_problem_run self section p w u df _ _ Hc H1) as [Hx Hp].
      split; [exact Hx |].
      destruct (problem_request df section p) as [ev|e'].
      * rewrite Hos in Hp. destruct Hp; discriminate.
      * destruct Hp as [Hr Hl]. simpl. rewrite app_nil_r. auto.
Qed.

Lemma write_sections_accepted (self : nat) (base_dir : string) (u : udict) (df : frame)
  (us : udict) :
  (forall l e, os_error l e = None) ->
  forall w r w',
    constructed w self u df ->
    for_each us (write_section self base_dir) w = (r, w') ->
    (exists extra, heap w' = (heap w ++ extra)%list) /\
    log w' = (log w ++ fst (plan_sections df base_dir us))%list /\
    r = match snd (plan_sections df base_dir us) with
        | None => Ok tt
        | Some e => Raise e
        end.
Proof.
  intros Hos. induction us as [|item us IH]; intros w r w' Hc H.
  - inversion H; subst. simpl. rewrite app_nil_r.
    split; [exists []; rewrite app_nil_r; reflexivity | auto].
  - rewrite for_each_cons in H. simpl plan_sections.
    unfold write_section in H at 1. cbv zeta in H.
    unfold bind at 1 in H. rewrite bind_lift in H.
    destruct (path_join base_dir (fst item)) as [dir|e].
    2:{ inversion H; subst. simpl. rewrite app_nil_r.
        split; [exists []; rewrite app_nil_r; reflexivity | auto]. }
    unfold bind at 1 in H. unfold request in H. rewrite Hos in H.
    set (w0 := {| heap := heap w; log := (log w ++ [MakeDirs dir])%list |}) in H.
    assert (Hc0 : constructed w0 self u df)
      by (apply (constructed_ext w w0 self u df []);
          [exact Hc | simpl; rewrite app_nil_r; reflexivity]).
    destruct (for_each (snd item) (write_problem self (fst item)) w0)
      as [r1 w1] eqn:E.
    destruct (write_problems_accepted self (fst item) u df (snd item) Hos w0 r1 w1 Hc0 E)
      as [[x1 Hx1] [Hl Hr]].
    destruct (plan_problems df (fst item) (snd item)) as [pl pr].
    cbn [fst snd] in Hl, Hr. change (heap w0) with (heap w) in Hx1.
    change (log w0) with (log w ++ [MakeDirs dir])%list in Hl.
    destruct pr as [e|]; subst r1.
    + inversion H; subst r w'; clear H. cbn [fst snd].
      split; [exists x1; exact Hx1 |].
      rewrite Hl, <- app_assoc. auto.
    + assert (Hc1 : constructed w1 self u df)
        by (apply (constructed_ext w w1 self u df x1 Hc Hx1)).
      destruct (IH w1 r w' Hc1 H) as [[x2 Hx2] [Hl2 Hr2]].
      destruct (plan_sections df base_dir us) as [pl' pr']. cbn [fst snd] in *.
      split; [exists (x1 ++ x2)%list; rewrite Hx2, Hx1, app_assoc; reflexivity |].
      rewrite Hl2, Hl, <- !app_assoc. auto.
Qed.

(** With an operating system that refuses nothing, [write_records] makes
    the requests of the plan and ends as the plan does. *)
Lemma write_records_accepted (self : nat) (base_dir : string) (u : udict) (df : frame)
  (w : world) r w' :
  (forall l e, os_error l e = None) ->
  constructed w self u df ->
  write_records self base_dir w = (r, w') ->
  (exists extra, heap w' = (heap w ++ extra)%list) /\
  log w' = (log w ++ fst (plan_sections df base_dir u))%list /\
  r = match snd (plan_sections df base_dir u) with
      | None => Ok tt
      | Some e => Raise e
      end.
Proof.
  intros Hos Hc H. pose proof Hc as (inst & l & H1 & H2 & _).
  unfold write_records in H. rewrite (bind_getattr self ungraded _ w inst u H1 H2) in H.
  exact (write_sections_accepted self base_dir u df u Hos w r w' Hc H).
Qed.


(** *** When [write_records] returns *)

Lemma map_result_ok_iff {A B} (f : A -> result B) (l : list A) :
  (exists ys, map_result f l = Ok ys) <-> Forall (fun x => exists y, f x = Ok y) l.
Proof.
  induction l as [|x l IH]; simpl.
  - split; [constructor | eauto].
  - split.
    + intros [ys H]. destruct (f x) as [y|] eqn:E; [| discriminate].
      destruct (map_result f l) as [ys'|]; [| discriminate].
      constructor; [eauto | apply IH; eauto].
    + intros H. inversion H as [|? ? [y Hy] Hl]; subst.
      apply IH in Hl as [ys Hys]. rewrite Hy, Hys. eauto.
Qed.

Lemma state_parses_iff (v : json) :
  (exists a, extract_student_answers v = Ok a) <-> state_parses v.
Proof.
  split.
  - intros [a H].
    apply extract_student_answers_ok in H as (s & txt & d & ? & ? & ? & _).
    exists s, txt, d. auto.
  - intros (s & txt & d & -> & H1 & H2). unfold extract_student_answers.
    rewrite H1. simpl rbind. rewrite H2. simpl. eauto.
Qed.

Lemma problem_table_returns (df : frame) (pid : string) (i j : nat) :
  col_index "module_id" (columns df) = Some i ->
  col_index "state" (columns df) = Some j ->
  (exists t, problem_table df pid = Ok t) <-> problem_parses df j pid.
Proof.
  intros Hi Hj. unfold problem_table, selection, frame_column.
  rewrite Hi. cbn [rbind].
  unfold answered, frame_column. cbn [columns frame_loc rows]. rewrite Hj.
  cbn [rbind]. rewrite map_map, select_map.
  set (sel := List.filter (fun r : nat * list json => py_eq_str (nth i (snd r) NaN) pid)
                (rows df)).
  assert (Hsel : forall r, In r sel <-> In r (rows df) /\ about df pid r = true).
  { intros r. unfold sel, about. rewrite Hi. apply filter_In. }
  split.
  - intros [t H] r Hr Hab. apply state_parses_iff.
    destruct (map_result extract_student_answers
                (map (fun r : nat * list json => nth j (snd r) NaN) sel))
      as [ys|] eqn:E; [| discriminate].
    pose proof (proj1 (map_result_ok_iff _ _) (ex_intro _ ys E)) as HF.
    rewrite List.Forall_forall in HF. apply HF.
    apply (in_map (fun r : nat * list json => nth j (snd r) NaN)).
    apply Hsel. auto.
  - intros H.
    destruct (proj2 (map_result_ok_iff extract_student_answers
                (map (fun r : nat * list json => nth j (snd r) NaN) sel)))
      as [ys Hys]; [| rewrite Hys; eauto].
    apply List.Forall_forall. intros v Hv.
    apply in_map_iff in Hv as (r & <- & Hr). apply Hsel in Hr as [Hr Hab].
    apply state_parses_iff. exact (H r Hr Hab).
Qed.


Lemma path_join_ok (base_dir : string) (sec : json) :
  (exists dir, path_join base_dir sec = Ok dir) <-> exists s, sec = JStr s.
Proof.
  destruct sec; simpl; split; intros [x H]; try discriminate; eauto.
Qed.

Lemma plan_problems_none (df : frame) (section : json) (ps : list problem) :
  snd (plan_problems df section ps) = None <->
  Forall (fun p => exists t, problem_table df (snd p) = Ok t) ps.
Proof.
  induction ps as [|p ps IH]; simpl.
  - split; [constructor | reflexivity].
  - unfold problem_request.
    destruct (problem_table df (snd p)) as [t|e] eqn:E; simpl rbind.
    + destruct (plan_problems df section ps) as [evs r]. simpl in *.
      rewrite IH. split; [constructor; eauto | inversion 1; assumption].
    + simpl. split; [discriminate |].
      inversion 1 as [|? ? [t Ht]]. congruence.
Qed.

Lemma plan_sections_none (df : frame) (base_dir : string) (u : udict) :
  snd (plan_sections df base_dir u) = None <->
  Forall (fun item =>
            (exists s, fst item = JStr s) /\
            Forall (fun p => exists t, problem_table df (snd p) = Ok t) (snd item)) u.
Proof.
  induction u as [|item u IH]; simpl.
  - split; [constructor | reflexivity].
  - pose proof (path_join_ok base_dir (fst item)) as Hj.
    pose proof (plan_problems_none df (fst item) (snd item)) as Hp.
    destruct (path_join base_dir (fst item)) as [dir|e].
    + destruct (plan_problems df (fst item) (snd item)) as [evs [e|]]; simpl in Hp.
      * simpl. split; [discriminate |].
        inversion 1 as [|? ? [_ Hps]]. apply Hp in Hps. discriminate.
      * destruct (plan_sections df base_dir u) as [evs' r]. simpl in *.
        rewrite IH. split.
        -- intros H. constructor; [| exact H].
           split; [apply Hj; eauto | apply Hp; reflexivity].
        -- inversion 1; assumption.
    + simpl. split; [discriminate |].
      inversion 1 as [|? ? [Hs _]]. apply Hj in Hs as [dir Hd]. discriminate.
Qed.

Lemma section_writes_tables (df : frame) (i j : nat) (u : udict) :
  col_index "module_id" (columns df) = Some i ->
  col_index "state" (columns df) = Some j ->
  Forall (section_writes df j) u <->
  Forall (fun item =>
            (exists s, fst item = JStr s) /\
            Forall (fun p => exists t, problem_table df (snd p) = Ok t) (snd item)) u.
Proof.
  intros Hi Hj. rewrite !List.Forall_forall.
  split; intros H item Hin; destruct (H item Hin) as [Hs Hp]; (split; [exact Hs |]).
  - apply List.Forall_forall. intros p Hpin.
    apply (problem_table_returns df (snd p) i j Hi Hj). exact (Hp p Hpin).
  - intros p Hpin. apply (problem_table_returns df (snd p) i j Hi Hj).
    rewrite List.Forall_forall in Hp. exact (Hp p Hpin).
Qed.

(** X6: [write_records] returns only if every section name is a string
    and, for every recorded problem, the state of every row of the student
    table about it is a string that decodes to a JSON object; when the
    operating system refuses nothing this is also enough.  The state of a
    row that no recorded problem selects is never read. *)
Theorem write_records_returns_iff_selected_states_parse
  (self : nat) (base_dir : string) (w : world) (u : udict) (df : frame) (i j : nat) :
  constructed w self u df ->
  col_index "module_id" (columns df) = Some i ->
  col_index "state" (columns df) = Some j ->
  ((exists w', write_records self base_dir w = (Ok tt, w')) ->
   Forall (section_writes df j) u) /\
  ((forall l e, os_error l e = None) ->
   Forall (section_writes df j) u ->
   exists w', write_records self base_dir w = (Ok tt, w')).
Proof.
  intros Hc Hi Hj. split.
  - intros [w' H]. apply (section_writes_tables df i j u Hi Hj).
    apply (plan_sections_none df base_dir).
    destruct (completed_run self base_dir w w' u df Hc H) as (evs & _ & Hp).
    rewrite Hp. reflexivity.
  - intros Hos Hu. apply (section_writes_tables df i j u Hi Hj) in Hu.
    apply (plan_sections_none df base_dir) in Hu.
    destruct (write_records self base_dir w) as [r w'] eqn:E.
    destruct (write_records_accepted self base_dir u df w r w' Hos Hc E)
      as (_ & _ & Hr).
    rewrite Hu in Hr. subst r. eauto.
Qed.

(** *** Where [write_records] stops *)



Lemma plan_sections_stop_join (df : frame) (base_dir : string) (u1 : udict)
  (sec : json) (ps : list problem) (u2 : udict) evs :
  plan_sections df base_dir u1 = (evs, None) ->
  (forall s, sec <> JStr s) ->
  plan_sections df base_dir (u1 ++ (sec, ps) :: u2) = (evs, Some TypeError).
Proof.
  intros H Hs. revert evs H. induction u1 as [|item u1 IH]; simpl; intros evs H.
  - inversion H; subst. destruct sec; try reflexivity. destruct (Hs s eq_refl).
  - destruct (path_join base_dir (fst item)) as [dir|]; [| discriminate].
    destruct (plan_problems df (fst item) (snd item)) as [pevs [e'|]];
      [discriminate |].
    destruct (plan_sections df base_dir u1) as [evs1 r1].
    inversion H; subst. rewrite (IH evs1 eq_refl). reflexivity.
Qed.

Lemma plan_sections_of_none (df : frame) (base_dir : string) (u : udict) :
  snd (plan_sections df base_dir u) = None ->
  exists evs, plan_sections df base_dir u = (evs, None).
Proof.
  destruct (plan_sections df base_dir u) as [evs r]. simpl. intros ->. eauto.
Qed.


(** X10: a section of [self.ungraded] whose name is not a string (the
    extraction takes a display name that is [None], a number or a
    boolean as a key) makes [write_records] raise [TypeError] when the
    loop reaches it, before any directory is asked for it; the sections
    before it have been written. *)
Theorem write_records_stops_at_non_string_section
  (self : nat) (base_dir : string) (w : world) (u : udict) (df : frame)
  (u1 : udict) (sec : json) (ps : list problem) (u2 : udict) r w' :
  (forall l ev, os_error l ev = None) ->
  constructed w self u df ->
  u = (u1 ++ (sec, ps) :: u2)%list ->
  Forall (fun item =>
            (exists s, fst item = JStr s) /\
            Forall (fun q => exists t, problem_table df (snd q) = Ok t) (snd item))
    u1 ->
  (forall s, sec <> JStr s) ->
  write_records self base_dir w = (r, w') ->
  r = Raise TypeError /\
  exists evs,
    log w' = (log w ++ evs)%list /\
    Forall2 (fun dir item => path_join base_dir (fst item) = Ok dir)
      (made_dirs evs) u1 /\
    Forall2 (fun wr sp =>
               fst wr = outfname (fst sp) (fst (snd sp)) /\
               problem_table df (snd (snd sp)) = Ok (snd wr))
      (writes evs) (problems_of u1).
Proof.
  intros Hos Hc Hu Hok Hs H.
  apply plan_sections_none with (base_dir := base_dir) in Hok.
  apply plan_sections_of_none in Hok as [evs Hp].
  destruct (write_records_accepted self base_dir u df w r w' Hos Hc H)
    as (_ & Hl & Hr).
  rewrite Hu, (plan_sections_stop_join df base_dir u1 sec ps u2 evs Hp Hs)
    in Hl, Hr.
  split; [exact Hr |]. exists evs. split; [exact Hl |].
  exact (plan_sections_requests df base_dir _ evs Hp).
Qed.

(** X7: with an operating system that refuses nothing, calling
    [write_records] a second time ends as the first call did and leaves
    under every path the table that the first call left there. *)
Theorem write_records_again_leaves_same_files
  (self : nat) (base_dir : string) (w : world) (u : udict) (df : frame) r w1 :
  (forall l ev, os_error l ev = None) ->
  constructed w self u df ->
  write_records self base_dir w = (r, w1) ->
  exists w2,
    write_records self base_dir w1 = (r, w2) /\
    file_store (log w2) = file_store (log w1).
Proof.
  intros Hos Hc H.
  destruct (write_records_accepted self base_dir u df w r w1 Hos Hc H)
    as ([x Hx] & Hl & Hr).
  pose proof (constructed_ext w w1 self u df x Hc Hx) as Hc1.
  destruct (write_records self base_dir w1) as [r2 w2] eqn:E.
  destruct (write_records_accepted self base_dir u df w1 r2 w2 Hos Hc1 E)
    as (_ & Hl2 & Hr2).
  exists w2. split; [congruence |].
  apply map_eq. intros p. unfold file_store. rewrite !fold_store.
  rewrite Hl2, Hl, !last_write_app.
  destruct (last_write p (fst (plan_sections df base_dir u))); reflexivity.
Qed.


(** *** Containers that are skipped *)

Lemma for_each_skip {A S} (l : list A) (body : A -> M S unit) (s : S) :
  (forall x, In x l -> body x s = (Ok tt, s)) -> for_each l body s = (Ok tt, s).
Proof.
  induction l as [|x l IH]; intros H; [reflexivity |].
  rewrite for_each_cons. unfold bind. rewrite (H x (or_introl eq_refl)).
  apply IH. intros y Hy. apply H. right. exact Hy.
Qed.

Lemma marked_graded_contains (desc : json) :
  marked_graded desc ->
  exists meta, py_getitem desc "metadata" = Ok meta /\
               py_contains meta "graded" = Ok true.
Proof.
  intros (d & v & Hm & Hg). exists (JObj d). split; [exact Hm |].
  simpl. f_equal. apply existsb_exists. exists "graded".
  split; [eapply dict_get_key; exact Hg | reflexivity].
Qed.

(** X3: the key ['graded'] alone excludes a container, whatever its
    value: when every node is a dict with a ['category'] and every
    ['sequential'] node has a dict for ['metadata'] with the key
    ['graded'], be it with the value [false], the extraction returns an
    empty dict; it looks at no child, so that ids that name nothing do
    not make it raise. *)
Theorem graded_key_alone_excludes_container (cs : dict) :
  Forall (fun item =>
            exists cat, py_getitem (snd item) "category" = Ok cat /\
                        (py_eq_str cat "sequential" = true ->
                         marked_graded (snd item))) cs ->
  ungraded_of (JObj cs) = Ok [].
Proof.
  intros H. unfold ungraded_of, extract_loops.
  rewrite for_each_skip; [reflexivity |].
  intros item Hin. rewrite List.Forall_forall in H.
  destruct (H item Hin) as (cat & Hcat & Hg).
  rewrite visit_node_eq, Hcat.
  destruct (py_eq_str cat "sequential"); [| reflexivity].
  destruct (marked_graded_contains _ (Hg eq_refl)) as (meta & Hm & Hc).
  rewrite Hm, Hc. reflexivity.
Qed.

(** *** [extract_ungraded] as a method *)

Lemma nth_error_around {A} (h : list A) (x y : A) (t : list A) (k : nat) :
  k <> length h ->
  nth_error (h ++ y :: t)%list k = nth_error (h ++ x :: t)%list k.
Proof.
  intros Hk. destruct (Nat.lt_ge_cases k (length h)) as [Hlt | Hge].
  - rewrite !nth_error_app1 by exact Hlt. reflexivity.
  - rewrite !nth_error_app2 by exact Hge.
    destruct (k - length h) as [|m] eqn:E; [lia | reflexivity].
Qed.

(** X4: [extract_ungraded] starts from an empty dict whatever
    [self.ungraded] held, assigns nothing but that attribute, touches no
    other object and asks nothing of the operating system; called again
    it ends in the same way and leaves the same state. *)
Theorem extract_ungraded_starts_afresh
  (self : nat) (w : world) (inst : instance) (cs : json) r w1 :
  nth_error (heap w) self = Some (OInstance inst) ->
  course_structure inst = Some cs ->
  extract_ungraded self w = (r, w1) ->
  nth_error (heap w1) self
    = Some (OInstance (set_ungraded (snd (extract_loops cs [])) inst)) /\
  (forall k, k <> self -> nth_error (heap w1) k = nth_error (heap w) k) /\
  log w1 = log w /\
  extract_ungraded self w1 = (r, w1).
Proof.
  intros Hn Hcs H.
  destruct (nth_error_split _ _ Hn) as (h & t & Hh & Hlen).
  destruct w as [hp lg]. cbn [heap log] in *. subst hp self.
  rewrite (extract_ungraded_run h inst t lg cs Hcs) in H.
  inversion H; subst r w1; clear H. cbn [heap log].
  split; [apply nth_error_mid |].
  split; [intros k Hk; apply nth_error_around; exact Hk |].
  split; [reflexivity |].
  exact (extract_ungraded_run h (set_ungraded (snd (extract_loops cs [])) inst)
           t lg cs Hcs).
Qed.

(** *** The order of the requests *)

(** X2: in a run that returns, the requests of [write_records] come
    section by section: the directory of a section, then one table for
    each of its problems, in their order and at least one, then the
    next section.  No directory is asked for without a table after it. *)
Theorem each_directory_is_followed_by_its_tables
  (database_prefix course_name base_dir : string) (w0 : world) self w w' :
  UngradedProblems database_prefix course_name w0 = (Ok self, w) ->
  write_records self base_dir w = (Ok tt, w') ->
  exists cs df u evss,
    loaded database_prefix course_name = Ok (cs, df, u) /\
    log w' = (log w ++ concat evss)%list /\
    Forall2 (fun sevs item =>
               exists dir tables,
                 sevs = MakeDirs dir :: tables /\ tables <> [] /\
                 path_join base_dir (fst item) = Ok dir /\
                 Forall2 (fun ev p =>
                            exists t, ev = ToCsv (outfname (fst item) (fst p)) tab t)
                   tables (snd item))
      evss u.
Proof.
  intros Hb Hw.
  destruct (constructed_by _ _ _ _ _ Hb) as (cs & df & u & Hl & Hc & _).
  destruct (completed_run self base_dir w w' u df Hc Hw) as (evs & Hlog & Hp).
  apply plan_sections_complete in Hp as (evss & -> & HF).
  exists cs, df, u, evss. split; [exact Hl |]. split; [exact Hlog |].
  destruct (loaded_table _ _ _ _ _ Hl) as (Hu & _).
  assert (Hne : forall item, In item u -> snd item <> []).
  { destruct cs as [| | | | | |d]; try discriminate.
    intros [sec l] Hin. exact (proj1 (ungraded_entry_walk d u sec l Hu Hin)). }
  clear - HF Hne. induction HF as [|sevs item evss u Hs _ IH]; constructor.
  - destruct Hs as (dir & pevs & -> & Hd & Hps).
    exists dir, pevs. split; [reflexivity |].
    split.
    + intros ->. inversion Hps as [Hnil Hitem |]. symmetry in Hitem.
      exact (Hne item (or_introl eq_refl) Hitem).
    + split; [exact Hd |].
      clear - Hps. induction Hps as [|ev p pevs ps Hp _ IHp]; constructor; [| exact IHp].
      unfold problem_request in Hp.
      destruct (problem_table df (snd p)) as [t|]; [| discriminate].
      simpl in Hp. inversion Hp. eauto.
  - apply IH. intros it Hit. apply Hne. right. exact Hit.
Qed.

(** *** Edge cases of the whole run *)

(** X8: when the course has no ungraded problem, the script asks for no
    directory and no table, not even for its output directory, and
    returns; an operating system that would refuse every request does
    not make it fail. *)
Theorem main_without_ungraded_problems_asks_nothing (w : world) cs df r w' :
  loaded "../../database/berkeleyx-2015-02-01/" "BerkeleyX-GG101x-1T2014"
    = Ok (cs, df, []) ->
  main w = (r, w') ->
  r = Ok tt /\
  writes (log w') = writes (log w) /\
  made_dirs (log w') = made_dirs (log w).
Proof.
  intros Hl. unfold main. cbv zeta.
  set (prefix := "../../database/berkeleyx-2015-02-01/") in *.
  set (name := "BerkeleyX-GG101x-1T2014") in *.
  intros H.
  apply bind_inv in H as [(self & w1 & H1 & H2) | (e & H1 & _)].
  - destruct (UngradedProblems_run prefix name w _ _ H1)
      as [(prints & Hlog & Hw & Hd) _].
    destruct (constructed_by _ _ _ _ _ H1) as (cs' & df' & u' & Hl' & Hc & _).
    rewrite Hl in Hl'. inversion Hl'; subst cs' df' u'; clear Hl'.
    destruct Hc as (inst & l & Hn & Hu & _).
    unfold write_records in H2.
    rewrite (bind_getattr self ungraded _ w1 inst [] Hn Hu) in H2.
    inversion H2; subst r w'; clear H2.
    rewrite Hlog, writes_app, made_dirs_app, Hw, Hd, !app_nil_r. auto.
  - destruct (UngradedProblems_run prefix name w _ _ H1) as (_ & _ & Hr).
    rewrite Hl in Hr. destruct Hr; discriminate.
Qed.

(** X9: a student table whose header lacks one of the six columns makes
    [read_encrypted_tsv], and with it the constructor, raise [ValueError];
    the course structure has been read by then but not walked, so it
    need not be one the extraction accepts. *)
Theorem student_table_without_a_column_is_refused
  (database_prefix course_name : string) (w : world)
  (out : string) (cs : json) (out' : string)
  (header : list string) (records : list (list string)) (c : string) :
  gpg (structure_fname database_prefix course_name) = Ok out ->
  json_loads out = Ok cs ->
  gpg (student_fname database_prefix course_name) = Ok out' ->
  csv_records tab out' = Ok (header, records) ->
  In c usecols -> ~ In c header ->
  fst (read_encrypted_tsv (student_fname database_prefix course_name) w)
    = Raise ValueError /\
  fst (UngradedProblems database_prefix course_name w) = Raise ValueError.
Proof.
  intros Hs Hj Ht Hc Hin Hnot.
  assert (Hcsv : read_csv out' tab ["na"] usecols = Raise ValueError).
  { unfold read_csv. rewrite Hc. cbn [rbind fst snd].
    destruct (forallb (fun c0 => existsb (String.eqb c0) header) usecols) eqn:E;
      [| reflexivity].
    exfalso. apply Hnot. rewrite forallb_forall in E.
    apply existsb_eqb_In. exact (E c Hin). }
  split.
  - unfold read_encrypted_tsv, popen_gpg. rewrite bind_print, bind_lift, Ht.
    rewrite bind_lift, Hcsv. reflexivity.
  - destruct (UngradedProblems database_prefix course_name w) as [r w'] eqn:E.
    destruct (UngradedProblems_run _ _ _ _ _ E) as (_ & _ & Hr).
    unfold loaded in Hr. rewrite Hs in Hr. cbn [rbind] in Hr.
    rewrite Hj in Hr. cbn [rbind] in Hr. rewrite Ht in Hr. cbn [rbind] in Hr.
    rewrite Hcsv in Hr. exact Hr.
Qed.





(** X12: the constructor returns exactly when both files decrypt, the
    first parses as JSON, the second is tokenized into a table whose
    header has the six columns, and the course structure is one the
    extraction accepts; in every other case it raises. *)
Theorem constructor_returns_iff_inputs_are_sound
  (database_prefix course_name : string) (w : world) :
  (exists self w', UngradedProblems database_prefix course_name w = (Ok self, w')) <->
  exists out cs out' header records,
    gpg (structure_fname database_prefix course_name) = Ok out /\
    json_loads out = Ok cs /\
    gpg (student_fname database_prefix course_name) = Ok out' /\
    csv_records tab out' = Ok (header, records) /\
    (forall c, In c usecols -> In c header) /\
    extractable cs.
Proof.
  split.
  - intros (self & w' & H).
    destruct (UngradedProblems_run _ _ _ _ _ H) as (_ & _ & Hr).
    destruct (loaded database_prefix course_name) as [[[cs df] u]|e] eqn:Hl;
      [clear Hr | discriminate].
    unfold loaded in Hl.
    destruct (gpg (structure_fname database_prefix course_name)) as [out|] eqn:Hs;
      [| discriminate].
    cbn [rbind] in Hl. destruct (json_loads out) as [cs0|] eqn:Hj; [| discriminate].
    cbn [rbind] in Hl.
    destruct (gpg (student_fname database_prefix course_name)) as [out'|] eqn:Ht;
      [| discriminate].
    cbn [rbind] in Hl. unfold read_csv in Hl.
    destruct (csv_records tab out') as [[header records]|] eqn:Hc; [| discriminate].
    cbn [rbind fst snd] in Hl.
    destruct (forallb (fun c => existsb (String.eqb c) header) usecols) eqn:Hf;
      [| discriminate].
    cbn [rbind] in Hl.
    destruct (ungraded_of cs0) as [u0|] eqn:Hu; [| discriminate].
    exists out, cs0, out', header, records.
    rewrite ?Hs, ?Ht.
    split; [reflexivity |]. split; [exact Hj |]. split; [reflexivity |].
    split; [exact Hc |]. split.
    + intros c Hin. rewrite forallb_forall in Hf.
      apply existsb_eqb_In. exact (Hf c Hin).
    + apply ungraded_of_ok_iff. eauto.
  - intros (out & cs & out' & header & records & Hs & Hj & Ht & Hc & Hcols & He).
    apply ungraded_of_ok_iff in He as [u Hu].
    destruct (UngradedProblems database_prefix course_name w) as [r w'] eqn:E.
    destruct (UngradedProblems_run _ _ _ _ _ E) as (_ & _ & Hr).
    unfold loaded, read_csv in Hr. rewrite Hs in Hr. cbn [rbind] in Hr.
    rewrite Hj in Hr. cbn [rbind] in Hr. rewrite Ht in Hr. cbn [rbind] in Hr.
    rewrite Hc in Hr. cbn [rbind fst snd] in Hr.
    assert (Hf : forallb (fun c => existsb (String.eqb c) header) usecols = true).
    { apply forallb_forall. intros c Hin. apply existsb_eqb_In. exact (Hcols c Hin). }
    rewrite Hf in Hr. cbn [rbind] in Hr. rewrite Hu in Hr. cbn [rbind] in Hr.
    destruct Hr as [-> _]. eauto.
Qed.

Lemma Forall2_Forall_r {A B} (R : A -> B -> Prop) (P : B -> Prop)
  (l : list A) (l' : list B) :
  Forall2 R l l' -> Forall P l' -> Forall2 (fun x y => R x y /\ P y) l l'.
Proof.
  induction 1 as [|x y l l' Hxy _ IH]; intros HP; constructor.
  - split; [exact Hxy | inversion HP; assumption].
  - apply IH. inversion HP; assumption.
Qed.

Lemma Forall2_right {A B} (R : A -> B -> Prop) (P : B -> Prop)
  (l : list A) (l' : list B) :
  (forall x y, R x y -> P y) -> Forall2 R l l' -> Forall P l'.
Proof.
  intros HR. induction 1 as [|x y l l' Hxy _ IH]; constructor; eauto.
Qed.

Lemma problems_of_sections (P : json -> Prop) (u : udict) :
  Forall (fun item => P (fst item)) u ->
  Forall (fun sp => P (fst sp)) (problems_of u).
Proof.
  standalone.
  unfold problems_of. induction 1 as [|item u Hi _ IH]; simpl; [constructor |].
  apply Forall_app. split; [| exact IH].
  apply List.Forall_forall. intros sp Hsp.
  apply in_map_iff in Hsp as (p & <- & _). exact Hi.
Qed.

(** The sections of a run that returns are strings. *)
Lemma made_dirs_sections (base_dir : string) (dirs : list string) (u : udict) :
  Forall2 (fun dir item => path_join base_dir (fst item) = Ok dir) dirs u ->
  Forall (fun item => exists s, fst item = JStr s) u.
Proof.
  apply Forall2_right. intros dir item H.
  apply (path_join_ok base_dir). eauto.
Qed.

(** *** The files left by the requests *)






Lemma Forall2_functional {A B} (R : A -> B -> Prop) (l l' : list A) (m : list B) :
  (forall x x' y, R x y -> R x' y -> x = x') ->
  Forall2 R l m -> Forall2 R l' m -> l = l'.
Proof.
  intros HR H. revert l'. induction H as [|x y l m Hxy _ IH]; intros l' H'.
  - inversion H'. reflexivity.
  - inversion H' as [|x' ? l'' ? Hxy' Hrest]; subst.
    rewrite (HR x x' y Hxy Hxy'), (IH l'' Hrest). reflexivity.
Qed.

(** [path.join] on the directory into whose name the paths of the
    tables are made. *)
Lemma path_join_hardcoded (s : string) :
  String.prefix "/" s = false ->
  path_join "ungraded_problems" (JStr s) = Ok ("ungraded_problems/" ++ s).
Proof.
  intros Hp. unfold path_join. rewrite Hp. reflexivity.
Qed.

(** C6, as the code has it: in a run of [write_records] that returns,
    the directory asked for a section is [path.join(base_dir, section)],
    which is [{base_dir}/{section}] in the plain case, and every table
    goes to the file [{name}.tsv] of the directory
    [ungraded_problems/{section}], whatever [base_dir] is: a run with
    another [base_dir] writes the same tables to the same paths.  When
    [base_dir] is a spelling of the directory [ungraded_problems], the
    directory asked for a section is the directory of its tables. *)
Theorem write_records_ignores_base_dir_for_files
  (database_prefix course_name base_dir : string) (w0 : world) self w w' :
  UngradedProblems database_prefix course_name w0 = (Ok self, w) ->
  write_records self base_dir w = (Ok tt, w') ->
  exists cs df u evs,
    loaded database_prefix course_name = Ok (cs, df, u) /\
    log w' = (log w ++ evs)%list /\
    Forall2 (fun dir item =>
               exists s,
                 fst item = JStr s /\
                 path_join base_dir (JStr s) = Ok dir /\
                 (String.prefix "/" s = false -> base_dir <> "" ->
                  ends_with_slash base_dir = false ->
                  dir = base_dir ++ "/" ++ s))
      (made_dirs evs) u /\
    Forall2 (fun wr sp =>
               exists s,
                 fst sp = JStr s /\
                 fst wr = ("ungraded_problems/" ++ s) ++ "/"
                            ++ match fst (snd sp) with
                               | JStr n => n
                               | _ => str_other (fst (snd sp))
                               end ++ ".tsv")
      (writes evs) (problems_of u) /\
    (forall base_dir' w'',
       write_records self base_dir' w = (Ok tt, w'') ->
       exists evs', log w'' = (log w ++ evs')%list /\ writes evs' = writes evs) /\
    (base_dir <> "" -> same_directory base_dir "ungraded_problems" ->
     Forall2 (fun dir item =>
                exists s,
                  fst item = JStr s /\
                  (String.prefix "/" s = false ->
                   same_directory dir ("ungraded_problems/" ++ s)))
       (made_dirs evs) u).
Proof.
  intros Hc Hw.
  destruct (constructed_by _ _ _ _ _ Hc) as (cs & df & u & Hl & Hcon & _).
  destruct (completed_run self base_dir w w' u df Hcon Hw) as (evs & Hlog & Hplan).
  destruct (plan_sections_requests df base_dir u evs Hplan) as [Hd HF].
  pose proof (made_dirs_sections base_dir _ u Hd) as Hsec.
  exists cs, df, u, evs. split; [exact Hl |]. split; [exact Hlog |].
  split; [| split; [| split]].
  - eapply List.Forall2_impl; [| exact Hd].
    intros dir item Hj. cbv beta in Hj.
    destruct (fst item) as [| | | |s| |]; try discriminate Hj.
    exists s. split; [reflexivity |]. split; [exact Hj |].
    intros Hp Hne Hsl. unfold path_join in Hj. rewrite Hp, Hsl in Hj.
    apply String.eqb_neq in Hne. rewrite Hne in Hj.
    inversion Hj. reflexivity.
  - apply (problems_of_sections (fun sec => exists s, sec = JStr s)) in Hsec.
    eapply List.Forall2_impl; [| exact (Forall2_Forall_r _ _ _ _ HF Hsec)].
    intros wr sp [[Hpath _] [s Hs]]. exists s. split; [exact Hs |].
    rewrite Hpath, Hs. unfold outfname, py_str. rewrite str_app_assoc.
    reflexivity.
  - intros base_dir' w'' Hw'.
    destruct (completed_run self base_dir' w w'' u df Hcon Hw')
      as (evs' & Hlog' & Hplan').
    destruct (plan_sections_requests df base_dir' u evs' Hplan') as [_ HF'].
    exists evs'. split; [exact Hlog' |].
    refine (Forall2_functional _ _ _ _ _ HF' HF).
    intros [p1 t1] [p2 t2] sp [H1 H1'] [H2 H2']. simpl in *. congruence.
  - intros Hne Hsame.
    eapply List.Forall2_impl; [| exact Hd].
    intros dir item Hj. cbv beta in Hj.
    destruct (fst item) as [| | | |s| |]; try discriminate Hj.
    exists s. split; [reflexivity |]. intros Hp.
    apply (same_join base_dir "ungraded_problems" s dir _ Hsame Hne);
      [discriminate | exact Hj | apply path_join_hardcoded; exact Hp].
Qed.

End Program.

(** ** Two runs on the same documents *)

Section TwoRuns.

Variable json_loads : string -> result json.
Variable unicode_escape : string -> result string.
Variable csv_records : ascii -> string -> result (list string * list (list string)).
Variable default_na : list string.
Variable str_other : json -> string.

(** Each run has its own subprocesses and its own operating system
    state, and starts from its own world. *)
Variables gpg1 gpg2 : string -> result string.
Variables os1 os2 : list event -> event -> option pyerr.

(** C8: two runs whose [gpg] subprocesses give the same two documents,
    from any two worlds and whatever the operating system answers:
    the constructors raise the same exception or both return; when they
    return, [self.ungraded] is the same dict, with the same sections and
    the same lists in the same order, and [self.student_df] the same
    table; and the requests of the two calls of [write_records], with the
    tables they carry, are the same as far as both go, and all the same
    when both return. *)
Theorem runs_on_equal_documents_agree
  (database_prefix course_name base_dir : string) (w1 w2 : world) c1 v1 c2 v2 :
  gpg1 (structure_fname database_prefix course_name)
    = gpg2 (structure_fname database_prefix course_name) ->
  gpg1 (student_fname database_prefix course_name)
    = gpg2 (student_fname database_prefix course_name) ->
  UngradedProblems json_loads csv_records default_na gpg1
    database_prefix course_name w1 = (c1, v1) ->
  UngradedProblems json_loads csv_records default_na gpg2
    database_prefix course_name w2 = (c2, v2) ->
  (forall e, c1 = Raise e <-> c2 = Raise e) /\
  (forall self1, c1 = Ok self1 ->
   exists self2 u df,
     c2 = Ok self2 /\
     constructed v1 self1 u df /\ constructed v2 self2 u df /\
     forall r1 v1' r2 v2',
       write_records json_loads unicode_escape str_other os1 self1 base_dir v1
         = (r1, v1') ->
       write_records json_loads unicode_escape str_other os2 self2 base_dir v2
         = (r2, v2') ->
       exists evs1 evs2,
         log v1' = (log v1 ++ evs1)%list /\
         log v2' = (log v2 ++ evs2)%list /\
         (is_prefix evs1 evs2 \/ is_prefix evs2 evs1) /\
         (r1 = Ok tt -> r2 = Ok tt -> evs1 = evs2)).
Proof.
  intros Hs Ht H1 H2.
  assert (Hl : loaded json_loads csv_records default_na gpg1 database_prefix course_name
               = loaded json_loads csv_records default_na gpg2 database_prefix course_name)
    by (unfold loaded; rewrite Hs, Ht; reflexivity).
  pose proof (UngradedProblems_run _ _ _ _ _ _ _ _ _ H1) as (_ & _ & R1).
  pose proof (UngradedProblems_run _ _ _ _ _ _ _ _ _ H2) as (_ & _ & R2).
  rewrite Hl in R1.
  destruct (loaded json_loads csv_records default_na gpg2 database_prefix course_name)
    as [[[cs df] u]|e0] eqn:E.
  - destruct R1 as [-> _]. destruct R2 as [-> _].
    split; [intros e; split; discriminate |].
    intros self1 Hself. inversion Hself; subst self1; clear Hself.
    destruct (constructed_by _ _ _ _ _ _ _ _ _ H1) as (cs1 & df1 & u1 & E1 & C1 & _).
    destruct (constructed_by _ _ _ _ _ _ _ _ _ H2) as (cs2 & df2 & u2 & E2 & C2 & _).
    rewrite Hl in E1. rewrite E in E2.
    inversion E1; subst cs1 df1 u1. inversion E2; subst cs2 df2 u2.
    exists (length (heap w2)), u, df. split; [reflexivity |].
    split; [exact C1 |]. split; [exact C2 |].
    intros r1 v1' r2 v2' W1 W2.
    destruct (write_records_run _ _ _ _ _ _ _ _ _ _ _ C1 W1)
      as [_ (evs1 & L1 & P1 & F1)].
    destruct (write_records_run _ _ _ _ _ _ _ _ _ _ _ C2 W2)
      as [_ (evs2 & L2 & P2 & F2)].
    exists evs1, evs2. split; [exact L1 |]. split; [exact L2 |].
    split; [exact (is_prefix_comparable _ _ _ P1 P2) |].
    intros -> ->. destruct (F1 eq_refl) as [-> _]. destruct (F2 eq_refl) as [-> _].
    reflexivity.
  - subst c1 c2. split; [tauto |]. intros self1 Hself. discriminate.
Qed.

End TwoRuns.

(** ** The small run *)

Local Abbreviation the_prefix := "../../database/berkeleyx-2015-02-01/".
Local Abbreviation the_course := "BerkeleyX-GG101x-1T2014".

Local Abbreviation small_construct :=
  (UngradedProblems small_json_loads small_csv_records small_default_na small_gpg
     the_prefix the_course).

Local Abbreviation small_loaded :=
  (loaded small_json_loads small_csv_records small_default_na small_gpg
     the_prefix the_course).

Local Abbreviation small_write os :=
  (write_records small_json_loads small_unicode_escape small_str_other os).

Local Abbreviation small_table_of :=
  (problem_table small_json_loads small_unicode_escape).

(** The world in which the constructor leaves the object, at address 0,
    and the one in which [write_records] leaves it. *)
Local Abbreviation built := (snd (small_construct fresh_world)).

Local Abbreviation written base_dir :=
  (snd (small_write os_accepts 0 base_dir built)).

(** *** The model at work *)

Local Abbreviation small_main os w :=
  (main small_json_loads small_unicode_escape small_csv_records small_default_na
     small_str_other small_gpg os w).

Example true_and_one_are_one_key :
  py_key (JBool true) = py_key (JInt 1) /\
  py_key (JFloat 1%float) = py_key (JInt 1) /\
  py_key (JFloat 0.5%float) = Some (KFloat 0.5%float) /\
  py_key (JArr []) = None.
Proof. vm_compute. repeat split. Qed.

Example path_join_examples :
  path_join "ungraded_problems" (JStr "Intro") = Ok "ungraded_problems/Intro" /\
  path_join "ungraded_problems/" (JStr "Intro") = Ok "ungraded_problems/Intro" /\
  path_join "" (JStr "Intro") = Ok "Intro" /\
  path_join "out" (JStr "/tmp/x") = Ok "/tmp/x" /\
  path_join "out" (JInt 3) = Raise TypeError.
Proof. vm_compute. repeat split. Qed.

Example small_course_ungraded :
  ungraded_of (JObj example_course) = Ok example_ungraded.
Proof. vm_compute. reflexivity. Qed.

Example dangling_course_raises :
  ungraded_of (JObj dangling_course) = Raise KeyError.
Proof. vm_compute. reflexivity. Qed.

Example shared_vertical_is_recorded :
  single_parent shared_course = false /\
  ungraded_of (JObj shared_course) = Ok [(JStr "Intro", [(JStr "Q", "p")])].
Proof. vm_compute. split; reflexivity. Qed.

Example iterating_a_string :
  py_iter (JStr "ab") = Ok [JStr "a"; JStr "b"] /\
  py_contains (JStr "ungraded") "graded" = Ok true /\
  py_contains (JObj [("graded", JBool false)]) "graded" = Ok true /\
  py_contains JNull "graded" = Raise TypeError.
Proof. vm_compute. repeat split. Qed.

Example small_answers :
  extract_student_answers small_json_loads small_unicode_escape (JStr "answered")
    = Ok (JObj [("i4x-p_2_1", JStr "choice_0")]) /\
  extract_student_answers small_json_loads small_unicode_escape (JStr "seen")
    = Ok (JObj []) /\
  extract_student_answers small_json_loads small_unicode_escape NaN
    = Raise AttributeError /\
  extract_student_answers small_json_loads small_unicode_escape (JStr "{")
    = Raise ValueError.
Proof. vm_compute. repeat split. Qed.

Example small_run_requests :
  fst (small_main os_accepts fresh_world) = Ok tt /\
  made_dirs (log (snd (small_main os_accepts fresh_world))) = ["ungraded_problems/Intro"] /\
  map (fun wr => (fst wr, map fst (rows (snd wr))))
    (writes (log (snd (small_main os_accepts fresh_world))))
  = [("ungraded_problems/Intro/Q1.tsv", [0; 2]);
     ("ungraded_problems/Intro/Q1.tsv", [1])].
Proof. vm_compute. repeat split. Qed.

Example small_run_keeps_last_table :
  option_map (fun t => map fst (rows t))
    (file_store (log (snd (small_main os_accepts fresh_world)))
       !! "ungraded_problems/Intro/Q1.tsv")
  = Some [1].
Proof. vm_compute. reflexivity. Qed.

Example small_run_refused :
  fst (small_main os_refuses fresh_world) = Raise OSError /\
  log (snd (small_main os_refuses fresh_world))
  = [Print "reading JSON"; Print "reading TSV"].
Proof. vm_compute. split; reflexivity. Qed.

(** *** The claims on the small run *)

(** C1 on the small course. *)
Lemma extracted_iff_ungraded_grandchild_witness :
  (forall pid, extracted example_ungraded pid <-> grandchild example_course false pid) /\
  (forall pid, grandchild example_course true pid -> ~ extracted example_ungraded pid).
Proof.
  destruct (extracted_iff_ungraded_grandchild example_course example_ungraded)
    as [H1 H2].
  - vm_compute. reflexivity.
  - split; [exact H1 | apply H2; vm_compute; reflexivity].
Defined.

(** C1 as stated fails: in a course structure that is not a tree, where
    a vertical is listed by a container without ['graded'] and by one
    with it, the problem under the container with ['graded'] is
    recorded. *)
Lemma problem_under_graded_container_recorded :
  ungraded_of (JObj shared_course) = Ok [(JStr "Intro", [(JStr "Q", "p")])] /\
  grandchild shared_course true "p" /\
  extracted [(JStr "Intro", [(JStr "Q", "p")])] "p".
Proof.
  split; [vm_compute; reflexivity |]. split.
  - exists "s2", (node "sequential" [("graded", JBool true)] ["v"]), (JStr "v"),
      (node "vertical" [("display_name", JStr "Intro")] ["p"]).
    split; [simpl; tauto |].
    split.
    { split.
      - exists (JStr "sequential"). split; reflexivity.
      - exists (JObj [("graded", JBool true)]). split; reflexivity. }
    split; [exists [JStr "v"]; split; [reflexivity | left; reflexivity] |].
    split; [reflexivity |].
    split; [exists [JStr "p"]; split; [reflexivity | left; reflexivity] |].
    exists (node "problem" [("display_name", JStr "Q")] []).
    split; [reflexivity |]. exists (JStr "problem"). split; reflexivity.
  - exists (JStr "Intro"), [(JStr "Q", "p")], (JStr "Q").
    split; left; reflexivity.
Qed.



(** C3 on the small run. *)
Lemma student_answers_from_state_witness :
  exists cs df u evs j,
    small_loaded = Ok (cs, df, u) /\
    log (written "ungraded_problems") = (log built ++ evs)%list /\
    col_index "state" (columns df) = Some j /\
    Forall2 (fun wr sp =>
               columns (snd wr) = (columns df ++ ["student_answers"])%list /\
               Forall2 (fun r' r =>
                          exists a s txt d,
                            snd r' = (snd r ++ [a])%list /\
                            nth j (snd r) NaN = JStr s /\
                            small_unicode_escape (str_encode s) = Ok txt /\
                            small_json_loads txt = Ok (JObj d) /\
                            a = match dict_get d "student_answers" with
                                | Some x => x
                                | None => JObj []
                                end)
                 (rows (snd wr)) (List.filter (about df (snd (snd sp))) (rows df)))
      (writes evs) (problems_of u).
Proof.
  apply (student_answers_from_state
           small_json_loads small_unicode_escape small_csv_records small_default_na
           small_str_other small_gpg os_accepts
           the_prefix the_course "ungraded_problems" fresh_world 0 built
           (written "ungraded_problems")).
  - vm_compute. reflexivity.
  - vm_compute. reflexivity.
Defined.

(** C4 when [gpg] finds neither file, from a world with earlier requests. *)
Lemma missing_input_fails_whole_run_witness :
  exists e w',
    UngradedProblems small_json_loads small_csv_records small_default_na no_files_gpg
      the_prefix the_course used_world = (Raise e, w') /\
    main small_json_loads small_unicode_escape small_csv_records small_default_na
      small_str_other no_files_gpg os_accepts used_world = (Raise e, w') /\
    writes (log w') = writes (log used_world) /\
    made_dirs (log w') = made_dirs (log used_world).
Proof.
  apply (missing_input_fails_whole_run
           small_json_loads small_unicode_escape small_csv_records small_default_na
           small_str_other no_files_gpg os_accepts used_world).
  - exists ValueError. reflexivity.
  - exists ValueError. reflexivity.
  - left. reflexivity.
Defined.

(** C5 on the small table, whose file has a seventh column [id], with
    the markers of pandas. *)
Lemma read_encrypted_tsv_six_string_columns_witness :
  exists out header records df,
    small_gpg (student_fname the_prefix the_course) = Ok out /\
    small_csv_records tab out = Ok (header, records) /\
    nth_error (heap (snd (read_encrypted_tsv small_csv_records pandas_default_na small_gpg
                            (student_fname the_prefix the_course) fresh_world))) 0
      = Some (OFrame df) /\
    columns df = List.filter (fun h => existsb (String.eqb h) usecols) header /\
    (forall c, In c (columns df) <->
               In c ["module_id"; "student_id"; "state"; "created"; "modified"; "done"]) /\
    (List.NoDup header -> List.NoDup (columns df) /\ length (columns df) = 6) /\
    rows df = combine (seq 0 (length records))
                (map (fun r => select (map (fun h => existsb (String.eqb h) usecols) header)
                                 (map (parse_cell pandas_default_na ["na"]) r)) records) /\
    (forall field, In field ("na" :: pandas_default_na) ->
                   parse_cell pandas_default_na ["na"] field = NaN) /\
    (forall field, ~ In field ("na" :: pandas_default_na) ->
                   parse_cell pandas_default_na ["na"] field = JStr field) /\
    (incl pandas_default_na pandas_default_na ->
     Forall (fun field => parse_cell pandas_default_na ["na"] field = NaN)
       [""; "NULL"; "NaN"; "NA"]).
Proof.
  apply (read_encrypted_tsv_six_string_columns
           small_csv_records pandas_default_na small_gpg
           (student_fname the_prefix the_course) fresh_world 0).
  vm_compute. reflexivity.
Defined.

(** C5 as stated fails: the third record of the small table has NULL in
    the column done, which is not the literal [na]; the value kept is
    the float [nan], not a string. *)
Lemma missing_marker_besides_na_is_not_a_string :
  nth_error (snd small_table) 2
    = Some ["3"; "p1"; "9"; "seen"; "2014-01-05"; "2014-01-05"; "NULL"] /\
  (exists df,
     read_encrypted_tsv small_csv_records pandas_default_na small_gpg
       (student_fname the_prefix the_course) fresh_world
     = (Ok 0, {| heap := [OFrame df]; log := [Print "reading TSV"] |}) /\
     columns df = ["module_id"; "student_id"; "state"; "created"; "modified"; "done"] /\
     nth_error (rows df) 2
     = Some (2, [JStr "p1"; JStr "9"; JStr "seen"; JStr "2014-01-05";
                 JStr "2014-01-05"; NaN])) /\
  NaN <> JStr "NULL" /\ "NULL" <> "na".
Proof.
  split; [reflexivity |]. split.
  - eexists. split; [vm_compute; reflexivity |]. split; reflexivity.
  - split; discriminate.
Qed.

(** C6 with [base_dir] equal to [./ungraded_problems], a spelling of the
    directory of the tables. *)
Lemma write_records_ignores_base_dir_for_files_witness :
  same_directory "./ungraded_problems" "ungraded_problems" /\
  exists cs df u evs,
    small_loaded = Ok (cs, df, u) /\
    log (written "./ungraded_problems") = (log built ++ evs)%list /\
    Forall2 (fun dir item =>
               exists s,
                 fst item = JStr s /\
                 path_join "./ungraded_problems" (JStr s) = Ok dir /\
                 (String.prefix "/" s = false -> "./ungraded_problems" <> "" ->
                  ends_with_slash "./ungraded_problems" = false ->
                  dir = "./ungraded_problems" ++ "/" ++ s))
      (made_dirs evs) u /\
    Forall2 (fun wr sp =>
               exists s,
                 fst sp = JStr s /\
                 fst wr = ("ungraded_problems/" ++ s) ++ "/"
                            ++ match fst (snd sp) with
                               | JStr n => n
                               | _ => small_str_other (fst (snd sp))
                               end ++ ".tsv")
      (writes evs) (problems_of u) /\
    (forall base_dir' w'',
       small_write os_accepts 0 base_dir' built = (Ok tt, w'') ->
       exists evs', log w'' = (log built ++ evs')%list /\ writes evs' = writes evs) /\
    ("./ungraded_problems" <> "" ->
     same_directory "./ungraded_problems" "ungraded_problems" ->
     Forall2 (fun dir item =>
                exists s,
                  fst item = JStr s /\
                  (String.prefix "/" s = false ->
                   same_directory dir ("ungraded_problems/" ++ s)))
       (made_dirs evs) u).
Proof.
  split.
  - apply (same_leading_dot "ungraded_problems"); [discriminate | reflexivity].
  - apply (write_records_ignores_base_dir_for_files
             small_json_loads small_unicode_escape small_csv_records small_default_na
             small_str_other small_gpg os_accepts
             the_prefix the_course "./ungraded_problems" fresh_world 0 built
             (written "./ungraded_problems")).
    + vm_compute. reflexivity.
    + vm_compute. reflexivity.
Defined.

(** C6 as stated fails: with [base_dir] equal to [ungraded_problems/],
    which is not [ungraded_problems], the directory asked for is
    [ungraded_problems/Intro] and every table is written to the file
    [Q1.tsv] of that directory. *)
Lemma tables_in_made_dirs_for_another_base_dir :
  String.eqb "ungraded_problems/" "ungraded_problems" = false /\
  small_construct fresh_world = (Ok 0, built) /\
  fst (small_write os_accepts 0 "ungraded_problems/" built) = Ok tt /\
  made_dirs (log (written "ungraded_problems/")) = ["ungraded_problems/Intro"] /\
  map fst (writes (log (written "ungraded_problems/")))
    = ["ungraded_problems/Intro" ++ "/" ++ "Q1.tsv";
       "ungraded_problems/Intro" ++ "/" ++ "Q1.tsv"].
Proof. vm_compute. repeat split. Qed.

(** C7 on the course with a dangling vertical. *)
Lemma extraction_returns_iff_extractable_witness :
  dict_subscript dangling_course (JStr "v") = Raise KeyError /\
  exists e, ungraded_of (JObj dangling_course) = Raise e.
Proof.
  apply (proj2 (extraction_returns_iff_extractable dangling_course)
           ("s", node "sequential" [] ["v"]) "v").
  - left. reflexivity.
  - split.
    + exists (JStr "sequential"). split; reflexivity.
    + exists (JObj []). split; reflexivity.
  - left. exists [JStr "v"]. split; [reflexivity | left; reflexivity].
  - intros [H | []]. discriminate.
Defined.

(** C7 as stated fails: a course that meets the precondition as stated and on which the
    extraction raises, and one that does not meet it and on which the
    extraction returns. *)
Lemma stated_precondition_neither_sufficient_nor_necessary :
  (stated_precondition unnamed_course = true /\
   ungraded_of (JObj unnamed_course) = Raise KeyError) /\
  (stated_precondition bare_course = false /\
   ungraded_of (JObj bare_course) = Ok []).
Proof. vm_compute. repeat split. Qed.

(** C8 for a run from a fresh world and one from a used world in which
    the operating system refuses every request. *)
Lemma runs_on_equal_documents_agree_witness :
  (forall e, fst (small_construct fresh_world) = Raise e <->
             fst (small_construct used_world) = Raise e) /\
  (forall self1, fst (small_construct fresh_world) = Ok self1 ->
   exists self2 u df,
     fst (small_construct used_world) = Ok self2 /\
     constructed built self1 u df /\
     constructed (snd (small_construct used_world)) self2 u df /\
     forall r1 v1' r2 v2',
       small_write os_accepts self1 "ungraded_problems" built = (r1, v1') ->
       small_write os_refuses self2 "ungraded_problems" (snd (small_construct used_world))
         = (r2, v2') ->
       exists evs1 evs2,
         log v1' = (log built ++ evs1)%list /\
         log v2' = (log (snd (small_construct used_world)) ++ evs2)%list /\
         (is_prefix evs1 evs2 \/ is_prefix evs2 evs1) /\
         (r1 = Ok tt -> r2 = Ok tt -> evs1 = evs2)).
Proof.
  apply (runs_on_equal_documents_agree
           small_json_loads small_unicode_escape small_csv_records small_default_na
           small_str_other small_gpg small_gpg os_accepts os_refuses
           the_prefix the_course "ungraded_problems" fresh_world used_world).
  - reflexivity.
  - reflexivity.
  - vm_compute. reflexivity.
  - vm_compute. reflexivity.
Defined.

(** C9 on the small run. *)
Lemma write_records_leaves_object_unchanged_witness :
  exists cs df u l,
    nth_error (heap built) 0
      = Some (OInstance {| course_structure := Some cs;
                           student_df := Some l;
                           ungraded := Some u |}) /\
    nth_error (heap built) l = Some (OFrame df) /\
    nth_error (heap (written "ungraded_problems")) 0 = nth_error (heap built) 0 /\
    nth_error (heap (written "ungraded_problems")) l = Some (OFrame df) /\
    (forall c, In c (columns df) <->
               In c ["module_id"; "student_id"; "state"; "created"; "modified"; "done"]) /\
    ~ In "student_answers" (columns df) /\
    (forall k o, nth_error (heap built) k = Some o ->
                 nth_error (heap (written "ungraded_problems")) k = Some o) /\
    (Ok tt = Ok tt ->
     exists evs, log (written "ungraded_problems") = (log built ++ evs)%list /\
                 Forall (fun wr => columns (snd wr) = (columns df ++ ["student_answers"])%list)
                   (writes evs)).
Proof.
  apply (write_records_leaves_object_unchanged
           small_json_loads small_unicode_escape small_csv_records small_default_na
           small_str_other small_gpg os_accepts
           the_prefix the_course "ungraded_problems" fresh_world 0 built (Ok tt)
           (written "ungraded_problems")).
  - vm_compute. reflexivity.
  - vm_compute. reflexivity.
Defined.

(** C10 on the small run. *)
Lemma display_name_collisions_merge_witness :
  exists cs df u,
    small_loaded = Ok (JObj cs, df, u) /\
    constructed built 0 u df /\
    keys_distinct u /\
    (forall vert1 vert2 sec hk pid1 pid2,
       visited cs vert1 -> visited cs vert2 ->
       display_name vert1 = Ok sec -> display_name vert2 = Ok sec ->
       py_key sec = Some hk ->
       problem_in cs vert1 pid1 -> problem_in cs vert2 pid2 ->
       exists k l name1 name2,
         In (k, l) u /\ py_key k = Some hk /\
         In (name1, pid1) l /\ In (name2, pid2) l /\
         forall k' l', In (k', l') u -> py_key k' = Some hk -> (k', l') = (k, l)) /\
    (forall base_dir w' sec ps i j name pid1 pid2,
       small_write os_accepts 0 base_dir built = (Ok tt, w') ->
       In (sec, ps) u -> i < j ->
       nth_error ps i = Some (name, pid1) ->
       nth_error ps j = Some (name, pid2) ->
       exists a b c t1 t2,
         log w' = (log built ++ a ++ ToCsv (outfname small_str_other sec name) tab t1
                     :: b ++ ToCsv (outfname small_str_other sec name) tab t2 :: c)%list /\
         small_table_of df pid1 = Ok t1 /\ small_table_of df pid2 = Ok t2 /\
         file_store (log w') !! outfname small_str_other sec name
         = Some (match last_write (outfname small_str_other sec name) c with
                 | Some t => t
                 | None => t2
                 end)).
Proof.
  apply (display_name_collisions_merge
           small_json_loads small_unicode_escape small_csv_records small_default_na
           small_str_other small_gpg os_accepts
           the_prefix the_course fresh_world 0 built).
  vm_compute. reflexivity.
Defined.

(** *** The further properties at work *)

Local Abbreviation stale_object :=
  {| course_structure := Some (JObj example_course);
     student_df := Some 1;
     ungraded := Some [(JStr "stale", [])] |}.

(** [self.ungraded] with a problem whose row has no state, with a section
    named [None], and with a problem that no row is about. *)
Local Abbreviation gappy_ungraded :=
  [(JStr "Intro", [(JStr "Q1", "p1"); (JStr "Q2", "p2")])].

Local Abbreviation unnamed_ungraded :=
  [(JStr "Intro", [(JStr "Q1", "p1")]); (JNull, [(JStr "Q2", "p2")])].

Local Abbreviation sound_ungraded := [(JStr "Intro", [(JStr "Q1", "p1")])].

Local Abbreviation hand_write u :=
  (small_write os_accepts 0 "ungraded_problems" (hand_world u gappy_frame)).

Lemma ungraded_groups_walk_in_order_witness :
  ungraded_of (JObj example_course) = Ok example_ungraded /\
  (forall sec l, In (sec, l) example_ungraded ->
     l <> [] /\
     exists hk, py_key sec = Some hk /\ l = under_section hk (walk example_course)) /\
  (forall hk, under_section hk (walk example_course) <> [] ->
     exists sec, py_key sec = Some hk /\
                 In (sec, under_section hk (walk example_course)) example_ungraded).
Proof.
  split; [vm_compute; reflexivity |].
  apply (ungraded_groups_walk_in_order example_course example_ungraded).
  vm_compute. reflexivity.
Defined.

Lemma each_directory_is_followed_by_its_tables_witness :
  exists cs df u evss,
    small_loaded = Ok (cs, df, u) /\
    log (written "ungraded_problems") = (log built ++ concat evss)%list /\
    Forall2 (fun sevs item =>
               exists dir tables,
                 sevs = MakeDirs dir :: tables /\ tables <> [] /\
                 path_join "ungraded_problems" (fst item) = Ok dir /\
                 Forall2 (fun ev p =>
                            exists t, ev = ToCsv (outfname small_str_other (fst item) (fst p))
                                             tab t)
                   tables (snd item))
      evss u.
Proof.
  apply (each_directory_is_followed_by_its_tables
           small_json_loads small_unicode_escape small_csv_records small_default_na
           small_str_other small_gpg os_accepts
           the_prefix the_course "ungraded_problems" fresh_world 0 built
           (written "ungraded_problems")).
  - vm_compute. reflexivity.
  - vm_compute. reflexivity.
Defined.

Lemma graded_key_alone_excludes_container_witness :
  (exists e, ungraded_of (JObj dangling_course) = Raise e) /\
  ungraded_of (JObj marked_course) = Ok [].
Proof.
  split; [exists KeyError; vm_compute; reflexivity |].
  apply (graded_key_alone_excludes_container marked_course).
  constructor; [| constructor; [| constructor]].
  - exists (JStr "sequential"). split; [reflexivity |].
    intros _. exists [("graded", JBool false)], (JBool false).
    split; reflexivity.
  - exists (JStr "chapter"). split; [reflexivity |].
    intros H. vm_compute in H. discriminate H.
Defined.

Lemma extract_ungraded_starts_afresh_witness :
  nth_error (heap (hand_world example_ungraded gappy_frame)) 0
    = Some (OInstance (set_ungraded (snd (extract_loops (JObj example_course) []))
                         stale_object)) /\
  (forall k, k <> 0 ->
     nth_error (heap (hand_world example_ungraded gappy_frame)) k
     = nth_error (heap (hand_world [(JStr "stale", [])] gappy_frame)) k) /\
  log (hand_world example_ungraded gappy_frame)
    = log (hand_world [(JStr "stale", [])] gappy_frame) /\
  extract_ungraded 0 (hand_world example_ungraded gappy_frame)
    = (Ok tt, hand_world example_ungraded gappy_frame).
Proof.
  apply (extract_ungraded_starts_afresh 0 (hand_world [(JStr "stale", [])] gappy_frame)
           stale_object (JObj example_course) (Ok tt)
           (hand_world example_ungraded gappy_frame)).
  - reflexivity.
  - reflexivity.
  - vm_compute. reflexivity.
Defined.


Lemma write_records_returns_iff_selected_states_parse_witness :
  ((exists w', small_write os_accepts 0 "ungraded_problems"
                 (hand_world sound_ungraded gappy_frame) = (Ok tt, w')) ->
   Forall (section_writes small_json_loads small_unicode_escape gappy_frame 1)
     sound_ungraded) /\
  ((forall l e, os_accepts l e = None) ->
   Forall (section_writes small_json_loads small_unicode_escape gappy_frame 1)
     sound_ungraded ->
   exists w', small_write os_accepts 0 "ungraded_problems"
                (hand_world sound_ungraded gappy_frame) = (Ok tt, w')).
Proof.
  apply (write_records_returns_iff_selected_states_parse
           small_json_loads small_unicode_escape small_str_other os_accepts
           0 "ungraded_problems" (hand_world sound_ungraded gappy_frame)
           sound_ungraded gappy_frame 0 1).
  - eexists. exists 1. repeat split; reflexivity.
  - reflexivity.
  - reflexivity.
Defined.

Lemma write_records_again_leaves_same_files_witness :
  exists w2,
    small_write os_accepts 0 "ungraded_problems" (snd (hand_write gappy_ungraded))
      = (Raise AttributeError, w2) /\
    file_store (log w2) = file_store (log (snd (hand_write gappy_ungraded))).
Proof.
  apply (write_records_again_leaves_same_files
           small_json_loads small_unicode_escape small_str_other os_accepts
           0 "ungraded_problems" (hand_world gappy_ungraded gappy_frame)
           gappy_ungraded gappy_frame
           (Raise AttributeError) (snd (hand_write gappy_ungraded))).
  - intros l ev. reflexivity.
  - eexists. exists 1. repeat split; reflexivity.
  - vm_compute. reflexivity.
Defined.

Local Abbreviation marked_main :=
  (main marked_json_loads small_unicode_escape small_csv_records small_default_na
     small_str_other small_gpg os_refuses used_world).

Lemma main_without_ungraded_problems_asks_nothing_witness :
  fst marked_main = Ok tt /\
  writes (log (snd marked_main)) = writes (log used_world) /\
  made_dirs (log (snd marked_main)) = made_dirs (log used_world).
Proof.
  eapply (main_without_ungraded_problems_asks_nothing
            marked_json_loads small_unicode_escape small_csv_records small_default_na
            small_str_other small_gpg os_refuses used_world _ _
            (fst marked_main) (snd marked_main)).
  - vm_compute. reflexivity.
  - vm_compute. reflexivity.
Defined.

Lemma student_table_without_a_column_is_refused_witness :
  fst (read_encrypted_tsv short_csv_records small_default_na small_gpg
         (student_fname the_prefix the_course) fresh_world) = Raise ValueError /\
  fst (UngradedProblems small_json_loads short_csv_records small_default_na small_gpg
         the_prefix the_course fresh_world) = Raise ValueError.
Proof.
  apply (student_table_without_a_column_is_refused
           small_json_loads short_csv_records small_default_na small_gpg
           the_prefix the_course fresh_world
           "course" (JObj example_course) "table"
           ["module_id"; "state"] [["p1"; "answered"]] "done").
  - vm_compute. reflexivity.
  - reflexivity.
  - vm_compute. reflexivity.
  - reflexivity.
  - simpl. tauto.
  - simpl. intros [H | [H | []]]; discriminate H.
Defined.

Lemma write_records_stops_at_non_string_section_witness :
  fst (hand_write unnamed_ungraded) = Raise TypeError /\
  exists evs,
    log (snd (hand_write unnamed_ungraded))
      = (log (hand_world unnamed_ungraded gappy_frame) ++ evs)%list /\
    Forall2 (fun dir item => path_join "ungraded_problems" (fst item) = Ok dir)
      (made_dirs evs) sound_ungraded /\
    Forall2 (fun wr sp =>
               fst wr = outfname small_str_other (fst sp) (fst (snd sp)) /\
               small_table_of gappy_frame (snd (snd sp)) = Ok (snd wr))
      (writes evs) (problems_of sound_ungraded).
Proof.
  apply (write_records_stops_at_non_string_section
           small_json_loads small_unicode_escape small_str_other os_accepts
           0 "ungraded_problems" (hand_world unnamed_ungraded gappy_frame)
           unnamed_ungraded gappy_frame
           sound_ungraded JNull [(JStr "Q2", "p2")] []
           (fst (hand_write unnamed_ungraded)) (snd (hand_write unnamed_ungraded))).
  - intros l ev. reflexivity.
  - eexists. exists 1. repeat split; reflexivity.
  - reflexivity.
  - constructor; [| constructor].
    split; [exists "Intro"; reflexivity |].
    constructor; [| constructor]. eexists. vm_compute. reflexivity.
  - intros s H. discriminate H.
  - vm_compute. reflexivity.
Defined.

Local Abbreviation absent_write :=
  (write_problem small_json_loads small_unicode_escape small_str_other os_accepts
     0 (JStr "Intro") (JStr "Q9", "p9") (hand_world sound_ungraded gappy_frame)).

